(** * Mock traffic simulation of the junction dashboard (lib/api)

    A shallow embedding of [simulateTrafficChanges] and its helpers
    ([fetchJunctionById], [calculateMockDelay], [calculateMockThroughput],
    [generateMockTrafficFlowData]) together with the properties of the
    metrics synthesiser that the specification states about them.  The
    development also covers the generator of mock junctions
    (data/mock-junctions), the comparison of the two snapshots that is shown
    with a result (components/simulation-result) and the mock of the safety
    predictions (lib/ml-api).

    JavaScript numbers are IEEE 754 binary64 values: they are modelled by
    Rocq's primitive floats, whose operations are the same correctly rounded
    binary64 operations.  The two JSON datasets the module imports are
    parameters of the development, the ambient clock is an explicit world
    that [new Date()] reads, and exceptions are values of an error type.  A
    string is a sequence of code units below 256.  The [setTimeout] delays
    awaited by the functions change no result and are left out. *)

From Stdlib Require Import ZArith Lia String Ascii List Bool.
From Stdlib Require Import Uint63 Floats Reals Lra Machin.
From stdpp Require Import base strings gmap list.

(* Decimal literals such as 0.9 denote the nearest binary64 value, in Rocq as
   in JavaScript. *)
Set Warnings "-inexact-float".

Local Open Scope Z_scope.

(** ** JavaScript primitives used by the module *)

Module JS.

(** A property that may be missing: reading it yields [undefined]. *)
Definition ToNumber (v : option float) : float :=
  match v with
  | Some x => x
  | None => nan
  end.

(** ToBoolean on a number: [NaN], [+0] and [-0] are falsy. *)
Definition truthy (x : float) : bool := negb (is_nan x || is_zero x).

(** [x || d] on numbers. *)
Definition or_else (x d : float) : float := if truthy x then x else d.

(** Integers of magnitude below 2^63 as numbers. *)
Definition int_to_float (z : Z) : float :=
  match z with
  | Z0 => zero
  | Zpos p => of_uint63 (Uint63.of_Z (Zpos p))
  | Zneg p => (- of_uint63 (Uint63.of_Z (Zpos p)))%float
  end.

(** The number nearest to an integer of any size (ties to even). *)
Definition Z_to_number (z : Z) : float :=
  SF2Prim (binary_normalize prec emax z 0 false).

(** [Math.max] of two numbers: [NaN] if either is [NaN], and [+0] is
    larger than [-0]. *)
Definition Math_max (a b : float) : float :=
  if is_nan a || is_nan b then nan
  else if (a <? b)%float then b
  else if (b <? a)%float then a
  else if is_zero a && get_sign a then b else a.

(** [Math.round]: the integral number closest to [x], ties towards
    +Infinity; [NaN], zeros and infinities are returned unchanged and a
    result of zero keeps the sign of [x].  A finite [x] is [±m·2^e]; when
    [e < 0] the result is [floor (x + 1/2)], computed exactly on integers
    (its magnitude is below 2^53, so it is a number). *)
Definition Math_round (x : float) : float :=
  match Prim2SF x with
  | S754_finite s m e =>
      if 0 <=? e then x
      else
        let n := cond_Zopp s (Zpos m) in
        let r := (2 * n + 2 ^ (- e)) / 2 ^ (1 - e) in
        if r =? 0 then (if s then neg_zero else zero) else int_to_float r
  | _ => x
  end.

(** [Math.PI], the binary64 value 3.141592653589793. *)
Definition Math_PI : float := 0x1.921fb54442d18p+1%float.

(** [String.prototype.replace] with a string pattern: only the first
    occurrence is replaced. *)
Fixpoint String_replace (pat rep s : string) : string :=
  if String.prefix pat s then
    String.append rep (String.substring (String.length pat)
                         (String.length s - String.length pat)%nat s)
  else
    match s with
    | EmptyString => s
    | String c s' => String c (String_replace pat rep s')
    end.

(** White space that [parseInt] skips.  A string is a sequence of code units
    below 256; of the white space and the line terminators of the language,
    TAB, LF, VT, FF, CR, SP and NBSP (code unit 160) are in that range. *)
Definition isWhiteSpace (c : ascii) : bool :=
  let n := N_of_ascii c in
  ((9 <=? n) && (n <=? 13) || (n =? 32) || (n =? 160))%N.

Fixpoint trimStart (s : string) : string :=
  match s with
  | String c s' => if isWhiteSpace c then trimStart s' else s
  | EmptyString => s
  end.

(** The value of a character as a digit of the given radix, if it is one. *)
Definition digitValue (radix : Z) (c : ascii) : option Z :=
  let n := Z.of_N (N_of_ascii c) in
  let d :=
    if (48 <=? n) && (n <=? 57) then Some (n - 48)
    else if (97 <=? n) && (n <=? 122) then Some (n - 87)
    else if (65 <=? n) && (n <=? 90) then Some (n - 55)
    else None in
  match d with
  | Some v => if v <? radix then Some v else None
  | None => None
  end.

(** The integer written by the longest prefix of digits; [acc] is [None]
    until a digit has been read. *)
Fixpoint leadingDigits (radix : Z) (s : string) (acc : option Z) : option Z :=
  match s with
  | String c s' =>
      match digitValue radix c with
      | Some d =>
          leadingDigits radix s'
            (Some (match acc with Some a => a * radix + d | None => d end))
      | None => acc
      end
  | EmptyString => acc
  end.

(** [Number.parseInt] without a radix argument: skip white space, read a
    sign, an optional [0x] prefix and the digits that follow; [NaN] when
    there is no digit. *)
Definition parseInt (s : string) : float :=
  let s0 := trimStart s in
  let '(neg, s1) :=
    match s0 with
    | String "-"%char r => (true, r)
    | String "+"%char r => (false, r)
    | _ => (false, s0)
    end in
  let '(radix, s2) :=
    if String.prefix "0x" s1 || String.prefix "0X" s1
    then (16, String.substring 2 (String.length s1 - 2)%nat s1)
    else (10, s1) in
  match leadingDigits radix s2 None with
  | None => nan
  | Some 0 => if neg then neg_zero else zero
  | Some n => if neg then (- Z_to_number n)%float else Z_to_number n
  end.

(** The names of the members that an ordinary object, such as the object of
    an imported JSON document, inherits from [Object.prototype].  Each of them
    is a function or, for [__proto__], the prototype object itself: all are
    truthy. *)
Definition Object_prototype_names : list string :=
  [ "constructor"; "__defineGetter__"; "__defineSetter__"; "hasOwnProperty";
    "__lookupGetter__"; "__lookupSetter__"; "isPrototypeOf";
    "propertyIsEnumerable"; "toString"; "valueOf"; "__proto__";
    "toLocaleString" ]%string.

End JS.

(** ** Data model *)

(** A junction record of the junctions dataset.  [id], [currentTrafficCount]
    and [capacity] are required properties; the four control parameters are
    optional ([laneWidth?: number], ...), so reading them may give
    [undefined].  The properties the simulation never reads (name, position,
    traffic level, traffic reasons) are left out. *)
Module Junction.
Record t := mk {
  id : string;
  currentTrafficCount : float;
  capacity : float;
  laneWidth : option float;
  speedLimit : option float;
  signalTiming : option float;
  lanes : option float
}.
End Junction.

(** The [changes] argument: the proposed control parameters. *)
Module Changes.
Record t := mk {
  laneWidth : float;
  speedLimit : float;
  signalTiming : float;
  additionalLanes : float
}.
End Changes.

(** One point of a traffic-flow series.  [time] is the instant (milliseconds
    since the epoch) that the ISO-8601 string of the source denotes. *)
Module FlowPoint.
Record t := mk {
  time : Z;
  traffic : float;
  before : float
}.
End FlowPoint.

(** A metrics snapshot, the shape of [before] and of [after]. *)
Module Snapshot.
Record t := mk {
  laneWidth : option float;
  speedLimit : option float;
  signalTiming : option float;
  lanes : option float;
  averageTraffic : float;
  averageDelay : float;
  throughput : float;
  trafficFlowData : list FlowPoint.t
}.
End Snapshot.

(** A simulation result: the object [{ before, after }]. *)
Module SimulationResult.
Record t := mk {
  before : Snapshot.t;
  after : Snapshot.t
}.
End SimulationResult.

(** What [simulateTrafficChanges], declared to return [any], resolves to: a
    simulation result, or the member of [Object.prototype] that the read of
    the results dataset found under the identifier. *)
Inductive Returned : Type :=
| Result (r : SimulationResult.t)
| Inherited (member : string).

(** ** Effects: the clock and exceptions *)

(** The readings that successive [new Date()] calls will return, as time
    values in milliseconds since the epoch. *)
Definition World : Type := nat -> Z.

Inductive exn : Type :=
| Error (message : string)
| RangeError (message : string).

(** A computation reads the clock and either throws or returns. *)
Definition M (A : Type) : Type := World -> (exn + A) * World.

#[export] Instance M_ret : MRet M := fun A (x : A) w => (inr x, w).

#[export] Instance M_bind : MBind M := fun A B (f : A -> M B) (c : M A) w =>
  match c w with
  | (inr x, w') => f x w'
  | (inl e, w') => (inl e, w')
  end.

Definition throw {A : Type} (e : exn) : M A := fun w => (inl e, w).

(** [new Date().getTime()]: the next reading of the clock. *)
Definition newDate : M Z := fun w => (inr (w 0%nat), fun k => w (S k)).

(** The largest magnitude of the time value of a valid [Date]. *)
Definition maxTimeValue : Z := 8640000000000000.

(** [new Date(tv).toISOString()]: a [Date] built from a time value out of
    range is invalid, and [toISOString] throws a [RangeError] on it. *)
Definition Date_toISOString (tv : Z) : M Z :=
  if Z.abs tv <=? maxTimeValue then mret tv
  else throw (RangeError "Invalid time value").

(** [for (let i = start; ...; i++) data.push(body i)], run [n] times. *)
Fixpoint for_push {A : Type} (body : Z -> M A) (i : Z) (n : nat)
  (data : list A) : M (list A) :=
  match n with
  | O => mret data
  | S n' => x ← body i; for_push body (i + 1) n' (data ++ [x])
  end.

(** ** The module *)

Section Api.

(** [Math.sin] is implementation-approximated: any function on numbers. *)
Variable Math_sin : float -> float.

(** [data/junctions.json], an array of junctions, and
    [data/simulation-results.json], an object used as a map from junction
    identifiers to result objects; the map holds the entries of the
    document. *)
Variable junctionsData : list Junction.t.
Variable simulationResultsData : gmap string SimulationResult.t.

Local Open Scope float_scope.

(** [simulationResultsData[junctionId]], when it is truthy.  The read looks
    among the entries of the document first, and an entry, being an object, is
    truthy; an identifier without an entry is looked up in [Object.prototype],
    whose members are truthy too; any other identifier reads [undefined]. *)
Definition lookupResult (junctionId : string) : option Returned :=
  match simulationResultsData !! junctionId with
  | Some stored => Some (Result stored)
  | None =>
      if bool_decide (junctionId ∈ JS.Object_prototype_names)
      then Some (Inherited junctionId)
      else None
  end.

Definition fetchJunctionById (id : string) : M Junction.t :=
  match List.find (fun j => String.eqb (Junction.id j) id) junctionsData with
  | Some junction => mret junction
  | None =>
      throw (Error (String.append "Junction with ID "
                      (String.append id " not found")))
  end.

Definition calculateMockDelay (junction : Junction.t) : float :=
  let trafficRatio :=
    Junction.currentTrafficCount junction / Junction.capacity junction in
  JS.Math_round ((20 + trafficRatio * 60) * 10) / 10.

Definition calculateMockThroughput (junction : Junction.t) : float :=
  JS.Math_round (Junction.capacity junction * 0.8).

Definition junctionIndex (junction : Junction.t) : float :=
  JS.or_else
    (JS.parseInt (JS.String_replace "j" EmptyString (Junction.id junction))) 1.

Definition hourFactor (i : Z) : float :=
  Math_sin (((JS.int_to_float i - 6) * JS.Math_PI) / 12).

Definition baseFactor (junction : Junction.t) : float :=
  junctionIndex junction * 100 + 300.

(** The body of the loop of [generateMockTrafficFlowData] at index [i]. *)
Definition flowPoint (type : string) (junction : Junction.t)
    (impact : float) (now : Z) (i : Z) : M FlowPoint.t :=
  let time := (now - (23 - i) * 60 * 60 * 1000)%Z in
  let traffic :=
    JS.Math_max 100
      (JS.Math_round (baseFactor junction + hourFactor i * 300)) in
  let traffic :=
    if String.eqb type "after" && JS.truthy impact
    then JS.Math_max 100
           (JS.Math_round (traffic - impact * 0.5 * (1 + hourFactor i)))
    else traffic in
  let before := JS.Math_round (baseFactor junction * 0.8) in
  iso ← Date_toISOString time;
  mret (FlowPoint.mk iso traffic before).

Definition generateMockTrafficFlowData (type : string)
    (junction : Junction.t) (impact : float) : M (list FlowPoint.t) :=
  now ← newDate;
  for_push (flowPoint type junction impact now) 0%Z 24 [].

Definition laneWidthImpact (junction : Junction.t) (changes : Changes.t) :=
  (Changes.laneWidth changes - JS.ToNumber (Junction.laneWidth junction)) * 20.

Definition speedLimitImpact (junction : Junction.t) (changes : Changes.t) :=
  (Changes.speedLimit changes - JS.ToNumber (Junction.speedLimit junction)) * 2.

Definition signalTimingImpact (junction : Junction.t) (changes : Changes.t) :=
  (JS.ToNumber (Junction.signalTiming junction) - Changes.signalTiming changes)
  * 1.5.

Definition lanesImpact (changes : Changes.t) :=
  Changes.additionalLanes changes * 100.

Definition totalImpact (junction : Junction.t) (changes : Changes.t) :=
  laneWidthImpact junction changes + speedLimitImpact junction changes
  + signalTimingImpact junction changes + lanesImpact changes.

(** The object literal bound to [before]. *)
Definition before (junction : Junction.t) : M Snapshot.t :=
  let averageDelay := calculateMockDelay junction in
  let throughput := calculateMockThroughput junction in
  trafficFlowData ← generateMockTrafficFlowData "before" junction 0;
  mret (Snapshot.mk
          (Junction.laneWidth junction)
          (Junction.speedLimit junction)
          (Junction.signalTiming junction)
          (Junction.lanes junction)
          (Junction.currentTrafficCount junction)
          averageDelay throughput trafficFlowData).

(** The object literal bound to [after]. *)
Definition after (junction : Junction.t) (changes : Changes.t) : M Snapshot.t :=
  let totalImpact := totalImpact junction changes in
  let lanes :=
    JS.ToNumber (Junction.lanes junction) + Changes.additionalLanes changes in
  let averageTraffic :=
    JS.Math_max 100
      (JS.Math_round
         (Junction.currentTrafficCount junction * 0.9 - totalImpact * 0.5)) in
  let averageDelay :=
    JS.Math_max 5 (calculateMockDelay junction - totalImpact * 0.1) in
  let throughput :=
    JS.Math_max 200 (calculateMockThroughput junction + totalImpact) in
  trafficFlowData ← generateMockTrafficFlowData "after" junction totalImpact;
  mret (Snapshot.mk
          (Some (Changes.laneWidth changes))
          (Some (Changes.speedLimit changes))
          (Some (Changes.signalTiming changes))
          (Some lanes)
          averageTraffic averageDelay throughput trafficFlowData).

Definition simulateTrafficChanges (junctionId : string) (changes : Changes.t)
    : M Returned :=
  match lookupResult junctionId with
  | Some stored => mret stored
  | None =>
      junction ← fetchJunctionById junctionId;
      b ← before junction;
      a ← after junction changes;
      mret (Result (SimulationResult.mk b a))
  end.

End Api.

(** A polynomial [Math.sin] for arguments between -π/2 and 3π/2, used to run
    the module on concrete inputs; at the arguments of the loop it is within
    1/64 of the sine. *)
Definition sin_poly (x : float) : float :=
  let y := if (0x1.921fb54442d18p+0 <? x)%float
         then (JS.Math_PI - x)%float else x in
  let y2 := (y * y)%float in
  (y * (1 - y2 / 6 * (1 - y2 / 20 * (1 - y2 / 42 * (1 - y2 / 72 *
     (1 - y2 / 110 * (1 - y2 / 156 * (1 - y2 / 210 * (1 - y2 / 272)))))))))%float.

(** The concrete scenario of the specification. *)
Definition scenarioJunction : Junction.t :=
  Junction.mk "j1" 400 500 (Some 3%float) (Some 30%float) (Some 60%float)
  (Some 2%float).

Definition scenarioChanges : Changes.t := Changes.mk 3.5 30 45 1.

(** Further concrete inputs: a clock that always reads the same instant, a
    junction whose identifier has the suffix zero, one whose identifier does
    not start with j, one whose capacity is zero, and a stored result. *)
Definition clockAt (now : Z) : World := fun _ => now.

Definition junction_j0 : Junction.t :=
  Junction.mk "j0" 400 500 (Some 3%float) (Some 30%float) (Some 60%float)
    (Some 2%float).

Definition junction_other_prefix : Junction.t :=
  Junction.mk "junction-12" 400 500 (Some 3%float) (Some 30%float)
    (Some 60%float) (Some 2%float).

Definition junction_no_capacity : Junction.t :=
  Junction.mk "j7" 400 0 (Some 3%float) (Some 30%float) (Some 60%float)
    (Some 2%float).

Definition junction_neg_zero_capacity : Junction.t :=
  Junction.mk "j8" 400 neg_zero (Some 3%float) (Some 30%float) (Some 60%float)
    (Some 2%float).

(** Finite fields that make the impact overflow in both directions. *)
Definition junction_extreme : Junction.t :=
  Junction.mk "j1" 400 500 (Some 3%float) (Some 1e308%float) (Some 60%float)
    (Some 2%float).

Definition changes_extreme : Changes.t := Changes.mk 1e308 30 45 1.

(** A junction whose traffic count and capacity are both Infinity. *)
Definition junction_unbounded : Junction.t :=
  Junction.mk "j1" infinity infinity (Some 3%float) (Some 30%float)
    (Some 60%float) (Some 2%float).

Definition emptySnapshot : Snapshot.t :=
  Snapshot.mk (Some 3%float) (Some 30%float) (Some 60%float) (Some 2%float)
    400 68 400 [].

Definition storedResult : SimulationResult.t :=
  SimulationResult.mk emptySnapshot emptySnapshot.


(** ** The entries of a flow series, in closed form

    What the loop body of [generateMockTrafficFlowData] stores at index [i],
    with the two truthiness tests of the source, [... || 1] and [&& impact],
    written as comparisons: the index is 1 when [parseInt] gives [NaN] or
    zero, and an impact that is zero or [NaN] adjusts nothing. *)
Module Computed.
Section Entries.

Variable Math_sin : float -> float.

Local Open Scope float_scope.

(** [Number.parseInt(junction.id.replace("j", empty))], with the empty
    string. *)
Definition parsedIndex (id : string) : float :=
  JS.parseInt (JS.String_replace "j" EmptyString id).

Definition junctionIndex (id : string) : float :=
  if is_nan (parsedIndex id) || (parsedIndex id =? 0) then 1
  else parsedIndex id.

Definition baseFactor (id : string) : float := junctionIndex id * 100 + 300.

Definition trafficValue (variant id : string) (impact : float) (i : Z)
    : float :=
  let v :=
    JS.Math_max 100
      (JS.Math_round (baseFactor id + hourFactor Math_sin i * 300)) in
  if String.eqb variant "after" && negb (impact =? 0) && negb (is_nan impact)
  then JS.Math_max 100
         (JS.Math_round (v - impact * 0.5 * (1 + hourFactor Math_sin i)))
  else v.

Definition baselineValue (id : string) : float :=
  JS.Math_round (baseFactor id * 0.8).

End Entries.
End Computed.

(** ** The formulas of the specification, in its own words

    [max] and [round] are the number operations [Math.max] and [Math.round];
    arithmetic is that of numbers. *)
Module Spec.
Section Formulas.

Variable Math_sin : float -> float.

Local Open Scope float_scope.

(** Rounding to one decimal place. *)
Definition round1 (x : float) : float := JS.Math_round (x * 10) / 10.

Definition beforeDelay (j : Junction.t) : float :=
  round1 (20 + (Junction.currentTrafficCount j / Junction.capacity j) * 60).

Definition beforeThroughput (j : Junction.t) : float :=
  JS.Math_round (Junction.capacity j * 0.8).

Definition totalImpact (j : Junction.t) (c : Changes.t) : float :=
  (Changes.laneWidth c - JS.ToNumber (Junction.laneWidth j)) * 20
  + (Changes.speedLimit c - JS.ToNumber (Junction.speedLimit j)) * 2
  + (JS.ToNumber (Junction.signalTiming j) - Changes.signalTiming c) * 1.5
  + Changes.additionalLanes c * 100.

Definition averageTraffic (j : Junction.t) (c : Changes.t) : float :=
  JS.Math_max 100
    (JS.Math_round (Junction.currentTrafficCount j * 0.9 - totalImpact j c * 0.5)).

Definition averageDelay (j : Junction.t) (c : Changes.t) : float :=
  JS.Math_max 5 (beforeDelay j - totalImpact j c * 0.1).

Definition throughput (j : Junction.t) (c : Changes.t) : float :=
  JS.Math_max 200 (beforeThroughput j + totalImpact j c).

(** The numeric suffix of an identifier: the number written by the decimal
    digits that the identifier ends with, if it ends with any.  The text is
    read from the left, and a character that is not a digit forgets what was
    read. *)
Fixpoint suffixDigits (s : string) (acc : option Z) : option Z :=
  match s with
  | String c s' =>
      match JS.digitValue 10 c with
      | Some d =>
          suffixDigits s'
            (Some (match acc with Some a => (a * 10 + d)%Z | None => d end))
      | None => suffixDigits s' None
      end
  | EmptyString => acc
  end.

Definition numericSuffix (id : string) : option Z := suffixDigits id None.

(** The suffix as a number, defaulting to 1 if absent or non-numeric. *)
Definition junctionIndex (id : string) : float :=
  match numericSuffix id with
  | Some n => JS.Z_to_number n
  | None => 1
  end.

Definition hourFactor (i : Z) : float :=
  Math_sin ((JS.int_to_float i - 6) * JS.Math_PI / 12).

Definition baseFactor (id : string) : float := junctionIndex id * 100 + 300.

Definition trafficValue (variant id : string) (impact : float) (i : Z) : float :=
  let v := JS.Math_max 100 (JS.Math_round (baseFactor id + hourFactor i * 300)) in
  if String.eqb variant "after" && negb (impact =? 0)
  then JS.Math_max 100 (JS.Math_round (v - impact * 0.5 * (1 + hourFactor i)))
  else v.

Definition baselineValue (id : string) : float :=
  JS.Math_round (baseFactor id * 0.8).

End Formulas.
End Spec.

(** The daily factor over the real numbers: [Math.sin] and [Math.PI] read as
    the sine function and π.  The factor of the program is related to it
    through [realValue], for a [Math.sin] that is an [accurate_sine]. *)
Definition hourFactor_real (i : Z) : R := sin (((IZR i - 6) * PI) / 12).

(** ** Values of binary64 numbers

    A finite number is [±m·2^e]; its value is read in the real numbers to
    compare what the rounded operations return. *)
Definition bpow (e : Z) : R := powerRZ 2 e.

Definition F2R (m e : Z) : R := (IZR m * bpow e)%R.

(** A number at or above the positive finite number [mc·2^ec]: a large enough
    positive finite number, or +Infinity. *)
Definition above (mc : positive) (ec : Z) (x : spec_float) : Prop :=
  match x with
  | S754_infinity false => True
  | S754_finite false m e => (F2R (Zpos mc) ec <= F2R (Zpos m) e)%R
  | _ => False
  end.

(** A number that is a zero, positive and finite, or +Infinity. *)
Definition nonneg (x : spec_float) : Prop :=
  match x with
  | S754_zero _ => True
  | S754_infinity s | S754_finite s _ _ => s = false
  | S754_nan => False
  end.


(** A number at or below the positive finite number [mc·2^ec] and not
    negative: +0 or a small enough positive finite number. *)
Definition below (mc : positive) (ec : Z) (x : spec_float) : Prop :=
  match x with
  | S754_zero s => s = false
  | S754_finite false m e => (F2R (Zpos m) e <= F2R (Zpos mc) ec)%R
  | _ => False
  end.

(** ** The daily factor and the sine

    [Math.sin] is compared with the sine function through the values of its
    argument and of its result. *)

(** The argument that the loop passes to [Math.sin] at index [i]. *)
Definition hourAngle (i : Z) : float :=
  (((JS.int_to_float i - 6) * JS.Math_PI) / 12)%float.

(** A finite number is [mantissa × 2^exponent]; its value is read in the
    real numbers.  The other numbers are given the value 0. *)
Definition mantissa (x : float) : Z :=
  match Prim2SF x with
  | S754_finite s m _ => cond_Zopp s (Zpos m)
  | _ => 0
  end.

Definition exponent (x : float) : Z :=
  match Prim2SF x with
  | S754_finite _ _ e => e
  | _ => 0
  end.

Definition realValue (x : float) : R := F2R (mantissa x) (exponent x).

(** [Math.sin] is within 1/64 of the sine at the 24 arguments of the loop. *)
Definition accurate_sine (Math_sin : float -> float) : Prop :=
  forall i, 0 <= i < 24 ->
    is_finite (Math_sin (hourAngle i)) = true
    /\ (Rabs (realValue (Math_sin (hourAngle i))
              - sin (realValue (hourAngle i)))
        <= 1 / 64)%R.

(** The cosine of k × π/12 for k = 0..12, in ten-thousandths and rounded
    towards zero. *)
Definition cosTable (k : Z) : Z :=
  match k with
  | 0 => 10000 | 1 => 9659 | 2 => 8660 | 3 => 7071 | 4 => 5000 | 5 => 2588
  | 6 => 0
  | 7 => -2588 | 8 => -5000 | 9 => -7071 | 10 => -8660 | 11 => -9659
  | _ => -10000
  end.

(** The daily factor sin((i − 6) × π/12) = −cos(i × π/12), for i = 0..23, in
    ten-thousandths and rounded towards zero. *)
Definition hourFactorTable (i : Z) : Z :=
  - cosTable (if i <=? 12 then i else 24 - i).

(** Turns the constants [F2R m (-p)] and [bpow (-p)] of a goal into
    fractions of numerals, with the two lemmas that say what they are. *)
Ltac float_consts F2R_frac bpow_frac :=
  rewrite ?F2R_frac, ?bpow_frac;
  repeat match goal with
         | |- context [2 ^ Zpos ?p] =>
             let v := eval vm_compute in (2 ^ Zpos p) in
             change (2 ^ Zpos p) with v
         end.

(** ** Further primitives

    [Math.floor], the decimal text of a non-negative integer (what a template
    literal prints for it), and [Math.random] read from an explicit source of
    numbers. *)
Module JSMore.

(** [Math.floor]: the largest integral number not above [x]; [NaN], zeros
    and infinities are returned unchanged.  A finite [x] is [±m·2^e]; when
    [e < 0] the floor is computed exactly on integers. *)
Definition Math_floor (x : float) : float :=
  match Prim2SF x with
  | S754_finite s m e =>
      if 0 <=? e then x
      else
        let r := cond_Zopp s (Zpos m) / 2 ^ (- e) in
        if r =? 0 then zero else JS.int_to_float r
  | _ => x
  end.

Definition digitChar (d : Z) : ascii := ascii_of_N (Z.to_N (48 + d)).

(** The decimal digits of [n] in front of [acc], most significant first. *)
Fixpoint digitsOf (fuel : nat) (n : Z) (acc : string) : string :=
  match fuel with
  | O => acc
  | S fuel' =>
      let acc' := String (digitChar (n mod 10)) acc in
      if n <? 10 then acc' else digitsOf fuel' (n / 10) acc'
  end.

(** [String(n)] for an integer [0 <= n] (below 10^21, where JavaScript still
    prints every digit). *)
Definition Number_toString (n : Z) : string :=
  digitsOf (S (Z.to_nat (Z.log2 n))) n EmptyString.

(** A computation that draws numbers from [Math.random]. *)
Definition Rnd (A : Type) : Type := (nat -> float) -> A * (nat -> float).

Definition Math_random : Rnd float := fun r => (r 0%nat, fun k => r (S k)).

(** The remainder [n % d]: [n - d * q] for the integer [q] that is [n / d]
    truncated towards zero, computed exactly on the mantissas written with
    the smaller exponent; it takes the sign of [n], also when it is zero. *)
Definition Number_rem (n d : float) : float :=
  match Prim2SF n, Prim2SF d with
  | S754_nan, _ | _, S754_nan => nan
  | S754_infinity _, _ => nan
  | _, S754_zero _ => nan
  | _, S754_infinity _ => n
  | S754_zero _, _ => n
  | S754_finite sn mn en, S754_finite _ md ed =>
      let e := Z.min en ed in
      let r := Z.rem (cond_Zopp sn (Zpos (fst (shl_align mn en e))))
                 (Zpos (fst (shl_align md ed e))) in
      SF2Prim (binary_normalize prec emax r e sn)
  end.

Definition isDigit (c : ascii) : bool :=
  let n := N_of_ascii c in ((48 <=? n) && (n <=? 57))%N.

(** [s.replace(/\D/g, empty)], with the empty string: every character that is not a decimal digit is
    removed. *)
Fixpoint stripNonDigits (s : string) : string :=
  match s with
  | EmptyString => EmptyString
  | String c s' =>
      if isDigit c then String c (stripNonDigits s') else stripNonDigits s'
  end.

End JSMore.

#[export] Instance Rnd_ret : MRet JSMore.Rnd := fun A (x : A) r => (x, r).

#[export] Instance Rnd_bind : MBind JSMore.Rnd :=
  fun A B (f : A -> JSMore.Rnd B) (c : JSMore.Rnd A) r =>
    let '(x, r') := c r in f x r'.

(** ** The mock junctions (data/mock-junctions)

    A generated junction with all the properties the generator writes. *)
Module MockJunction.
Record t := mk {
  id : string;
  name : string;
  latitude : float;
  longitude : float;
  trafficLevel : string;
  capacity : float;
  currentTrafficCount : float;
  lanes : float;
  signalTiming : float;
  speedLimit : float;
  laneWidth : float;
  type : string
}.
End MockJunction.

Definition trafficLevels : list string := ["low"; "medium"; "high"]%string.

(** The body of the loop of [generateMockJunctions] at index [i]. *)
Definition mockJunction (lat lng : float) (i : Z) : JSMore.Rnd MockJunction.t :=
  r1 ← JSMore.Math_random;
  let latOffset := ((r1 - 0.5) * 0.01)%float in
  r2 ← JSMore.Math_random;
  let lngOffset := ((r2 - 0.5) * 0.01)%float in
  let trafficLevel :=
    nth (Z.to_nat (i mod Z.of_nat (length trafficLevels))) trafficLevels
      EmptyString in
  r3 ← JSMore.Math_random;
  let capacity := (500 + JSMore.Math_floor (r3 * 500))%float in
  r4 ← JSMore.Math_random;
  let currentTrafficCount :=
    if String.eqb trafficLevel "high"
    then JSMore.Math_floor (capacity * (0.8 + r4 * 0.2))%float
    else if String.eqb trafficLevel "medium"
    then JSMore.Math_floor (capacity * (0.5 + r4 * 0.3))%float
    else JSMore.Math_floor (capacity * (0.1 + r4 * 0.4))%float in
  r5 ← JSMore.Math_random;
  r6 ← JSMore.Math_random;
  r7 ← JSMore.Math_random;
  r8 ← JSMore.Math_random;
  r9 ← JSMore.Math_random;
  mret (MockJunction.mk
          (String.append "j" (JSMore.Number_toString (i + 1)))
          (String.append "Junction " (JSMore.Number_toString (i + 1)))
          (lat + latOffset)%float (lng + lngOffset)%float
          trafficLevel capacity currentTrafficCount
          (2 + JSMore.Math_floor (r5 * 4))%float
          (30 + JSMore.Math_floor (r6 * 60))%float
          (30 + JSMore.Math_floor (r7 * 30))%float
          (3 + JSMore.Math_floor (r8 * 2))%float
          (if (0.5 <? r9)%float then "roundabout" else "signalized")%string).

(** [for (let i = start; ...; i++) junctions.push(body i)], run [n] times. *)
Fixpoint rnd_for_push {A : Type} (body : Z -> JSMore.Rnd A) (i : Z) (n : nat)
    (data : list A) : JSMore.Rnd (list A) :=
  match n with
  | O => mret data
  | S n' => x ← body i; rnd_for_push body (i + 1) n' (data ++ [x])
  end.

(** [generateMockJunctions(lat, lng, count)] for an integral [count] below
    2^32, the largest length of an array; up to there the loop index is
    exact. *)
Definition generateMockJunctions (lat lng : float) (count : Z)
    : JSMore.Rnd (list MockJunction.t) :=
  rnd_for_push (mockJunction lat lng) 0 (Z.to_nat count) [].

(** [fetchJunctionsNearLocation]: the generator with its default count; it
    throws nothing, so the [catch] that would return the empty array is never
    entered. *)
Definition fetchJunctionsNearLocation (lat lng : float)
    : JSMore.Rnd (list MockJunction.t) :=
  generateMockJunctions lat lng 5.

(** ** The comparison shown with a result (components/simulation-result) *)
Module Change.
Record t := mk {
  value : float;
  percent : float;
  improved : bool
}.
End Change.

Definition calculateChange (beforeValue afterValue : float) : Change.t :=
  let diff := (afterValue - beforeValue)%float in
  let percentChange := (diff / beforeValue * 100)%float in
  Change.mk diff percentChange (diff <? 0)%float.

(** [throughputChange] once its [improved] flag has been inverted. *)
Definition throughputChange (b a : Snapshot.t) : Change.t :=
  let c := calculateChange (Snapshot.throughput b) (Snapshot.throughput a) in
  Change.mk (Change.value c) (Change.percent c) (negb (Change.improved c)).

(** ** The mock of the safety predictions (lib/ml-api) *)

Module MLJunction.
Record t := mk {
  id : string;
  name : string;
  latitude : float;
  longitude : float;
  complexity : option float
}.
End MLJunction.

(** A prediction; [contributing_factors] lists the properties of the object
    in the order in which they are written. *)
Module SafetyPrediction.
Record t := mk {
  junction_id : string;
  risk_level : float;
  risk_probability : list float;
  contributing_factors : list (string * float)
}.
End SafetyPrediction.

(** [timestamp] is the instant that the ISO-8601 string denotes. *)
Module PredictionResponse.
Record t := mk {
  predictions : list SafetyPrediction.t;
  model_version : string;
  timestamp : Z
}.
End PredictionResponse.

(** The callback of [junctions.map] in [getMockPredictions], from the point
    where [seed] is known. *)
Definition predictionOfSeed (junction : MLJunction.t) (seed : float)
    : SafetyPrediction.t :=
  let risk_level :=
    if (70 <? seed)%float then 2%float
    else if (40 <? seed)%float then 1%float else 0%float in
  let low_prob :=
    if (risk_level =? 0)%float
    then (0.7 + JSMore.Number_rem seed 30 / 100)%float
    else (0.3 - JSMore.Number_rem seed 20 / 100)%float in
  let med_prob :=
    if (risk_level =? 1)%float
    then (0.6 + JSMore.Number_rem seed 30 / 100)%float
    else (0.25 - JSMore.Number_rem seed 15 / 100)%float in
  let high_prob :=
    if (risk_level =? 2)%float
    then (0.5 + JSMore.Number_rem seed 40 / 100)%float
    else (0.2 - JSMore.Number_rem seed 15 / 100)%float in
  let total := (low_prob + med_prob + high_prob)%float in
  SafetyPrediction.mk (MLJunction.id junction) risk_level
    [(low_prob / total)%float; (med_prob / total)%float;
     (high_prob / total)%float]
    [("traffic_volume", 0.1 + JSMore.Number_rem seed 60 / 100);
     ("weather_conditions", 0.05 + JSMore.Number_rem seed 40 / 100);
     ("road_design", 0.15 + JSMore.Number_rem seed 50 / 100);
     ("visibility", 0.1 + JSMore.Number_rem seed 30 / 100);
     ("signal_timing", 0.05 + JSMore.Number_rem seed 45 / 100);
     ("pedestrian_activity", 0.05 + JSMore.Number_rem seed 35 / 100);
     ("time_of_day", 0.1 + JSMore.Number_rem seed 25 / 100)]%float.

(** The callback of [junctions.map]: the seed is read from the digits of
    the identifier. *)
Definition mockPrediction (junction : MLJunction.t) : SafetyPrediction.t :=
  let junctionNumber :=
    JS.or_else (JS.parseInt (JSMore.stripNonDigits (MLJunction.id junction)))
      1 in
  let seed := JSMore.Number_rem (junctionNumber * 13) 100 in
  predictionOfSeed junction seed.

(** The integer that the decimal digits of an identifier write, taken in
    order: the value of [junctionNumber] (1 when there is no digit or when the
    digits write 0). *)
Definition idNumber (id : string) : Z :=
  match JS.leadingDigits 10 (JSMore.stripNonDigits id) None with
  | Some n => if n =? 0 then 1 else n
  | None => 1
  end.

Definition getMockPredictions (junctions : list MLJunction.t)
    : M PredictionResponse.t :=
  let predictions := mockPrediction <$> junctions in
  now ← newDate;
  timestamp ← Date_toISOString now;
  mret (PredictionResponse.mk predictions "v1.0.3 (mock)" timestamp).

(** ** Properties of the effects *)

(** A clock reading from which the whole series has valid dates. *)
Definition validNow (now : Z) : Prop :=
  - maxTimeValue + 23 * 3600000 <= now <= maxTimeValue.

(** A computation that never reads the clock. *)
Definition reads_nothing {A : Type} (c : M A) : Prop :=
  exists r, forall w, c w = (r, w).

Lemma reads_nothing_ret {A : Type} (x : A) : reads_nothing (mret x).
Proof. by exists (inr x). Qed.

Lemma reads_nothing_throw {A : Type} (e : exn) : reads_nothing (@throw A e).
Proof. by exists (inl e). Qed.

Lemma reads_nothing_bind {A B : Type} (c : M A) (f : A -> M B) :
  reads_nothing c -> (forall x, reads_nothing (f x)) ->
  reads_nothing (c ≫= f).
Proof.
  intros [r Hr] Hf. destruct r as [e|x].
  - exists (inl e). intros w. unfold mbind, M_bind. by rewrite Hr.
  - destruct (Hf x) as [r' Hr']. exists r'. intros w.
    unfold mbind, M_bind. by rewrite Hr, Hr'.
Qed.

Lemma reads_nothing_toISOString (tv : Z) : reads_nothing (Date_toISOString tv).
Proof.
  unfold Date_toISOString. destruct (Z.abs tv <=? maxTimeValue).
  - apply reads_nothing_ret.
  - apply reads_nothing_throw.
Qed.

Lemma reads_nothing_for_push {A : Type} (body : Z -> M A) :
  (forall i, reads_nothing (body i)) ->
  forall n i data, reads_nothing (for_push body i n data).
Proof.
  intros Hb n. induction n as [|n IH]; intros i data; simpl.
  - apply reads_nothing_ret.
  - apply reads_nothing_bind; [apply Hb | intros x; apply IH].
Qed.

Lemma reads_nothing_flowPoint Math_sin type junction impact now i :
  reads_nothing (flowPoint Math_sin type junction impact now i).
Proof.
  unfold flowPoint. apply reads_nothing_bind.
  - apply reads_nothing_toISOString.
  - intros x. apply reads_nothing_ret.
Qed.

(** The series is a function of the first clock reading alone. *)
Lemma generate_reads_once Math_sin type junction impact :
  exists series : Z -> exn + list FlowPoint.t, forall w,
    generateMockTrafficFlowData Math_sin type junction impact w
    = (series (w 0%nat), fun k => w (S k)).
Proof.
  assert (H : forall now, reads_nothing
            (for_push (flowPoint Math_sin type junction impact now) 0 24 [])).
  { intros now. apply reads_nothing_for_push. intros i.
    apply reads_nothing_flowPoint. }
  unfold reads_nothing in H.
  exists (fun now =>
    fst (for_push (flowPoint Math_sin type junction impact now) 0 24 []
           (fun _ => 0))).
  intros w. unfold generateMockTrafficFlowData, mbind, M_bind, newDate.
  destruct (H (w 0%nat)) as [r Hr]. by rewrite !Hr.
Qed.

(** When every iteration returns without reading the clock, the loop pushes
    the results in index order. *)
Lemma for_push_returns {A : Type} (body : Z -> M A) (f : Z -> A) (w : World) :
  forall (n : nat) (i : Z) (data : list A),
    (forall k, i <= k < i + Z.of_nat n -> body k w = (inr (f k), w)) ->
    for_push body i n data w = (inr (data ++ map f (seqZ i (Z.of_nat n))), w).
Proof.
  induction n as [|n IH]; intros i data Hb.
  - simpl. unfold mret, M_ret. by rewrite app_nil_r.
  - simpl for_push. unfold mbind, M_bind.
    rewrite Hb by lia. fold (@mbind M _).
    rewrite IH by (intros k Hk; apply Hb; lia).
    replace (Z.of_nat (S n)) with (Z.succ (Z.of_nat n)) by lia.
    rewrite (seqZ_cons i) by lia. simpl.
    rewrite <- app_assoc. simpl.
    by replace (Z.succ i) with (i + 1) by lia;
       replace (Z.pred (Z.succ (Z.of_nat n))) with (Z.of_nat n) by lia.
Qed.

Lemma toISOString_valid (tv : Z) (w : World) :
  - maxTimeValue <= tv <= maxTimeValue ->
  Date_toISOString tv w = (inr tv, w).
Proof.
  intros H. unfold Date_toISOString.
  destruct (Z.leb_spec (Z.abs tv) maxTimeValue) as [_|Hgt]; [done | lia].
Qed.

(** [x || 1] and the guard [&& impact], spelt out. *)
Lemma or_else_1 (n : float) :
  JS.or_else n 1 = if is_nan n || (n =? 0)%float then 1%float else n.
Proof.
  unfold JS.or_else, JS.truthy, is_zero, zero.
  by destruct (is_nan n), (n =? 0)%float.
Qed.

Lemma truthy_guard (x : float) :
  JS.truthy x = negb (x =? 0)%float && negb (is_nan x).
Proof.
  unfold JS.truthy, is_zero, zero.
  by destruct (is_nan x), (x =? 0)%float.
Qed.

Lemma baseFactor_defaults_to_1 (junction : Junction.t) :
  baseFactor junction = Computed.baseFactor (Junction.id junction).
Proof.
  unfold baseFactor, junctionIndex, Computed.baseFactor, Computed.junctionIndex,
    Computed.parsedIndex.
  by rewrite or_else_1.
Qed.

(** The point that the loop body builds at index [i]. *)
Lemma flowPoint_returns Math_sin type junction impact now i w :
  validNow now -> 0 <= i < 24 ->
  flowPoint Math_sin type junction impact now i w
  = (inr (FlowPoint.mk (now - (23 - i) * 3600000)
            (Computed.trafficValue Math_sin type (Junction.id junction) impact i)
            (Computed.baselineValue (Junction.id junction))), w).
Proof.
  intros Hnow Hi. unfold flowPoint, mbind, M_bind.
  unfold validNow, maxTimeValue in Hnow.
  rewrite toISOString_valid by (unfold maxTimeValue; lia).
  unfold mret, M_ret. f_equal. f_equal.
  unfold Computed.trafficValue, Computed.baselineValue, hourFactor.
  rewrite baseFactor_defaults_to_1, truthy_guard, andb_assoc.
  f_equal. lia.
Qed.

(** Under a valid clock reading the generator returns the 24 points, oldest
    first, and has read the clock once. *)
Lemma generate_returns Math_sin type junction impact (w : World) :
  validNow (w 0%nat) ->
  generateMockTrafficFlowData Math_sin type junction impact w
  = (inr (map (fun i =>
             FlowPoint.mk (w 0%nat - (23 - i) * 3600000)
               (Computed.trafficValue Math_sin type (Junction.id junction)
                  impact i)
               (Computed.baselineValue (Junction.id junction)))
            (seqZ 0 24)),
     fun k => w (S k)).
Proof.
  intros Hnow. unfold generateMockTrafficFlowData, mbind, M_bind, newDate.
  set (f := fun i : Z => FlowPoint.mk _ _ _).
  rewrite (for_push_returns _ f _ 24 0 []); [done|].
  intros k Hk. apply flowPoint_returns; [done | lia].
Qed.

Lemma series_lookup {A : Type} (f : Z -> A) (i : nat) (p : A) :
  map f (seqZ 0 24) !! i = Some p <-> (i < 24)%nat /\ p = f (Z.of_nat i).
Proof.
  change (map f (seqZ 0 24)) with (f <$> seqZ 0 24).
  rewrite list_lookup_fmap, fmap_Some. split.
  - intros (k & Hk & ->). apply lookup_seqZ in Hk as [-> ?].
    split; [lia | by rewrite Z.add_0_l].
  - intros [Hi ->]. exists (Z.of_nat i). split; [|done].
    apply lookup_seqZ. lia.
Qed.

(** The snapshots, once the series has been generated. *)
Lemma before_returns Math_sin junction (w : World) :
  validNow (w 0%nat) ->
  exists data,
    generateMockTrafficFlowData Math_sin "before" junction 0 w
    = (inr data, fun k => w (S k))
    /\ before Math_sin junction w
       = (inr (Snapshot.mk
                 (Junction.laneWidth junction) (Junction.speedLimit junction)
                 (Junction.signalTiming junction) (Junction.lanes junction)
                 (Junction.currentTrafficCount junction)
                 (calculateMockDelay junction)
                 (calculateMockThroughput junction) data),
          fun k => w (S k)).
Proof.
  intros Hnow. eexists. split; [by apply generate_returns|].
  unfold before, mbind, M_bind. by rewrite generate_returns.
Qed.

Lemma after_returns Math_sin junction changes (w : World) :
  validNow (w 0%nat) ->
  exists data,
    generateMockTrafficFlowData Math_sin "after" junction
      (totalImpact junction changes) w
    = (inr data, fun k => w (S k))
    /\ after Math_sin junction changes w
       = (inr (Snapshot.mk
                 (Some (Changes.laneWidth changes))
                 (Some (Changes.speedLimit changes))
                 (Some (Changes.signalTiming changes))
                 (Some (JS.ToNumber (Junction.lanes junction)
                        + Changes.additionalLanes changes)%float)
                 (Spec.averageTraffic junction changes)
                 (Spec.averageDelay junction changes)
                 (Spec.throughput junction changes) data),
          fun k => w (S k)).
Proof.
  intros Hnow. eexists. split; [by apply generate_returns|].
  unfold after, mbind, M_bind. by rewrite generate_returns.
Qed.

(** ** The results of the simulation *)

(** C9: an identifier that has an entry in the precomputed results gets that
    entry back unchanged; the clock is not read (nothing is generated), and the
    result does not depend on the changes, nor on the junctions dataset. *)
Theorem precomputed_result_returned Math_sin junctionsData
    (simulationResultsData : gmap string SimulationResult.t)
    (junctionId : string) (stored : SimulationResult.t) :
  simulationResultsData !! junctionId = Some stored ->
  (forall changes w,
     simulateTrafficChanges Math_sin junctionsData simulationResultsData
       junctionId changes w = (inr (Result stored), w))
  /\ (forall changes1 changes2 junctionsData' w,
        simulateTrafficChanges Math_sin junctionsData simulationResultsData
          junctionId changes1 w
        = simulateTrafficChanges Math_sin junctionsData' simulationResultsData
            junctionId changes2 w).
Proof.
  intros Hin.
  split; intros; unfold simulateTrafficChanges, lookupResult; by rewrite Hin.
Qed.

Lemma precomputed_result_returned_witness :
  simulateTrafficChanges sin_poly [scenarioJunction] {[ "j1" := storedResult ]}
    "j1" scenarioChanges (clockAt 0)
  = (inr (Result storedResult), clockAt 0).
Proof.
  apply (precomputed_result_returned sin_poly [scenarioJunction]
           {[ "j1" := storedResult ]} "j1" storedResult).
  reflexivity.
Defined.

Lemma find_none_by_id (junctionsData : list Junction.t) (id : string) :
  (forall j, j ∈ junctionsData -> Junction.id j <> id) ->
  List.find (fun j => String.eqb (Junction.id j) id) junctionsData = None.
Proof.
  intros Hall. induction junctionsData as [|j l IH]; [done|]. simpl.
  destruct (String.eqb_spec (Junction.id j) id) as [Heq|_].
  - exfalso. apply (Hall j); [left | done].
  - apply IH. intros j' Hj'. apply Hall. by right.
Qed.

(** An identifier that has no entry and is not the name of a member of
    [Object.prototype] reads [undefined]; one that names such a member reads
    that member. *)
Lemma lookupResult_none (simulationResultsData : gmap string SimulationResult.t)
    (junctionId : string) :
  simulationResultsData !! junctionId = None ->
  junctionId ∉ JS.Object_prototype_names ->
  lookupResult simulationResultsData junctionId = None.
Proof.
  intros Hsim Hnot. unfold lookupResult. rewrite Hsim.
  by rewrite bool_decide_eq_false_2.
Qed.

Lemma lookupResult_inherited
    (simulationResultsData : gmap string SimulationResult.t)
    (junctionId : string) :
  simulationResultsData !! junctionId = None ->
  junctionId ∈ JS.Object_prototype_names ->
  lookupResult simulationResultsData junctionId = Some (Inherited junctionId).
Proof.
  intros Hsim Hin. unfold lookupResult. rewrite Hsim.
  by rewrite bool_decide_eq_true_2.
Qed.

(** C10: an identifier found in neither dataset makes the simulation throw
    the error "Junction with ID <id> not found", without a snapshot and
    without reading the clock, unless it is the name of a member of
    [Object.prototype] (constructor, toString, ...): the check for a
    precomputed result then finds the inherited member, and the simulation
    returns that member and throws nothing. *)
Theorem unknown_junction_outcome Math_sin (junctionsData : list Junction.t)
    (simulationResultsData : gmap string SimulationResult.t)
    (junctionId : string) (changes : Changes.t) (w : World) :
  simulationResultsData !! junctionId = None ->
  (forall j, j ∈ junctionsData -> Junction.id j <> junctionId) ->
  (junctionId ∉ JS.Object_prototype_names ->
   simulateTrafficChanges Math_sin junctionsData simulationResultsData
     junctionId changes w
   = (inl (Error (String.append "Junction with ID "
                    (String.append junctionId " not found"))), w))
  /\ (junctionId ∈ JS.Object_prototype_names ->
      simulateTrafficChanges Math_sin junctionsData simulationResultsData
        junctionId changes w
      = (inr (Inherited junctionId), w)).
Proof.
  intros Hsim Hjun. split; intros Hname; unfold simulateTrafficChanges.
  - rewrite lookupResult_none by done.
    unfold mbind, M_bind, fetchJunctionById.
    by rewrite find_none_by_id.
  - by rewrite lookupResult_inherited.
Qed.

Lemma unknown_junction_outcome_witness :
  simulateTrafficChanges sin_poly [scenarioJunction] {[ "j1" := storedResult ]}
    "constructor" scenarioChanges (clockAt 0)
  = (inr (Inherited "constructor"), clockAt 0).
Proof.
  apply (unknown_junction_outcome sin_poly [scenarioJunction]
           {[ "j1" := storedResult ]} "constructor" scenarioChanges (clockAt 0)).
  - reflexivity.
  - intros j Hj. apply list_elem_of_singleton in Hj. subst j. discriminate.
  - apply (bool_decide_unpack _). vm_compute. exact I.
Defined.

(** The identifier j9, in neither dataset of the scenario, is reported as not
    found. *)
Example unknown_junction_j9 :
  simulateTrafficChanges sin_poly [scenarioJunction] {[ "j1" := storedResult ]}
    "j9" scenarioChanges (clockAt 0)
  = (inl (Error "Junction with ID j9 not found"), clockAt 0).
Proof. reflexivity. Qed.

(** ** The flow series *)

(** C7: under a valid clock reading [now] the generated series has exactly 24
    entries, each one hour after the one before it, hence strictly increasing;
    the first is 23 hours before [now] and the last is [now]. *)
Theorem flow_series_timestamps Math_sin type junction impact (w : World) :
  validNow (w 0%nat) ->
  exists data,
    generateMockTrafficFlowData Math_sin type junction impact w
    = (inr data, fun k => w (S k))
    /\ length data = 24%nat
    /\ (forall i p q, data !! i = Some p -> data !! S i = Some q ->
          FlowPoint.time q = FlowPoint.time p + 3600000)
    /\ (forall i j p q, (i < j)%nat -> data !! i = Some p -> data !! j = Some q ->
          FlowPoint.time p < FlowPoint.time q)
    /\ FlowPoint.time <$> data !! 0%nat = Some (w 0%nat - 23 * 3600000)
    /\ FlowPoint.time <$> data !! 23%nat = Some (w 0%nat).
Proof.
  intros Hnow. eexists. split; [by apply generate_returns|].
  split; [done|]. split; [|split; [|split]].
  - intros i p q Hp Hq. apply series_lookup in Hp as [? ->].
    apply series_lookup in Hq as [? ->]. simpl. lia.
  - intros i j p q Hij Hp Hq. apply series_lookup in Hp as [? ->].
    apply series_lookup in Hq as [? ->]. simpl. lia.
  - erewrite (proj2 (series_lookup _ 0 _)) by (split; [lia | reflexivity]).
    reflexivity.
  - erewrite (proj2 (series_lookup _ 23 _)) by (split; [lia | reflexivity]).
    simpl. f_equal. lia.
Qed.

Lemma flow_series_timestamps_witness :
  exists data,
    generateMockTrafficFlowData sin_poly "after" scenarioJunction 132.5
      (clockAt 1700000000000)
    = (inr data, fun k => clockAt 1700000000000 (S k))
    /\ length data = 24%nat
    /\ (forall i p q, data !! i = Some p -> data !! S i = Some q ->
          FlowPoint.time q = FlowPoint.time p + 3600000)
    /\ (forall i j p q, (i < j)%nat -> data !! i = Some p -> data !! j = Some q ->
          FlowPoint.time p < FlowPoint.time q)
    /\ FlowPoint.time <$> data !! 0%nat = Some (1700000000000 - 23 * 3600000)
    /\ FlowPoint.time <$> data !! 23%nat = Some 1700000000000.
Proof.
  apply (flow_series_timestamps sin_poly "after" scenarioJunction 132.5
           (clockAt 1700000000000)).
  unfold validNow, clockAt, maxTimeValue. lia.
Defined.

(** ** Determinism *)

Lemma before_reads_once Math_sin junction :
  exists snapshot : Z -> exn + Snapshot.t, forall w,
    before Math_sin junction w = (snapshot (w 0%nat), fun k => w (S k)).
Proof.
  destruct (generate_reads_once Math_sin "before" junction 0) as [series Hs].
  exists (fun now =>
    match series now with
    | inr data =>
        inr (Snapshot.mk
               (Junction.laneWidth junction) (Junction.speedLimit junction)
               (Junction.signalTiming junction) (Junction.lanes junction)
               (Junction.currentTrafficCount junction)
               (calculateMockDelay junction)
               (calculateMockThroughput junction) data)
    | inl e => inl e
    end).
  intros w. unfold before, mbind, M_bind. rewrite Hs.
  by destruct (series (w 0%nat)).
Qed.

Lemma after_reads_once Math_sin junction changes :
  exists snapshot : Z -> exn + Snapshot.t, forall w,
    after Math_sin junction changes w = (snapshot (w 0%nat), fun k => w (S k)).
Proof.
  destruct (generate_reads_once Math_sin "after" junction
              (totalImpact junction changes)) as [series Hs].
  exists (fun now =>
    match series now with
    | inr data =>
        inr (Snapshot.mk
               (Some (Changes.laneWidth changes))
               (Some (Changes.speedLimit changes))
               (Some (Changes.signalTiming changes))
               (Some (JS.ToNumber (Junction.lanes junction)
                      + Changes.additionalLanes changes)%float)
               (Spec.averageTraffic junction changes)
               (Spec.averageDelay junction changes)
               (Spec.throughput junction changes) data)
    | inl e => inl e
    end).
  intros w. unfold after, mbind, M_bind. rewrite Hs.
  by destruct (series (w 0%nat)).
Qed.

(** C8: the clock is the only input besides the junction and the changes.
    Each snapshot operation reads it once, so two runs whose first reading
    agrees give the same snapshot (or the same exception); the simulation
    reads it twice, and two runs whose first two readings agree give the same
    result, in every field and every flow-series entry. *)
Theorem simulation_deterministic Math_sin junctionsData
    (simulationResultsData : gmap string SimulationResult.t)
    (junction : Junction.t) (junctionId : string) (changes : Changes.t)
    (w1 w2 : World) :
  w1 0%nat = w2 0%nat ->
  fst (before Math_sin junction w1) = fst (before Math_sin junction w2)
  /\ fst (after Math_sin junction changes w1)
     = fst (after Math_sin junction changes w2)
  /\ (w1 1%nat = w2 1%nat ->
      fst (simulateTrafficChanges Math_sin junctionsData simulationResultsData
             junctionId changes w1)
      = fst (simulateTrafficChanges Math_sin junctionsData simulationResultsData
               junctionId changes w2)).
Proof.
  intros H0.
  split; [|split].
  - destruct (before_reads_once Math_sin junction) as [b Hb].
    by rewrite !Hb, H0.
  - destruct (after_reads_once Math_sin junction changes) as [a Ha].
    by rewrite !Ha, H0.
  - intros H1. unfold simulateTrafficChanges.
    destruct (lookupResult simulationResultsData junctionId) as [stored|];
      [done|].
    unfold mbind, M_bind, fetchJunctionById.
    destruct (List.find _ junctionsData) as [j|]; [|done].
    unfold mret, M_ret, throw.
    destruct (before_reads_once Math_sin j) as [b Hb].
    destruct (after_reads_once Math_sin j changes) as [a Ha].
    rewrite !Hb, H0. destruct (b (w2 0%nat)) as [e|sb]; [done|].
    rewrite !Ha, H1. by destruct (a (w2 1%nat)).
Qed.

Lemma simulation_deterministic_witness :
  fst (before sin_poly scenarioJunction (clockAt 1700000000000))
  = fst (before sin_poly scenarioJunction
           (fun k => 1700000000000 + 5 * Z.of_nat (k - 2)))
  /\ fst (after sin_poly scenarioJunction scenarioChanges (clockAt 1700000000000))
     = fst (after sin_poly scenarioJunction scenarioChanges
              (fun k => 1700000000000 + 5 * Z.of_nat (k - 2)))
  /\ (clockAt 1700000000000 1%nat = 1700000000000 + 5 * Z.of_nat (1 - 2) ->
      fst (simulateTrafficChanges sin_poly [scenarioJunction] ∅ "j1"
             scenarioChanges (clockAt 1700000000000))
      = fst (simulateTrafficChanges sin_poly [scenarioJunction] ∅ "j1"
               scenarioChanges
               (fun k => 1700000000000 + 5 * Z.of_nat (k - 2)))).
Proof.
  apply (simulation_deterministic sin_poly [scenarioJunction] ∅
           scenarioJunction "j1" scenarioChanges (clockAt 1700000000000)
           (fun k => 1700000000000 + 5 * Z.of_nat (k - 2))).
  reflexivity.
Defined.

(** ** The after snapshot *)

(** C2: the after snapshot is given by the formulas of the specification:
    totalImpact is the weighted sum of the four deltas, lanes the sum of the
    junction's lanes and the additional ones, and averageTraffic, averageDelay
    and throughput the floored values.  In the concrete scenario totalImpact
    is 132.5 and averageTraffic is 294. *)
Theorem after_snapshot_formulas Math_sin junction changes (w : World) :
  validNow (w 0%nat) ->
  exists a,
    after Math_sin junction changes w = (inr a, fun k => w (S k))
    /\ totalImpact junction changes = Spec.totalImpact junction changes
    /\ Snapshot.lanes a
       = Some (JS.ToNumber (Junction.lanes junction)
               + Changes.additionalLanes changes)%float
    /\ Snapshot.averageTraffic a = Spec.averageTraffic junction changes
    /\ Snapshot.averageDelay a = Spec.averageDelay junction changes
    /\ Snapshot.throughput a = Spec.throughput junction changes
    /\ (junction = scenarioJunction -> changes = scenarioChanges ->
        totalImpact junction changes = 132.5%float
        /\ Snapshot.averageTraffic a = 294%float).
Proof.
  intros Hnow.
  destruct (after_returns Math_sin junction changes w Hnow) as (data & _ & Ha).
  eexists. split; [exact Ha|]. simpl.
  repeat (split; [reflexivity|]).
  intros -> ->. split; vm_compute; reflexivity.
Qed.

Lemma after_snapshot_formulas_witness :
  exists a,
    after sin_poly scenarioJunction scenarioChanges (clockAt 1700000000000)
    = (inr a, fun k => clockAt 1700000000000 (S k))
    /\ totalImpact scenarioJunction scenarioChanges
       = Spec.totalImpact scenarioJunction scenarioChanges
    /\ Snapshot.lanes a
       = Some (JS.ToNumber (Junction.lanes scenarioJunction)
               + Changes.additionalLanes scenarioChanges)%float
    /\ Snapshot.averageTraffic a = Spec.averageTraffic scenarioJunction scenarioChanges
    /\ Snapshot.averageDelay a = Spec.averageDelay scenarioJunction scenarioChanges
    /\ Snapshot.throughput a = Spec.throughput scenarioJunction scenarioChanges
    /\ (scenarioJunction = scenarioJunction -> scenarioChanges = scenarioChanges ->
        totalImpact scenarioJunction scenarioChanges = 132.5%float
        /\ Snapshot.averageTraffic a = 294%float).
Proof.
  apply (after_snapshot_formulas sin_poly scenarioJunction scenarioChanges
           (clockAt 1700000000000)).
  unfold validNow, clockAt, maxTimeValue. lia.
Defined.

(** ** Numbers: comparisons and special values *)

Lemma Prim2SF_zero : Prim2SF 0 = S754_zero false.
Proof. reflexivity. Qed.

Lemma is_nan_Prim2SF (x : float) : is_nan x = false -> Prim2SF x <> S754_nan.
Proof.
  unfold is_nan. rewrite FloatAxioms.eqb_spec. intros H Hx.
  rewrite Hx in H. discriminate H.
Qed.

Lemma ltb_leb (a b : float) : (a <? b)%float = true -> (a <=? b)%float = true.
Proof.
  rewrite ltb_spec, leb_spec. unfold SFltb, SFleb.
  by destruct (SFcompare (Prim2SF a) (Prim2SF b)) as [[]|].
Qed.

(** A number that compares equal to zero is one of the two zeros. *)
Lemma eqb_zero_Prim2SF (x : float) :
  (x =? 0)%float = true -> exists s, Prim2SF x = S754_zero s.
Proof.
  rewrite FloatAxioms.eqb_spec, Prim2SF_zero. unfold SFeqb.
  destruct (Prim2SF x) as [s|s| |s m e]; simpl; try discriminate.
  - by exists s.
  - by destruct s.
  - by destruct s.
Qed.

(** A number above zero is positive and finite, or +Infinity. *)
Lemma ltb_zero_Prim2SF (x : float) :
  (0 <? x)%float = true ->
  Prim2SF x = S754_infinity false \/ exists m e, Prim2SF x = S754_finite false m e.
Proof.
  rewrite ltb_spec, Prim2SF_zero. unfold SFltb.
  destruct (Prim2SF x) as [s|s| |s m e]; simpl; try discriminate.
  - destruct s; [discriminate | by left].
  - destruct s; [discriminate | right; by exists m, e].
Qed.

(** Dividing by a zero gives an infinity or [NaN]. *)
Lemma div_by_zero (x y : float) :
  (y =? 0)%float = true ->
  (x / y = infinity \/ x / y = neg_infinity \/ x / y = nan)%float.
Proof.
  intros Hy. destruct (eqb_zero_Prim2SF y Hy) as [s Hs].
  pose proof (div_spec x y) as Hd. rewrite Hs in Hd.
  unfold SF64div, SFdiv in Hd.
  destruct (Prim2SF x) as [sx|sx| |sx mx ex].
  - right; right. by apply Prim2SF_inj.
  - destruct (xorb sx s); [right; left | left]; by apply Prim2SF_inj.
  - right; right. by apply Prim2SF_inj.
  - destruct (xorb sx s); [right; left | left]; by apply Prim2SF_inj.
Qed.

Lemma div_pos_by_zero (x : float) :
  (0 <? x)%float = true -> (x / 0 = infinity)%float.
Proof.
  intros Hx. apply Prim2SF_inj. rewrite div_spec, Prim2SF_zero.
  by destruct (ltb_zero_Prim2SF x Hx) as [-> | (m & e & ->)].
Qed.

Lemma div_pos_by_neg_zero (x : float) :
  (0 <? x)%float = true -> (x / neg_zero = neg_infinity)%float.
Proof.
  intros Hx. apply Prim2SF_inj. rewrite div_spec.
  change (Prim2SF neg_zero) with (S754_zero true).
  by destruct (ltb_zero_Prim2SF x Hx) as [-> | (m & e & ->)].
Qed.

(** [Math.max] with a floor [c]: the result is [NaN] exactly when the other
    argument is, and otherwise at least [c]. *)
Lemma Math_max_nan (c y : float) :
  is_nan c = false -> is_nan (JS.Math_max c y) = is_nan y.
Proof.
  intros Hc. unfold JS.Math_max. rewrite Hc. simpl.
  destruct (is_nan y) eqn:Hy; [done|].
  destruct (c <? y)%float; [done|].
  destruct (y <? c)%float; [done|].
  by destruct (is_zero c && get_sign c).
Qed.

Lemma Math_max_floor (c y : float) :
  is_nan c = false -> is_zero c = false -> (c <=? c)%float = true ->
  is_nan y = false ->
  (c <=? JS.Math_max c y)%float = true.
Proof.
  intros Hc Hz Hcc Hy. unfold JS.Math_max. rewrite Hc, Hy, Hz. simpl.
  destruct (c <? y)%float eqn:Hlt; [by apply ltb_leb|].
  by destruct (y <? c)%float.
Qed.

Lemma leb_nan_r (c y : float) : is_nan y = true -> (c <=? y)%float = false.
Proof.
  unfold is_nan. rewrite FloatAxioms.eqb_spec, leb_spec. unfold SFeqb, SFleb.
  destruct (Prim2SF y) as [s|s| |s m e]; simpl.
  - discriminate.
  - by destruct s.
  - by destruct (Prim2SF c).
  - destruct s; simpl; rewrite Z.compare_refl, Pos.compare_cont_refl;
      discriminate.
Qed.

(** ** Numbers: rounding keeps lower bounds

    The binary64 operations round the exact result to the format; the lemmas
    below follow the specification of the format and show that a result whose
    exact value is at or above a number of the format is rounded to a number
    at or above it. *)

Lemma bpow_pos (e : Z) : (0 < bpow e)%R.
Proof. apply powerRZ_lt. lra. Qed.

Lemma bpow_add (a b : Z) : bpow (a + b) = (bpow a * bpow b)%R.
Proof. apply powerRZ_add. lra. Qed.

Lemma bpow_IZR (n : Z) : 0 <= n -> bpow n = IZR (2 ^ n).
Proof.
  intros Hn. unfold bpow. rewrite <- (Z2Nat.id n Hn).
  rewrite <- pow_powerRZ, pow_IZR. reflexivity.
Qed.

Lemma bpow_le (a b : Z) : a <= b -> (bpow a <= bpow b)%R.
Proof.
  intros Hab. replace b with (a + (b - a)) by lia.
  rewrite bpow_add, (bpow_IZR (b - a)) by lia.
  pose proof (bpow_pos a).
  assert (1 <= IZR (2 ^ (b - a)))%R.
  { apply IZR_le. pose proof (Z.pow_pos_nonneg 2 (b - a)). lia. }
  nra.
Qed.

(** Scaling the mantissa by a power of two moves the exponent. *)
Lemma F2R_shift (m e n : Z) : 0 <= n -> F2R (m * 2 ^ n) e = F2R m (e + n).
Proof.
  intros Hn. unfold F2R. rewrite mult_IZR, bpow_add, (bpow_IZR n Hn). lra.
Qed.

Lemma digits2_pos_bounds (m : positive) :
  2 ^ (Zpos (digits2_pos m) - 1) <= Zpos m < 2 ^ Zpos (digits2_pos m).
Proof.
  induction m as [m IH|m IH|]; simpl digits2_pos.
  - rewrite Pos2Z.inj_succ.
    replace (Z.succ (Zpos (digits2_pos m)) - 1) with (Z.succ (Zpos (digits2_pos m) - 1)) by lia.
    rewrite !Z.pow_succ_r by lia. lia.
  - rewrite Pos2Z.inj_succ.
    replace (Z.succ (Zpos (digits2_pos m)) - 1) with (Z.succ (Zpos (digits2_pos m) - 1)) by lia.
    rewrite !Z.pow_succ_r by lia. lia.
  - simpl. lia.
Qed.

Lemma shr_1_m (mrs : shr_record) :
  0 <= shr_m mrs -> shr_m (shr_1 mrs) = shr_m mrs / 2.
Proof.
  destruct mrs as [m r s]. simpl. intros Hm.
  destruct m as [|p|p]; [reflexivity| |lia].
  destruct p as [p|p|]; simpl.
  - rewrite Pos2Z.inj_xI. apply Z.div_unique with 1; lia.
  - rewrite Pos2Z.inj_xO. apply Z.div_unique with 0; lia.
  - reflexivity.
Qed.

Lemma iter_pos_shr_1 (p : positive) :
  forall mrs, 0 <= shr_m mrs ->
    shr_m (SpecFloat.iter_pos shr_1 p mrs) = shr_m mrs / 2 ^ Zpos p.
Proof.
  induction p as [p IH|p IH|]; intros mrs Hm; simpl SpecFloat.iter_pos.
  - assert (H1 : 0 <= shr_m (shr_1 mrs)).
    { rewrite shr_1_m by assumption. apply Z.div_pos; lia. }
    assert (H2 : 0 <= shr_m (SpecFloat.iter_pos shr_1 p (shr_1 mrs))).
    { rewrite IH by assumption. apply Z.div_pos; [assumption|]. apply Z.pow_pos_nonneg; lia. }
    rewrite IH, IH, shr_1_m by assumption.
    rewrite !Z.div_div by (try apply Z.pow_pos_nonneg; lia).
    f_equal. rewrite <- !Z.pow_add_r by lia. rewrite <- Z.pow_succ_r by lia.
    f_equal. lia.
  - assert (H2 : 0 <= shr_m (SpecFloat.iter_pos shr_1 p mrs)).
    { rewrite IH by assumption. apply Z.div_pos; [assumption|]. apply Z.pow_pos_nonneg; lia. }
    rewrite IH, IH by assumption.
    rewrite !Z.div_div by (try apply Z.pow_pos_nonneg; lia).
    f_equal. rewrite <- !Z.pow_add_r by lia. f_equal. lia.
  - rewrite shr_1_m by assumption. reflexivity.
Qed.

(** What [shr_fexp] computes: the mantissa divided by the power of two that
    brings the exponent up to the canonical one. *)
Lemma shr_fexp_spec (m e : Z) (l : location) :
  0 <= m ->
  let n := Z.max 0 (fexp prec emax (Zdigits2 m + e) - e) in
  shr_m (fst (shr_fexp prec emax m e l)) = m / 2 ^ n
  /\ snd (shr_fexp prec emax m e l) = e + n.
Proof.
  intros Hm n. unfold shr_fexp, shr. subst n.
  assert (Hr : shr_m (shr_record_of_loc m l) = m) by (destruct l as [|[]]; reflexivity).
  destruct (fexp prec emax (Zdigits2 m + e) - e) as [|p|p] eqn:Hd; simpl fst; simpl snd.
  - rewrite Hr. simpl. rewrite Z.div_1_r. lia.
  - rewrite iter_pos_shr_1 by (rewrite Hr; assumption). rewrite Hr.
    rewrite Z.max_r by lia. split; reflexivity.
  - rewrite Hr. rewrite Z.max_l by lia. simpl. rewrite Z.div_1_r. lia.
Qed.

Lemma round_nearest_even_bounds (m : Z) (l : location) :
  m <= round_nearest_even m l <= m + 1.
Proof.
  destruct l as [|[]]; simpl; try lia. destruct (Z.even m); lia.
Qed.

(** A canonical mantissa has at most 53 bits, its exponent is at least the
    smallest one, and above the smallest exponent it has exactly 53 bits. *)
Lemma canonical_bounds (m : positive) (e : Z) :
  canonical_mantissa prec emax m e = true ->
  Zpos m < 2 ^ 53 /\ -1074 <= e /\ (-1074 < e -> 2 ^ 52 <= Zpos m).
Proof.
  unfold canonical_mantissa, fexp, SpecFloat.emin, prec, emax.
  intros H. apply Z.eqb_eq in H.
  pose proof (digits2_pos_bounds m) as [Hlo Hhi].
  set (d := Zpos (digits2_pos m)) in *.
  assert (Hd : d <= 53) by lia.
  split; [|split].
  - apply Z.lt_le_trans with (2 ^ d); [assumption|].
    apply Z.pow_le_mono_r; lia.
  - lia.
  - intros He. assert (d = 53) by lia. subst d.
    replace 52 with (Zpos (digits2_pos m) - 1) by lia. assumption.
Qed.

Lemma F2R_le_mantissa (m1 m2 e : Z) : m1 <= m2 -> (F2R m1 e <= F2R m2 e)%R.
Proof.
  intros H. unfold F2R. apply IZR_le in H. pose proof (bpow_pos e). nra.
Qed.

Lemma F2R_bpow (n e : Z) : 0 <= n -> F2R (2 ^ n) e = bpow (n + e).
Proof.
  intros Hn. unfold F2R. rewrite bpow_add, (bpow_IZR n Hn). reflexivity.
Qed.

(** A canonical number is below the power of two 53 places above its
    exponent. *)
Lemma F2R_canonical_lt (m : positive) (e : Z) :
  canonical_mantissa prec emax m e = true -> (F2R (Zpos m) e < bpow (53 + e))%R.
Proof.
  intros H. destruct (canonical_bounds m e H) as (Hm & _ & _).
  rewrite <- F2R_bpow by lia. unfold F2R.
  apply IZR_lt in Hm. pose proof (bpow_pos e). nra.
Qed.

(** Dividing the mantissa down to the canonical exponent keeps a number at
    or above any canonical number it was at or above. *)
Lemma shift_keeps_above (mc : positive) (ec m e : Z) :
  0 <= m ->
  canonical_mantissa prec emax mc ec = true ->
  (F2R (Zpos mc) ec <= F2R m e)%R ->
  let n := Z.max 0 (fexp prec emax (Zdigits2 m + e) - e) in
  (F2R (Zpos mc) ec <= F2R (m / 2 ^ n) (e + n))%R.
Proof.
  intros Hm Hc Hle n.
  destruct (Z.le_gt_cases (fexp prec emax (Zdigits2 m + e) - e) 0) as [Hn|Hn].
  - subst n. rewrite Z.max_l by assumption. simpl. rewrite Z.div_1_r, Z.add_0_r.
    assumption.
  - assert (Hn' : n = fexp prec emax (Zdigits2 m + e) - e) by (subst n; lia).
    assert (Hpow : 0 < 2 ^ n) by (apply Z.pow_pos_nonneg; lia).
    destruct (canonical_bounds mc ec Hc) as (Hmc & Hec & _).
    destruct (Z.le_gt_cases (e + n) ec) as [Hgrid|Hgrid].
    + (* the canonical number lies on the coarser grid *)
      set (K := Zpos mc * 2 ^ (ec - (e + n))).
      assert (HK : F2R (Zpos mc) ec = F2R K (e + n)).
      { unfold K. rewrite F2R_shift by lia. f_equal. lia. }
      rewrite HK. apply F2R_le_mantissa.
      apply Z.div_le_lower_bound; [assumption|].
      apply le_IZR. rewrite HK in Hle.
      rewrite <- F2R_shift in Hle by lia.
      unfold F2R in Hle. pose proof (bpow_pos e).
      rewrite Z.mul_comm. nra.
    + (* the result has 53 bits at an exponent above that of the canonical
         number *)
      destruct m as [|p|p]; [|clear Hm|lia].
      { exfalso. unfold F2R in Hle. simpl in Hle.
        assert (0 < IZR (Zpos mc))%R by (apply IZR_lt; lia).
        pose proof (bpow_pos ec). nra. }
      simpl Zdigits2 in *.
      pose proof (digits2_pos_bounds p) as [Hlo _].
      set (d := Zpos (digits2_pos p)) in *.
      assert (Hd : d = 53 + n).
      { unfold fexp, SpecFloat.emin, prec, emax in Hn'. lia. }
      assert (H52 : 2 ^ 52 <= Zpos p / 2 ^ n).
      { apply Z.div_le_lower_bound; [assumption|].
        rewrite <- Z.pow_add_r by lia.
        replace (n + 52) with (d - 1) by lia. assumption. }
      apply Rle_trans with (F2R (2 ^ 52) (e + n)).
      * rewrite F2R_bpow by lia.
        apply Rle_trans with (bpow (53 + ec)).
        -- apply Rlt_le. apply F2R_canonical_lt. assumption.
        -- apply bpow_le. lia.
      * apply F2R_le_mantissa. assumption.
Qed.

Lemma F2R_pos (m : positive) (e : Z) : (0 < F2R (Zpos m) e)%R.
Proof.
  unfold F2R. assert (0 < IZR (Zpos m))%R by (apply IZR_lt; lia).
  pose proof (bpow_pos e). nra.
Qed.

(** Rounding a non-negative number never yields [NaN], only a zero, a finite
    number or an infinity of the given sign. *)
Lemma binary_round_aux_sign (sx : bool) (mx ex : Z) (lx : location) :
  0 <= mx ->
  binary_round_aux prec emax sx mx ex lx = S754_zero sx
  \/ binary_round_aux prec emax sx mx ex lx = S754_infinity sx
  \/ exists m e, binary_round_aux prec emax sx mx ex lx = S754_finite sx m e.
Proof.
  intros Hmx. unfold binary_round_aux.
  destruct (shr_fexp_spec mx ex lx Hmx) as [Hm1 He1].
  destruct (shr_fexp prec emax mx ex lx) as [mrs1 e1]. simpl in Hm1, He1.
  set (m1 := round_nearest_even (shr_m mrs1) (loc_of_shr_record mrs1)).
  assert (Hm1' : 0 <= m1).
  { pose proof (round_nearest_even_bounds (shr_m mrs1) (loc_of_shr_record mrs1)).
    assert (0 <= shr_m mrs1).
    { rewrite Hm1. apply Z.div_pos; [assumption|]. apply Z.pow_pos_nonneg; lia. }
    unfold m1. lia. }
  destruct (shr_fexp_spec m1 e1 loc_Exact Hm1') as [Hm2 He2].
  destruct (shr_fexp prec emax m1 e1 loc_Exact) as [mrs2 e2]. simpl in Hm2, He2.
  assert (H2 : 0 <= shr_m mrs2).
  { rewrite Hm2. apply Z.div_pos; [assumption|]. apply Z.pow_pos_nonneg; lia. }
  destruct (shr_m mrs2) as [|p|p]; [left; reflexivity | | lia].
  destruct (e2 <=? emax - prec).
  - right; right. exists p, e2. reflexivity.
  - right; left. reflexivity.
Qed.

(** Rounding a number that is at or above a canonical number gives a finite
    number at or above it, or the infinity. *)
Lemma binary_round_aux_above (mc : positive) (ec : Z) (sx : bool) (mx ex : Z)
    (lx : location) :
  0 <= mx ->
  canonical_mantissa prec emax mc ec = true ->
  (F2R (Zpos mc) ec <= F2R mx ex)%R ->
  binary_round_aux prec emax sx mx ex lx = S754_infinity sx
  \/ exists m e,
       binary_round_aux prec emax sx mx ex lx = S754_finite sx m e
       /\ (F2R (Zpos mc) ec <= F2R (Zpos m) e)%R.
Proof.
  intros Hmx Hc Hle. unfold binary_round_aux.
  destruct (shr_fexp_spec mx ex lx Hmx) as [Hm1 He1].
  pose proof (shift_keeps_above mc ec mx ex Hmx Hc Hle) as Hs1.
  destruct (shr_fexp prec emax mx ex lx) as [mrs1 e1].
  simpl in Hm1, He1, Hs1. rewrite <- Hm1, <- He1 in Hs1.
  set (m1 := round_nearest_even (shr_m mrs1) (loc_of_shr_record mrs1)).
  pose proof (round_nearest_even_bounds (shr_m mrs1) (loc_of_shr_record mrs1))
    as [Hr _]. fold m1 in Hr.
  assert (H1 : 0 <= shr_m mrs1).
  { rewrite Hm1. apply Z.div_pos; [assumption|]. apply Z.pow_pos_nonneg; lia. }
  assert (Hm1' : 0 <= m1) by lia.
  assert (Hle1 : (F2R (Zpos mc) ec <= F2R m1 e1)%R).
  { apply Rle_trans with (F2R (shr_m mrs1) e1); [assumption|].
    apply F2R_le_mantissa. assumption. }
  destruct (shr_fexp_spec m1 e1 loc_Exact Hm1') as [Hm2 He2].
  pose proof (shift_keeps_above mc ec m1 e1 Hm1' Hc Hle1) as Hs2.
  destruct (shr_fexp prec emax m1 e1 loc_Exact) as [mrs2 e2].
  simpl in Hm2, He2, Hs2. rewrite <- Hm2, <- He2 in Hs2.
  assert (H2 : 0 <= shr_m mrs2).
  { rewrite Hm2. apply Z.div_pos; [assumption|]. apply Z.pow_pos_nonneg; lia. }
  destruct (shr_m mrs2) as [|p|p]; [|clear H2|lia].
  - exfalso. pose proof (F2R_pos mc ec). unfold F2R in Hs2 at 2.
    simpl in Hs2. lra.
  - destruct (e2 <=? emax - prec).
    + right. exists p, e2. split; [reflexivity | assumption].
    + left. reflexivity.
Qed.

(** On canonical positive numbers the comparison of the format is the
    comparison of the values. *)
Lemma SFleb_F2R (m1 m2 : positive) (e1 e2 : Z) :
  canonical_mantissa prec emax m1 e1 = true ->
  canonical_mantissa prec emax m2 e2 = true ->
  SFleb (S754_finite false m1 e1) (S754_finite false m2 e2) = true
  <-> (F2R (Zpos m1) e1 <= F2R (Zpos m2) e2)%R.
Proof.
  intros H1 H2.
  destruct (canonical_bounds m1 e1 H1) as (Hm1 & He1 & Hn1).
  destruct (canonical_bounds m2 e2 H2) as (Hm2 & He2 & Hn2).
  pose proof (F2R_canonical_lt m1 e1 H1) as Hlt1.
  pose proof (F2R_canonical_lt m2 e2 H2) as Hlt2.
  unfold SFleb, SFcompare.
  destruct (Z.compare_spec e1 e2) as [Heq|Hlt|Hgt].
  - subst e2. rewrite Pos.compare_cont_spec. simpl.
    pose proof (bpow_pos e1) as Hb. unfold F2R.
    destruct (Pos.compare_spec m1 m2) as [->|Hm|Hm]; simpl.
    + split; [lra | reflexivity].
    + split; [|reflexivity]. intros _.
      assert (IZR (Zpos m1) < IZR (Zpos m2))%R by (apply IZR_lt; lia). nra.
    + split; [discriminate|]. intros Hle. exfalso.
      assert (IZR (Zpos m2) < IZR (Zpos m1))%R by (apply IZR_lt; lia). nra.
  - split; [|reflexivity]. intros _.
    apply Rle_trans with (bpow (53 + e1)); [lra|].
    apply Rle_trans with (F2R (2 ^ 52) e2).
    + rewrite F2R_bpow by lia. apply bpow_le. lia.
    + apply F2R_le_mantissa. apply Hn2. lia.
  - split; [discriminate|]. intros Hle. exfalso.
    assert (bpow (53 + e2) <= F2R (Zpos m1) e1)%R; [|lra].
    apply Rle_trans with (F2R (2 ^ 52) e1).
    + rewrite F2R_bpow by lia. apply bpow_le. lia.
    + apply F2R_le_mantissa. apply Hn1. lia.
Qed.

Lemma Prim2SF_canonical (x : float) (s : bool) (m : positive) (e : Z) :
  Prim2SF x = S754_finite s m e -> canonical_mantissa prec emax m e = true.
Proof.
  intros Hx. pose proof (Prim2SF_valid x) as Hv. rewrite Hx in Hv.
  simpl in Hv. unfold bounded in Hv. apply andb_prop in Hv. apply Hv.
Qed.

(** [c <= x] on numbers, for a positive finite [c], read on the values. *)
Lemma leb_above (c x : float) (mc : positive) (ec : Z) :
  Prim2SF c = S754_finite false mc ec ->
  (c <=? x)%float = true <-> above mc ec (Prim2SF x).
Proof.
  intros Hc. rewrite leb_spec, Hc.
  pose proof (Prim2SF_canonical c false mc ec Hc) as Hcc.
  destruct (Prim2SF x) as [s|s| |s m e] eqn:Hx; simpl.
  - unfold SFleb. simpl. split; [discriminate | contradiction].
  - unfold SFleb. simpl. destruct s; split; try discriminate; try contradiction; reflexivity || trivial.
  - unfold SFleb. simpl. split; [discriminate | contradiction].
  - destruct s.
    + unfold SFleb. simpl. split; [discriminate | contradiction].
    + apply SFleb_F2R; [assumption|]. apply (Prim2SF_canonical x false m e Hx).
Qed.

Lemma leb_zero_nonneg (x : float) :
  (0 <=? x)%float = true -> nonneg (Prim2SF x).
Proof.
  rewrite leb_spec. change (Prim2SF 0) with (S754_zero false). unfold SFleb.
  destruct (Prim2SF x) as [s|s| |s m e]; simpl; try discriminate; trivial.
  - destruct s; [discriminate | reflexivity].
  - destruct s; [discriminate | reflexivity].
Qed.

Lemma F2R_mul (m1 m2 e1 e2 : Z) :
  F2R (m1 * m2) (e1 + e2) = (F2R m1 e1 * F2R m2 e2)%R.
Proof. unfold F2R. rewrite mult_IZR, bpow_add. lra. Qed.

(** The value of an integer written at a negative exponent. *)
Lemma F2R_integer (k n : Z) : 0 <= n -> F2R (k * 2 ^ n) (- n) = IZR k.
Proof.
  intros Hn. rewrite F2R_shift by assumption. unfold F2R.
  replace (- n + n) with 0 by lia. unfold bpow. simpl. lra.
Qed.

(** Multiplying by a positive finite constant. *)
Lemma mul_above (x k : float) (mc mk mr : positive) (ec ek er : Z) :
  Prim2SF k = S754_finite false mk ek ->
  canonical_mantissa prec emax mr er = true ->
  (F2R (Zpos mr) er <= F2R (Zpos mc) ec * F2R (Zpos mk) ek)%R ->
  above mc ec (Prim2SF x) -> above mr er (Prim2SF (x * k)).
Proof.
  intros Hk Hr Hprod Hx. rewrite mul_spec, Hk. unfold SF64mul.
  destruct (Prim2SF x) as [s|s| |s m e]; simpl in Hx; try contradiction.
  - destruct s; [contradiction|]. simpl. trivial.
  - destruct s; [contradiction|]. simpl.
    assert (Hle : (F2R (Zpos mr) er <= F2R (Zpos (m * mk)) (e + ek))%R).
    { rewrite Pos2Z.inj_mul, F2R_mul. pose proof (F2R_pos mk ek).
      pose proof (F2R_pos mc ec). nra. }
    destruct (binary_round_aux_above mr er false (Zpos (m * mk)) (e + ek)
                loc_Exact ltac:(lia) Hr Hle) as [-> | (m' & e' & -> & H')];
      simpl; trivial.
Qed.

Lemma mul_nonneg (x k : float) (mk : positive) (ek : Z) :
  Prim2SF k = S754_finite false mk ek ->
  nonneg (Prim2SF x) -> nonneg (Prim2SF (x * k)).
Proof.
  intros Hk Hx. rewrite mul_spec, Hk. unfold SF64mul.
  destruct (Prim2SF x) as [s|s| |s m e]; simpl in Hx; try contradiction; simpl.
  - trivial.
  - subst s. reflexivity.
  - subst s. simpl.
    destruct (binary_round_aux_sign false (Zpos (m * mk)) (e + ek) loc_Exact
                ltac:(lia)) as [-> | [-> | (m' & e' & ->)]]; simpl; trivial.
Qed.

Lemma Pos_iter_xO (m d : positive) : Zpos (Pos.iter xO m d) = Zpos m * 2 ^ Zpos d.
Proof.
  induction d as [|d IH] using Pos.peano_ind.
  - simpl. lia.
  - rewrite Pos.iter_succ, Pos2Z.inj_xO, IH, Pos2Z.inj_succ, Z.pow_succ_r by lia.
    lia.
Qed.

(** Aligning a mantissa to a lower exponent keeps the value. *)
Lemma shl_align_F2R (m : positive) (e e' : Z) :
  F2R (Zpos (fst (shl_align m e e'))) (snd (shl_align m e e')) = F2R (Zpos m) e
  /\ (e' <= e -> snd (shl_align m e e') = e').
Proof.
  unfold shl_align. destruct (e' - e) as [|d|d] eqn:Hd; simpl.
  - split; [reflexivity | lia].
  - split; [reflexivity | lia].
  - split; [|reflexivity]. rewrite Pos_iter_xO.
    rewrite F2R_shift by lia. f_equal. lia.
Qed.

(** Rounding a positive integer mantissa: [binary_round]. *)
Lemma binary_round_above (mc : positive) (ec : Z) (m : positive) (e : Z) :
  canonical_mantissa prec emax mc ec = true ->
  (F2R (Zpos mc) ec <= F2R (Zpos m) e)%R ->
  above mc ec (binary_round prec emax false m e).
Proof.
  intros Hc Hle. unfold binary_round.
  destruct (shl_align_F2R m e (fexp prec emax (Zpos (digits2_pos m) + e)))
    as [Hv _].
  destruct (shl_align m e (fexp prec emax (Zpos (digits2_pos m) + e)))
    as [mz ez]. simpl in Hv. rewrite <- Hv in Hle.
  destruct (binary_round_aux_above mc ec false (Zpos mz) ez loc_Exact
              ltac:(lia) Hc Hle) as [-> | (m' & e' & -> & H')]; simpl; trivial.
Qed.

(** Adding a non-negative number to a positive finite constant. *)
Lemma add_above (c y : float) (mc : positive) (ec : Z) :
  Prim2SF c = S754_finite false mc ec ->
  nonneg (Prim2SF y) -> above mc ec (Prim2SF (c + y)).
Proof.
  intros Hc Hy. pose proof (Prim2SF_canonical c false mc ec Hc) as Hcc.
  rewrite add_spec, Hc. unfold SF64add.
  destruct (Prim2SF y) as [s|s| |s m e]; simpl in Hy; try contradiction.
  - simpl. lra.
  - subst s. simpl. trivial.
  - subst s. unfold SFadd.
    destruct (shl_align_F2R mc ec (Z.min ec e)) as [Hv1 He1].
    destruct (shl_align_F2R m e (Z.min ec e)) as [Hv2 He2].
    rewrite He1 in Hv1 by lia. rewrite He2 in Hv2 by lia.
    set (m1 := fst (shl_align mc ec (Z.min ec e))) in *.
    set (m2 := fst (shl_align m e (Z.min ec e))) in *.
    simpl cond_Zopp. simpl Z.add. simpl binary_normalize.
    apply binary_round_above; [assumption|].
    rewrite Pos2Z.inj_add. unfold F2R in *. rewrite plus_IZR.
    pose proof (F2R_pos m e) as Hp. unfold F2R in Hp. lra.
Qed.

(** What the core of the division computes on positive mantissas. *)
Lemma SFdiv_core_binary_spec (m1 m2 : positive) (e1 e2 : Z) :
  let e' := Z.min (fexp prec emax (Zpos (digits2_pos m1) + e1
                                   - (Zpos (digits2_pos m2) + e2))) (e1 - e2) in
  exists l,
    SFdiv_core_binary prec emax (Zpos m1) e1 (Zpos m2) e2
    = (Zpos m1 * 2 ^ (e1 - e2 - e') / Zpos m2, e', l).
Proof.
  intros e'. unfold SFdiv_core_binary. simpl Zdigits2. fold e'.
  assert (Hs : 0 <= e1 - e2 - e') by (subst e'; lia).
  set (s := e1 - e2 - e') in *.
  assert (Hm : match s with
               | Zpos _ => Z.shiftl (Zpos m1) s
               | Z0 => Zpos m1
               | Zneg _ => 0
               end = Zpos m1 * 2 ^ s).
  { destruct s as [|p|p] eqn:Hp; [simpl; lia | | lia].
    rewrite Z.shiftl_mul_pow2 by lia. reflexivity. }
  rewrite Hm. unfold Z.div.
  destruct (Z.div_eucl (Zpos m1 * 2 ^ s) (Zpos m2)) as [q r].
  eexists. reflexivity.
Qed.

Lemma div_core_above (mq : positive) (eq : Z) (m mk : positive) (e ek : Z) :
  canonical_mantissa prec emax mq eq = true ->
  (F2R (Zpos mq) eq * F2R (Zpos mk) ek <= F2R (Zpos m) e)%R ->
  let e' := Z.min (fexp prec emax (Zpos (digits2_pos m) + e
                                   - (Zpos (digits2_pos mk) + ek))) (e - ek) in
  (F2R (Zpos mq) eq <= F2R (Zpos m * 2 ^ (e - ek - e') / Zpos mk) e')%R.
Proof.
  intros Hc Hle e'.
  assert (Hs : 0 <= e - ek - e') by (subst e'; lia).
  set (s := e - ek - e') in *.
  assert (Hpow : 0 < 2 ^ s) by (apply Z.pow_pos_nonneg; lia).
  destruct (canonical_bounds mq eq Hc) as (Hmq & Heq & _).
  destruct (Z.le_gt_cases e' eq) as [Hgrid|Hgrid].
  - set (K := Zpos mq * 2 ^ (eq - e')).
    assert (HK : F2R (Zpos mq) eq = F2R K e').
    { unfold K. rewrite F2R_shift by lia. f_equal. lia. }
    rewrite HK. apply F2R_le_mantissa.
    apply Z.div_le_lower_bound; [lia|].
    apply le_IZR. rewrite HK in Hle.
    assert (He : F2R (Zpos m) e = F2R (Zpos m * 2 ^ s) (e' + ek)).
    { rewrite F2R_shift by lia. f_equal. subst s. lia. }
    rewrite He in Hle. unfold F2R in Hle. rewrite bpow_add in Hle.
    rewrite mult_IZR.
    pose proof (bpow_pos e') as H1. pose proof (bpow_pos ek) as H2.
    apply Rmult_le_reg_r with (bpow e' * bpow ek)%R; [nra | nra].
  - pose proof (digits2_pos_bounds m) as [Hlo _].
    pose proof (digits2_pos_bounds mk) as [_ Hhi].
    set (d1 := Zpos (digits2_pos m)) in *.
    set (d2 := Zpos (digits2_pos mk)) in *.
    assert (Hd : d2 + 53 <= d1 + s).
    { subst s e'. unfold fexp, SpecFloat.emin, prec, emax in *. lia. }
    assert (H52 : 2 ^ 52 <= Zpos m * 2 ^ s / Zpos mk).
    { apply Z.div_le_lower_bound; [lia|].
      apply Z.le_trans with (2 ^ d2 * 2 ^ 52).
      - apply Z.mul_le_mono_nonneg_r; lia.
      - rewrite <- Z.pow_add_r by lia.
        apply Z.le_trans with (2 ^ (d1 - 1) * 2 ^ s).
        + rewrite <- Z.pow_add_r by lia. apply Z.pow_le_mono_r; lia.
        + apply Z.mul_le_mono_nonneg_r; lia. }
    apply Rle_trans with (F2R (2 ^ 52) e').
    + rewrite F2R_bpow by lia.
      apply Rle_trans with (bpow (53 + eq)).
      * apply Rlt_le. apply F2R_canonical_lt. assumption.
      * apply bpow_le. lia.
    + apply F2R_le_mantissa. assumption.
Qed.

(** Dividing by a positive finite constant. *)
Lemma div_above (x k : float) (mc mk mq : positive) (ec ek eq : Z) :
  Prim2SF k = S754_finite false mk ek ->
  canonical_mantissa prec emax mq eq = true ->
  (F2R (Zpos mq) eq * F2R (Zpos mk) ek <= F2R (Zpos mc) ec)%R ->
  above mc ec (Prim2SF x) -> above mq eq (Prim2SF (x / k)).
Proof.
  intros Hk Hq Hprod Hx. rewrite div_spec, Hk. unfold SF64div.
  destruct (Prim2SF x) as [s|s| |s m e]; simpl in Hx; try contradiction.
  - destruct s; [contradiction|]. simpl. trivial.
  - destruct s; [contradiction|]. unfold SFdiv.
    destruct (SFdiv_core_binary_spec m mk e ek) as [l ->].
    assert (Hle : (F2R (Zpos mq) eq * F2R (Zpos mk) ek <= F2R (Zpos m) e)%R)
      by lra.
    pose proof (div_core_above mq eq m mk e ek Hq Hle) as Hcore.
    simpl in Hcore. simpl xorb.
    match goal with
    | |- above _ _ (binary_round_aux _ _ _ ?q ?e' _) =>
        assert (Hq0 : 0 <= q) by (apply Z.div_pos; [|lia];
          apply Z.mul_nonneg_nonneg; [lia|]; apply Z.pow_nonneg; lia);
        destruct (binary_round_aux_above mq eq false q e' l Hq0 Hq Hcore)
          as [-> | (m' & e'' & -> & H')]; simpl; trivial
    end.
Qed.

Lemma div_nonneg (x y : float) :
  nonneg (Prim2SF x) -> (0 <? y)%float = true ->
  ~ (x = infinity /\ y = infinity) ->
  nonneg (Prim2SF (x / y)).
Proof.
  intros Hx Hy Hinf. rewrite ltb_spec in Hy.
  change (Prim2SF 0) with (S754_zero false) in Hy. unfold SFltb in Hy.
  rewrite div_spec. unfold SF64div.
  destruct (Prim2SF y) as [sy|sy| |sy my ey] eqn:Ey; simpl in Hy;
    try discriminate; (destruct sy; [discriminate|]);
    destruct (Prim2SF x) as [sx|sx| |sx mx ex] eqn:Ex; simpl in Hx;
    try contradiction; try subst sx; simpl; trivial.
  - apply Hinf. split; apply Prim2SF_inj; assumption.
  - destruct (SFdiv_core_binary_spec mx my ex ey) as [l ->].
    match goal with
    | |- nonneg (binary_round_aux _ _ _ ?q ?e' _) =>
        assert (Hq0 : 0 <= q) by (apply Z.div_pos; [|lia];
          apply Z.mul_nonneg_nonneg; [lia|]; apply Z.pow_nonneg; lia);
        destruct (binary_round_aux_sign false q e' l Hq0)
          as [-> | [-> | (m' & e'' & ->)]]; simpl; trivial
    end.
Qed.

(** Rounding to an integer keeps a number at or above an integer [k] that is
    a number. *)
Lemma Math_round_above (x : float) (k : Z) (mc : positive) (ec : Z) :
  0 < k ->
  canonical_mantissa prec emax mc ec = true ->
  F2R (Zpos mc) ec = IZR k ->
  above mc ec (Prim2SF x) -> above mc ec (Prim2SF (JS.Math_round x)).
Proof.
  intros Hk Hc Hval Hx. unfold JS.Math_round.
  destruct (Prim2SF x) as [s|s| |s m e] eqn:Ex; simpl in Hx; try contradiction.
  - rewrite Ex. exact Hx.
  - destruct s; [contradiction|].
    destruct (Z.leb_spec 0 e) as [He|He]; [rewrite Ex; exact Hx|].
    simpl cond_Zopp.
    pose proof (Prim2SF_canonical x false m e Ex) as Hcx.
    destruct (canonical_bounds m e Hcx) as (Hm & _ & _).
    assert (Hpow : 0 < 2 ^ (- e)) by (apply Z.pow_pos_nonneg; lia).
    assert (Hkm : k * 2 ^ (- e) <= Zpos m).
    { apply le_IZR. rewrite mult_IZR, <- bpow_IZR by lia.
      rewrite Hval in Hx. unfold F2R in Hx.
      pose proof (bpow_pos e) as H1.
      assert (H2 : (bpow e * bpow (- e) = 1)%R).
      { rewrite <- bpow_add. replace (e + - e) with 0 by lia. reflexivity. }
      pose proof (bpow_pos (- e)) as H3.
      assert (H4 : (IZR k * bpow (- e) <= IZR (Zpos m) * (bpow e * bpow (- e)))%R)
        by nra.
      rewrite H2 in H4. lra. }
    set (r := (2 * Zpos m + 2 ^ (- e)) / 2 ^ (1 - e)).
    assert (H2e : 2 ^ (1 - e) = 2 * 2 ^ (- e)).
    { replace (1 - e) with (Z.succ (- e)) by lia. apply Z.pow_succ_r. lia. }
    assert (Hp2 : 2 <= 2 ^ (- e)).
    { change 2 with (2 ^ 1) at 1. apply Z.pow_le_mono_r; lia. }
    assert (Hr : k <= r <= Zpos m).
    { unfold r. rewrite H2e. split.
      - apply Z.div_le_lower_bound; lia.
      - apply Z.div_le_upper_bound; nia. }
    destruct (Z.eqb_spec r 0) as [Hr0|Hr0]; [lia|].
    destruct r as [|p|p] eqn:Er; [lia| |lia].
    unfold JS.int_to_float. rewrite of_uint63_spec.
    rewrite Uint63.of_Z_spec, Z.mod_small.
    2:{ split; [lia|]. apply Z.lt_trans with (2 ^ 53); [lia|]. reflexivity. }
    simpl binary_normalize. apply binary_round_above; [assumption|].
    rewrite Hval. unfold F2R, bpow. simpl. destruct Hr as [Hr _].
    apply IZR_le in Hr. lra.
Qed.

(** ** Numbers: [NaN] through rounding to an integer *)

Lemma Prim2SF_not_nan (x : float) : Prim2SF x <> S754_nan -> is_nan x = false.
Proof.
  intros Hx. unfold is_nan. rewrite FloatAxioms.eqb_spec. unfold SFeqb.
  destruct (Prim2SF x) as [s|s| |s m e]; simpl.
  - reflexivity.
  - by destruct s.
  - contradiction.
  - by destruct s; rewrite Z.compare_refl, Pos.compare_cont_refl.
Qed.

Lemma of_uint63_not_nan (n : int) : is_nan (of_uint63 n) = false.
Proof.
  apply Prim2SF_not_nan. rewrite of_uint63_spec.
  destruct (to_Z n) as [|p|p]; simpl; [discriminate| |].
  - unfold binary_round.
    destruct (shl_align p 0 (fexp prec emax (Zpos (digits2_pos p) + 0)))
      as [mz ez].
    destruct (binary_round_aux_sign false (Zpos mz) ez loc_Exact ltac:(lia))
      as [-> | [-> | (m' & e' & ->)]]; discriminate.
  - unfold binary_round.
    destruct (shl_align p 0 (fexp prec emax (Zpos (digits2_pos p) + 0)))
      as [mz ez].
    destruct (binary_round_aux_sign true (Zpos mz) ez loc_Exact ltac:(lia))
      as [-> | [-> | (m' & e' & ->)]]; discriminate.
Qed.

Lemma opp_nan (x : float) : is_nan (- x)%float = is_nan x.
Proof.
  destruct (is_nan x) eqn:Hx.
  - destruct (is_nan (- x)%float) eqn:Ho; [done|].
    apply is_nan_Prim2SF in Ho. rewrite opp_spec in Ho.
    destruct (Prim2SF x) as [s|s| |s m e] eqn:Ex; try done;
      rewrite Prim2SF_not_nan in Hx by (rewrite Ex; discriminate); done.
  - apply Prim2SF_not_nan. rewrite opp_spec.
    apply is_nan_Prim2SF in Hx. by destruct (Prim2SF x).
Qed.

(** [Math.round] returns [NaN] on [NaN] only. *)
Lemma Math_round_nan (x : float) : is_nan (JS.Math_round x) = is_nan x.
Proof.
  unfold JS.Math_round.
  destruct (Prim2SF x) as [s|s| |s m e] eqn:Ex; try done.
  rewrite (Prim2SF_not_nan x) by (rewrite Ex; discriminate).
  destruct (0 <=? e); [apply Prim2SF_not_nan; rewrite Ex; discriminate|].
  destruct (_ =? 0); [by destruct s|].
  unfold JS.int_to_float.
  destruct (_ / _) as [|p|p]; [done | apply of_uint63_not_nan |].
  rewrite opp_nan. apply of_uint63_not_nan.
Qed.

(** ** The delay of the before snapshot *)

Lemma F2R_10 : F2R 5629499534213120 (-49) = 10%R.
Proof. apply (F2R_integer 10 49). lia. Qed.

Lemma F2R_20 : F2R 5629499534213120 (-48) = 20%R.
Proof. apply (F2R_integer 20 48). lia. Qed.

Lemma F2R_200 : F2R 7036874417766400 (-45) = 200%R.
Proof. apply (F2R_integer 200 45). lia. Qed.

(** With a positive capacity and a non-negative traffic count that are not
    both Infinity, the delay is at least 20. *)
Lemma delay_at_least_20 (junction : Junction.t) :
  (0 <? Junction.capacity junction)%float = true ->
  (0 <=? Junction.currentTrafficCount junction)%float = true ->
  ~ (Junction.currentTrafficCount junction = infinity
     /\ Junction.capacity junction = infinity) ->
  (20 <=? calculateMockDelay junction)%float = true.
Proof.
  intros Hcap Hctc Hinf. unfold calculateMockDelay.
  set (ratio := (Junction.currentTrafficCount junction
                 / Junction.capacity junction)%float).
  assert (Hr : nonneg (Prim2SF ratio)).
  { apply div_nonneg; [by apply leb_zero_nonneg | done | done]. }
  assert (Hy : nonneg (Prim2SF (ratio * 60)%float)).
  { by apply (mul_nonneg ratio 60 8444249301319680 (-47)). }
  assert (Hz : above 5629499534213120 (-48) (Prim2SF (20 + ratio * 60)%float)).
  { by apply add_above. }
  assert (Hw : above 7036874417766400 (-45)
                 (Prim2SF ((20 + ratio * 60) * 10)%float)).
  { apply (mul_above _ 10 5629499534213120 5629499534213120 _ (-48) (-49));
      [done | done | | done].
    rewrite F2R_200, F2R_20, F2R_10. lra. }
  assert (Hv : above 7036874417766400 (-45)
                 (Prim2SF (JS.Math_round ((20 + ratio * 60) * 10))%float)).
  { apply (Math_round_above _ 200); [lia | done | apply F2R_200 | done]. }
  apply (leb_above 20 _ 5629499534213120 (-48)); [done|].
  apply (div_above _ 10 7036874417766400 5629499534213120 _ (-45) (-49));
    [done | done | | done].
  rewrite F2R_200, F2R_20, F2R_10. lra.
Qed.

(** ** Capacity zero *)

Lemma delay_zero_capacity (junction : Junction.t) :
  (Junction.capacity junction =? 0)%float = true ->
  is_finite (calculateMockDelay junction) = false.
Proof.
  intros Hc. unfold calculateMockDelay.
  destruct (div_by_zero (Junction.currentTrafficCount junction)
              (Junction.capacity junction) Hc) as [-> | [-> | ->]];
    vm_compute; reflexivity.
Qed.

Lemma delay_zero_capacity_pos (junction : Junction.t) :
  Junction.capacity junction = 0%float ->
  (0 <? Junction.currentTrafficCount junction)%float = true ->
  calculateMockDelay junction = infinity.
Proof.
  intros Hc Hpos. unfold calculateMockDelay.
  rewrite Hc, (div_pos_by_zero _ Hpos). vm_compute. reflexivity.
Qed.

Lemma delay_neg_zero_capacity_pos (junction : Junction.t) :
  Junction.capacity junction = neg_zero ->
  (0 <? Junction.currentTrafficCount junction)%float = true ->
  calculateMockDelay junction = neg_infinity.
Proof.
  intros Hc Hpos. unfold calculateMockDelay.
  rewrite Hc, (div_pos_by_neg_zero _ Hpos). vm_compute. reflexivity.
Qed.

(** C1, as the code has it: no capacity is rejected.  Whatever the capacity
    (zero, negative and non-finite included), a junction found in the dataset
    gets both snapshots back and no error is raised (the simulation returns
    them when the identifier has no precomputed result and is not the name of
    a member of [Object.prototype]); when the capacity is zero the
    averageDelay of the before snapshot is Infinity, -Infinity or NaN; with a
    positive traffic count it is Infinity when the capacity is +0 and
    -Infinity when the capacity is -0. *)
Theorem zero_capacity_not_rejected Math_sin junctionsData
    (simulationResultsData : gmap string SimulationResult.t)
    (junction : Junction.t) (junctionId : string) (changes : Changes.t)
    (w : World) :
  validNow (w 0%nat) -> validNow (w 1%nat) ->
  simulationResultsData !! junctionId = None ->
  junctionId ∉ JS.Object_prototype_names ->
  List.find (fun j => String.eqb (Junction.id j) junctionId) junctionsData
  = Some junction ->
  exists b a,
    before Math_sin junction w = (inr b, fun k => w (S k))
    /\ after Math_sin junction changes (fun k => w (S k))
       = (inr a, fun k => w (S (S k)))
    /\ simulateTrafficChanges Math_sin junctionsData simulationResultsData
         junctionId changes w
       = (inr (Result (SimulationResult.mk b a)), fun k => w (S (S k)))
    /\ Snapshot.averageDelay b = calculateMockDelay junction
    /\ ((Junction.capacity junction =? 0)%float = true ->
        is_finite (Snapshot.averageDelay b) = false)
    /\ ((0 <? Junction.currentTrafficCount junction)%float = true ->
        (Junction.capacity junction = 0%float ->
         Snapshot.averageDelay b = infinity)
        /\ (Junction.capacity junction = neg_zero ->
            Snapshot.averageDelay b = neg_infinity)).
Proof.
  intros Hw0 Hw1 Hsim Hname Hfind.
  destruct (before_returns Math_sin junction w Hw0) as (db & _ & Hb).
  destruct (after_returns Math_sin junction changes (fun k => w (S k)) Hw1)
    as (da & _ & Ha).
  eexists. eexists. split; [exact Hb|]. split; [exact Ha|].
  split; [|split; [reflexivity|split]].
  - unfold simulateTrafficChanges. rewrite lookupResult_none by done.
    unfold mbind, M_bind, fetchJunctionById. rewrite Hfind.
    unfold mret, M_ret. by rewrite Hb, Ha.
  - simpl. apply delay_zero_capacity.
  - simpl. intros Hpos. split; intros Hc.
    + by apply delay_zero_capacity_pos.
    + by apply delay_neg_zero_capacity_pos.
Qed.

Lemma zero_capacity_not_rejected_witness :
  exists b a,
    before sin_poly junction_no_capacity (clockAt 1700000000000)
    = (inr b, fun k => clockAt 1700000000000 (S k))
    /\ after sin_poly junction_no_capacity scenarioChanges
         (fun k => clockAt 1700000000000 (S k))
       = (inr a, fun k => clockAt 1700000000000 (S (S k)))
    /\ simulateTrafficChanges sin_poly [scenarioJunction; junction_no_capacity]
         ∅ "j7" scenarioChanges (clockAt 1700000000000)
       = (inr (Result (SimulationResult.mk b a)),
          fun k => clockAt 1700000000000 (S (S k)))
    /\ Snapshot.averageDelay b = calculateMockDelay junction_no_capacity
    /\ ((Junction.capacity junction_no_capacity =? 0)%float = true ->
        is_finite (Snapshot.averageDelay b) = false)
    /\ ((0 <? Junction.currentTrafficCount junction_no_capacity)%float = true ->
        (Junction.capacity junction_no_capacity = 0%float ->
         Snapshot.averageDelay b = infinity)
        /\ (Junction.capacity junction_no_capacity = neg_zero ->
            Snapshot.averageDelay b = neg_infinity)).
Proof.
  apply (zero_capacity_not_rejected sin_poly
           [scenarioJunction; junction_no_capacity] ∅ junction_no_capacity
           "j7" scenarioChanges (clockAt 1700000000000)).
  - unfold validNow, clockAt, maxTimeValue. lia.
  - unfold validNow, clockAt, maxTimeValue. lia.
  - reflexivity.
  - apply (bool_decide_unpack _). vm_compute. exact I.
  - reflexivity.
Defined.

(** C1 as stated fails: with capacity 0 the before and the after snapshot are
    returned, not an error, and the averageDelay of each is Infinity. *)
Lemma zero_capacity_counterexample :
  exists b a,
    (Junction.capacity junction_no_capacity =? 0)%float = true
    /\ fst (before sin_poly junction_no_capacity (clockAt 1700000000000)) = inr b
    /\ fst (after sin_poly junction_no_capacity scenarioChanges
              (clockAt 1700000000000)) = inr a
    /\ Snapshot.averageDelay b = infinity
    /\ Snapshot.averageDelay a = infinity.
Proof.
  eexists. eexists. split; [reflexivity|].
  split; [vm_compute; reflexivity|]. split; [vm_compute; reflexivity|].
  split; reflexivity.
Qed.

(** With capacity -0 and a positive count the delay of the before snapshot
    is -Infinity. *)
Example neg_zero_capacity_delay :
  exists b,
    (Junction.capacity junction_neg_zero_capacity =? 0)%float = true
    /\ fst (before sin_poly junction_neg_zero_capacity (clockAt 1700000000000))
       = inr b
    /\ Snapshot.averageDelay b = neg_infinity.
Proof.
  eexists. split; [reflexivity|]. split; [vm_compute; reflexivity|].
  reflexivity.
Qed.

(** ** The floors of the after snapshot *)

(** C4, as the code has it: each of averageTraffic, averageDelay and
    throughput of the after snapshot is at least its floor (100, 5, 200)
    exactly when the quantity that [Math.max] floors is not NaN; a floored
    metric is NaN exactly when that quantity is.  So the floors hold for
    impacts of any size in either direction, infinite ones included, and fail
    only on NaN. *)
Theorem after_snapshot_floors Math_sin junction changes (w : World) :
  validNow (w 0%nat) ->
  exists a,
    after Math_sin junction changes w = (inr a, fun k => w (S k))
    /\ (100 <=? Snapshot.averageTraffic a)%float
       = negb (is_nan (Junction.currentTrafficCount junction * 0.9
                       - totalImpact junction changes * 0.5)%float)
    /\ (5 <=? Snapshot.averageDelay a)%float
       = negb (is_nan (calculateMockDelay junction
                       - totalImpact junction changes * 0.1)%float)
    /\ (200 <=? Snapshot.throughput a)%float
       = negb (is_nan (calculateMockThroughput junction
                       + totalImpact junction changes)%float)
    /\ (is_nan (Snapshot.averageTraffic a) = false ->
        (100 <=? Snapshot.averageTraffic a)%float = true)
    /\ (is_nan (Snapshot.averageDelay a) = false ->
        (5 <=? Snapshot.averageDelay a)%float = true)
    /\ (is_nan (Snapshot.throughput a) = false ->
        (200 <=? Snapshot.throughput a)%float = true).
Proof.
  intros Hnow.
  destruct (after_returns Math_sin junction changes w Hnow) as (data & _ & Ha).
  assert (Hfloor : forall c y, is_nan c = false -> is_zero c = false ->
            (c <=? c)%float = true ->
            (c <=? JS.Math_max c y)%float = negb (is_nan y)).
  { intros c y Hc Hz Hcc. destruct (is_nan y) eqn:Hy; simpl.
    - apply leb_nan_r. by rewrite Math_max_nan.
    - by apply Math_max_floor. }
  assert (Hnan : forall c y, is_nan c = false -> is_zero c = false ->
            (c <=? c)%float = true -> is_nan (JS.Math_max c y) = false ->
            (c <=? JS.Math_max c y)%float = true).
  { intros c y Hc Hz Hcc Hy. rewrite Hfloor by done.
    rewrite Math_max_nan in Hy by done. by rewrite Hy. }
  eexists. split; [exact Ha|]. simpl.
  unfold Spec.averageTraffic, Spec.averageDelay, Spec.throughput.
  split; [rewrite <- Math_round_nan; by apply Hfloor|].
  repeat split; try (by apply Hfloor); by apply Hnan.
Qed.

Lemma after_snapshot_floors_witness :
  exists a,
    after sin_poly scenarioJunction scenarioChanges (clockAt 1700000000000)
    = (inr a, fun k => clockAt 1700000000000 (S k))
    /\ (100 <=? Snapshot.averageTraffic a)%float
       = negb (is_nan (Junction.currentTrafficCount scenarioJunction * 0.9
                       - totalImpact scenarioJunction scenarioChanges * 0.5)%float)
    /\ (5 <=? Snapshot.averageDelay a)%float
       = negb (is_nan (calculateMockDelay scenarioJunction
                       - totalImpact scenarioJunction scenarioChanges * 0.1)%float)
    /\ (200 <=? Snapshot.throughput a)%float
       = negb (is_nan (calculateMockThroughput scenarioJunction
                       + totalImpact scenarioJunction scenarioChanges)%float)
    /\ (is_nan (Snapshot.averageTraffic a) = false ->
        (100 <=? Snapshot.averageTraffic a)%float = true)
    /\ (is_nan (Snapshot.averageDelay a) = false ->
        (5 <=? Snapshot.averageDelay a)%float = true)
    /\ (is_nan (Snapshot.throughput a) = false ->
        (200 <=? Snapshot.throughput a)%float = true).
Proof.
  apply (after_snapshot_floors sin_poly scenarioJunction scenarioChanges
           (clockAt 1700000000000)).
  unfold validNow, clockAt, maxTimeValue. lia.
Defined.

(** C4 as stated fails on finite fields whose impact overflows: a proposed
    lane width of 1e308 gives a lane-width impact of Infinity, a current speed
    limit of 1e308 a speed-limit impact of -Infinity, their sum is NaN, and so
    are the three metrics, which are therefore not at least their floors. *)
Lemma after_snapshot_floors_counterexample :
  exists a,
    (0 <? Junction.capacity junction_extreme)%float = true
    /\ forallb is_finite
         [Junction.currentTrafficCount junction_extreme;
          Junction.capacity junction_extreme;
          JS.ToNumber (Junction.laneWidth junction_extreme);
          JS.ToNumber (Junction.speedLimit junction_extreme);
          JS.ToNumber (Junction.signalTiming junction_extreme);
          JS.ToNumber (Junction.lanes junction_extreme);
          Changes.laneWidth changes_extreme;
          Changes.speedLimit changes_extreme;
          Changes.signalTiming changes_extreme;
          Changes.additionalLanes changes_extreme] = true
    /\ fst (after sin_poly junction_extreme changes_extreme
              (clockAt 1700000000000)) = inr a
    /\ (100 <=? Snapshot.averageTraffic a)%float = false
    /\ (5 <=? Snapshot.averageDelay a)%float = false
    /\ (200 <=? Snapshot.throughput a)%float = false.
Proof.
  eexists. split; [reflexivity|]. split; [reflexivity|].
  split; [vm_compute; reflexivity|]. repeat split.
Qed.

(** ** The daily curve *)

Lemma hourFactor_real_12 : hourFactor_real 12 = 1%R.
Proof.
  unfold hourFactor_real.
  replace ((12 - 6) * PI / 12)%R with (PI / 2)%R by lra.
  apply sin_PI2.
Qed.

Lemma hourFactor_real_0 : hourFactor_real 0 = (-1)%R.
Proof.
  unfold hourFactor_real.
  replace ((0 - 6) * PI / 12)%R with (- (PI / 2))%R by lra.
  rewrite sin_neg, sin_PI2. lra.
Qed.

Lemma hourFactor_real_18 : hourFactor_real 18 = 0%R.
Proof.
  unfold hourFactor_real.
  replace ((18 - 6) * PI / 12)%R with PI by lra.
  apply sin_PI.
Qed.

Lemma hourFactor_real_6 : hourFactor_real 6 = 0%R.
Proof.
  unfold hourFactor_real.
  replace ((6 - 6) * PI / 12)%R with 0%R by lra.
  apply sin_0.
Qed.

(** Where the curve touches 1 or -1 the index is a multiple of 12. *)
Lemma hourFactor_real_extreme (i : Z) :
  0 <= i < 24 ->
  (hourFactor_real i = 1 \/ hourFactor_real i = -1)%R ->
  i = 0 \/ i = 12.
Proof.
  intros Hi Hs. unfold hourFactor_real in Hs.
  set (x := ((IZR i - 6) * PI / 12)%R) in *.
  assert (Hc : cos x = 0%R).
  { pose proof (sin2_cos2 x) as H. unfold Rsqr in H.
    assert (Hc2 : (cos x * cos x = 0)%R) by (destruct Hs as [Hs|Hs]; rewrite Hs in H; lra).
    destruct (Rmult_integral _ _ Hc2); assumption. }
  destruct (cos_eq_0_0 x Hc) as [k Hk]. unfold x in Hk.
  pose proof PI_RGT_0 as Hpi.
  assert (Hik : (IZR i = 12 * IZR k + 12)%R).
  { assert (H : ((IZR i - 6) / 12 * PI = (IZR k + 1 / 2) * PI)%R) by lra.
    apply Rmult_eq_reg_r in H; lra. }
  assert (Hz : i = 12 * k + 12).
  { apply eq_IZR. rewrite plus_IZR, mult_IZR. exact Hik. }
  lia.
Qed.

(** The same shape on numbers, with the polynomial sine: in the scenario the
    before series is lowest, 100, at index 0, passes 400 at the indices 6 and
    18, and peaks, at 700, at index 12. *)
Example flow_series_peak :
  exists data,
    fst (generateMockTrafficFlowData sin_poly "before" scenarioJunction 0
           (clockAt 1700000000000)) = inr data
    /\ FlowPoint.traffic <$> data !! 0%nat = Some 100%float
    /\ FlowPoint.traffic <$> data !! 6%nat = Some 400%float
    /\ FlowPoint.traffic <$> data !! 12%nat = Some 700%float
    /\ FlowPoint.traffic <$> data !! 18%nat = Some 400%float
    /\ forallb (fun p => (FlowPoint.traffic p <=? 700)%float
                        && (100 <=? FlowPoint.traffic p)%float) data = true.
Proof.
  eexists. split; [vm_compute; reflexivity|]. repeat split.
Qed.

(** ** The before snapshot *)

(** C3: the before snapshot copies laneWidth, speedLimit, signalTiming and
    lanes from the junction, has averageTraffic = currentTrafficCount,
    averageDelay = (20 + (currentTrafficCount / capacity) × 60) rounded to one
    decimal place and throughput = round(capacity × 0.8); with capacity > 0 and
    currentTrafficCount ≥ 0, averageDelay ≥ 20.  The bound holds for all the
    numbers of the data model, which are finite, and for every other pair of
    numbers too except the one pair whose ratio does not exist, Infinity over
    Infinity. *)
Theorem before_snapshot_fields Math_sin junction (w : World) :
  validNow (w 0%nat) ->
  exists b,
    before Math_sin junction w = (inr b, fun k => w (S k))
    /\ Snapshot.laneWidth b = Junction.laneWidth junction
    /\ Snapshot.speedLimit b = Junction.speedLimit junction
    /\ Snapshot.signalTiming b = Junction.signalTiming junction
    /\ Snapshot.lanes b = Junction.lanes junction
    /\ Snapshot.averageTraffic b = Junction.currentTrafficCount junction
    /\ Snapshot.averageDelay b = Spec.beforeDelay junction
    /\ Snapshot.throughput b = Spec.beforeThroughput junction
    /\ ((0 <? Junction.capacity junction)%float = true ->
        (0 <=? Junction.currentTrafficCount junction)%float = true ->
        ~ (Junction.currentTrafficCount junction = infinity
           /\ Junction.capacity junction = infinity) ->
        (20 <=? Snapshot.averageDelay b)%float = true).
Proof.
  intros Hnow.
  destruct (before_returns Math_sin junction w Hnow) as (data & _ & Hb).
  eexists. split; [exact Hb|]. simpl.
  repeat (split; [reflexivity|]).
  apply delay_at_least_20.
Qed.

Lemma before_snapshot_fields_witness :
  exists b,
    before sin_poly scenarioJunction (clockAt 1700000000000)
    = (inr b, fun k => clockAt 1700000000000 (S k))
    /\ Snapshot.laneWidth b = Junction.laneWidth scenarioJunction
    /\ Snapshot.speedLimit b = Junction.speedLimit scenarioJunction
    /\ Snapshot.signalTiming b = Junction.signalTiming scenarioJunction
    /\ Snapshot.lanes b = Junction.lanes scenarioJunction
    /\ Snapshot.averageTraffic b = Junction.currentTrafficCount scenarioJunction
    /\ Snapshot.averageDelay b = Spec.beforeDelay scenarioJunction
    /\ Snapshot.throughput b = Spec.beforeThroughput scenarioJunction
    /\ ((0 <? Junction.capacity scenarioJunction)%float = true ->
        (0 <=? Junction.currentTrafficCount scenarioJunction)%float = true ->
        ~ (Junction.currentTrafficCount scenarioJunction = infinity
           /\ Junction.capacity scenarioJunction = infinity) ->
        (20 <=? Snapshot.averageDelay b)%float = true).
Proof.
  apply (before_snapshot_fields sin_poly scenarioJunction
           (clockAt 1700000000000)).
  unfold validNow, clockAt, maxTimeValue. lia.
Defined.

(** Outside the data model, when the traffic count and the capacity are both
    Infinity, their ratio is NaN, and so is the delay. *)
Example before_delay_both_infinite :
  exists b,
    (0 <? Junction.capacity junction_unbounded)%float = true
    /\ (0 <=? Junction.currentTrafficCount junction_unbounded)%float = true
    /\ fst (before sin_poly junction_unbounded (clockAt 1700000000000)) = inr b
    /\ is_nan (Snapshot.averageDelay b) = true
    /\ (20 <=? Snapshot.averageDelay b)%float = false.
Proof.
  eexists. split; [reflexivity|]. split; [reflexivity|].
  split; [vm_compute; reflexivity|]. split; reflexivity.
Qed.

(** ** Looking a junction up *)

(** X1: [fetchJunctionById] returns the first junction of the dataset that has
    the requested identifier and leaves the clock alone, or throws the
    not-found error when no junction has it. *)
Theorem fetchJunctionById_first_match (junctionsData : list Junction.t)
    (id : string) (w : World) :
  (exists junction l1 l2,
      junctionsData = l1 ++ junction :: l2
      /\ Junction.id junction = id
      /\ (forall j, j ∈ l1 -> Junction.id j <> id)
      /\ fetchJunctionById junctionsData id w = (inr junction, w))
  \/ ((forall j, j ∈ junctionsData -> Junction.id j <> id)
      /\ fetchJunctionById junctionsData id w
         = (inl (Error (String.append "Junction with ID "
                          (String.append id " not found"))), w)).
Proof.
  unfold fetchJunctionById.
  induction junctionsData as [|j l IH]; simpl.
  - right. split; [|done]. intros j Hj. by apply elem_of_nil in Hj.
  - destruct (String.eqb_spec (Junction.id j) id) as [Heq|Hne].
    + left. exists j, [], l. repeat split; [done|].
      intros j' Hj'. by apply elem_of_nil in Hj'.
    + destruct IH as [(junction & l1 & l2 & -> & Hid & Hbefore & Hres)
                     | [Hnone Hres]].
      * left. exists junction, (j :: l1), l2. repeat split; [done| |done].
        intros j' Hj'. apply elem_of_cons in Hj' as [-> | Hj']; [done|].
        by apply Hbefore.
      * right. split; [|done].
        intros j' Hj'. apply elem_of_cons in Hj' as [-> | Hj']; [done|].
        by apply Hnone.
Qed.

(** ** A clock out of range *)

Lemma toISOString_invalid (tv : Z) (w : World) :
  ~ (- maxTimeValue <= tv <= maxTimeValue) ->
  Date_toISOString tv w = (inl (RangeError "Invalid time value"), w).
Proof.
  intros H. unfold Date_toISOString.
  destruct (Z.leb_spec (Z.abs tv) maxTimeValue) as [Hle|_]; [lia | done].
Qed.

Lemma for_push_throws {A : Type} (body : Z -> M A) (f : Z -> A) (e : exn)
    (w : World) :
  forall (n : nat) (i : Z) (data : list A),
    (forall k, i <= k < i + Z.of_nat n ->
       body k w = (inr (f k), w) \/ body k w = (inl e, w)) ->
    (exists k, i <= k < i + Z.of_nat n /\ body k w = (inl e, w)) ->
    for_push body i n data w = (inl e, w).
Proof.
  induction n as [|n IH]; intros i data Hall (k & Hk & Hthrow); [lia|].
  simpl for_push. unfold mbind, M_bind.
  destruct (Hall i ltac:(lia)) as [Hi | Hi]; rewrite Hi; [|done].
  fold (@mbind M _). apply IH.
  - intros k' Hk'. apply Hall. lia.
  - exists k. split; [|done].
    destruct (Z.eq_dec k i) as [-> | Hne]; [congruence | lia].
Qed.

(** X2: with a clock reading from which some date of the series is invalid,
    the generator throws the RangeError of [toISOString] and returns no series;
    so does the simulation of a junction that is found, when its identifier
    has no stored result and is not the name of a member of
    [Object.prototype]. *)
Theorem invalid_clock_throws Math_sin junctionsData
    (simulationResultsData : gmap string SimulationResult.t)
    (type : string) (junction : Junction.t) (impact : float)
    (junctionId : string) (changes : Changes.t) (w : World) :
  ~ validNow (w 0%nat) ->
  generateMockTrafficFlowData Math_sin type junction impact w
  = (inl (RangeError "Invalid time value"), fun k => w (S k))
  /\ (simulationResultsData !! junctionId = None ->
      junctionId ∉ JS.Object_prototype_names ->
      List.find (fun j => String.eqb (Junction.id j) junctionId) junctionsData
      = Some junction ->
      simulateTrafficChanges Math_sin junctionsData simulationResultsData
        junctionId changes w
      = (inl (RangeError "Invalid time value"), fun k => w (S k))).
Proof.
  intros Hnow.
  assert (Hgen : forall type impact,
            generateMockTrafficFlowData Math_sin type junction impact w
            = (inl (RangeError "Invalid time value"), fun k => w (S k))).
  { intros type' impact'.
    unfold generateMockTrafficFlowData, mbind, M_bind, newDate.
    apply (for_push_throws _
             (fun i =>
                FlowPoint.mk (w 0%nat - (23 - i) * 60 * 60 * 1000)
                  (Computed.trafficValue Math_sin type'
                     (Junction.id junction) impact' i)
                  (Computed.baselineValue (Junction.id junction)))).
    - intros k _. unfold flowPoint, mbind, M_bind.
      destruct (Z_le_dec (- maxTimeValue) (w 0%nat - (23 - k) * 60 * 60 * 1000))
        as [Hlo|Hlo];
        [destruct (Z_le_dec (w 0%nat - (23 - k) * 60 * 60 * 1000) maxTimeValue)
           as [Hhi|Hhi]|].
      + left. rewrite !toISOString_valid by lia.
        unfold mret, M_ret. f_equal. f_equal.
        unfold Computed.trafficValue, Computed.baselineValue, hourFactor.
        by rewrite baseFactor_defaults_to_1, truthy_guard, andb_assoc.
      + right. by rewrite toISOString_invalid by lia.
      + right. by rewrite toISOString_invalid by lia.
    - unfold validNow in Hnow.
      destruct (Z_lt_dec (w 0%nat) (- maxTimeValue + 23 * 3600000)) as [Hlt|Hge].
      + exists 0. split; [simpl; lia|].
        unfold flowPoint, mbind, M_bind.
        by rewrite toISOString_invalid by lia.
      + exists 23. split; [simpl; lia|].
        unfold flowPoint, mbind, M_bind.
        by rewrite toISOString_invalid by lia. }
  split; [apply Hgen|].
  intros Hsim Hname Hfind. unfold simulateTrafficChanges.
  rewrite lookupResult_none by done.
  unfold mbind, M_bind, fetchJunctionById. rewrite Hfind.
  unfold mret, M_ret, before, mbind, M_bind. by rewrite Hgen.
Qed.

Lemma invalid_clock_throws_witness :
  generateMockTrafficFlowData sin_poly "before" scenarioJunction 0
    (clockAt (maxTimeValue + 1))
  = (inl (RangeError "Invalid time value"),
     fun k => clockAt (maxTimeValue + 1) (S k))
  /\ simulateTrafficChanges sin_poly [scenarioJunction] ∅ "j1" scenarioChanges
       (clockAt (maxTimeValue + 1))
     = (inl (RangeError "Invalid time value"),
        fun k => clockAt (maxTimeValue + 1) (S k)).
Proof.
  destruct (invalid_clock_throws sin_poly [scenarioJunction] ∅ "before"
              scenarioJunction 0 "j1" scenarioChanges
              (clockAt (maxTimeValue + 1))) as [Hgen Hsim].
  - unfold validNow, clockAt, maxTimeValue. lia.
  - split; [exact Hgen|]. apply Hsim.
    + reflexivity.
    + apply (bool_decide_unpack _). vm_compute. exact I.
    + reflexivity.
Defined.

(** ** The floor of the flow series *)

(** X3: every trafficValue of a generated series, in either variant and for
    any impact, is at least 100 unless it is NaN. *)
Theorem flow_series_floor Math_sin type junction impact (w : World) :
  validNow (w 0%nat) ->
  exists data,
    generateMockTrafficFlowData Math_sin type junction impact w
    = (inr data, fun k => w (S k))
    /\ forall p, p ∈ data ->
         (100 <=? FlowPoint.traffic p)%float
         = negb (is_nan (FlowPoint.traffic p)).
Proof.
  intros Hnow. eexists. split; [by apply generate_returns|].
  intros p Hp. apply list_elem_of_lookup in Hp as [i Hp].
  apply series_lookup in Hp as [_ ->]. simpl.
  assert (Hfloor : forall y,
            (100 <=? JS.Math_max 100 y)%float
            = negb (is_nan (JS.Math_max 100 y))).
  { intros y. rewrite Math_max_nan by done.
    destruct (is_nan y) eqn:Hy; simpl.
    - apply leb_nan_r. by rewrite Math_max_nan.
    - by apply Math_max_floor. }
  unfold Computed.trafficValue.
  destruct (_ && _); apply Hfloor.
Qed.

Lemma flow_series_floor_witness :
  exists data,
    generateMockTrafficFlowData sin_poly "after" scenarioJunction 132.5
      (clockAt 1700000000000)
    = (inr data, fun k => clockAt 1700000000000 (S k))
    /\ forall p, p ∈ data ->
         (100 <=? FlowPoint.traffic p)%float
         = negb (is_nan (FlowPoint.traffic p)).
Proof.
  apply (flow_series_floor sin_poly "after" scenarioJunction 132.5
           (clockAt 1700000000000)).
  unfold validNow, clockAt, maxTimeValue. lia.
Defined.

(** ** A request that changes nothing *)

Lemma is_finite_Prim2SF (x : float) :
  is_finite x = true ->
  (exists s, Prim2SF x = S754_zero s)
  \/ exists s m e, Prim2SF x = S754_finite s m e.
Proof.
  unfold is_finite, is_infinity, is_nan.
  rewrite !FloatAxioms.eqb_spec, abs_spec. unfold SFeqb.
  change (Prim2SF infinity) with (S754_infinity false).
  destruct (Prim2SF x) as [s|s| |s m e]; simpl; try discriminate.
  - intros _. left. by exists s.
  - by destruct s.
  - intros _. right. by exists s, m, e.
Qed.

Lemma sub_self (x : float) : is_finite x = true -> (x - x = 0)%float.
Proof.
  intros Hx. apply Prim2SF_inj. rewrite sub_spec, Prim2SF_zero.
  destruct (is_finite_Prim2SF x Hx) as [[s ->] | (s & m & e & ->)].
  - by destruct s.
  - unfold SF64sub, SFsub. by rewrite Z.sub_diag.
Qed.

Lemma sub_zero_r (x : float) : (x - 0 = x)%float.
Proof.
  apply Prim2SF_inj. rewrite sub_spec, Prim2SF_zero.
  by destruct (Prim2SF x) as [[]|[]| |].
Qed.

Lemma Math_max_add_zero (c x : float) :
  (0 <? c)%float = true -> JS.Math_max c (x + 0) = JS.Math_max c x.
Proof.
  intros Hc.
  assert (Hx : (x + 0 = x)%float \/ x = neg_zero).
  { destruct (Prim2SF x) as [s|s| |s m e] eqn:Ex.
    - destruct s.
      + right. apply Prim2SF_inj. by rewrite Ex.
      + left. apply Prim2SF_inj. by rewrite add_spec, Ex, Prim2SF_zero.
    - left. apply Prim2SF_inj. rewrite add_spec, Ex, Prim2SF_zero.
      by destruct s.
    - left. apply Prim2SF_inj. by rewrite add_spec, Ex, Prim2SF_zero.
    - left. apply Prim2SF_inj. by rewrite add_spec, Ex, Prim2SF_zero. }
  destruct Hx as [-> | ->]; [done|].
  change (neg_zero + 0)%float with 0%float.
  assert (Hn : is_nan c = false).
  { apply Prim2SF_not_nan. rewrite ltb_spec, Prim2SF_zero in Hc.
    unfold SFltb in Hc. intros E. by rewrite E in Hc. }
  assert (Hmax : forall z s, Prim2SF z = S754_zero s -> JS.Math_max c z = c).
  { intros z s Hz. unfold JS.Math_max. rewrite Hn.
    rewrite (Prim2SF_not_nan z) by (rewrite Hz; discriminate). simpl.
    assert (H1 : (c <? z)%float = false /\ (z <? c)%float = true).
    { rewrite !ltb_spec, Hz. unfold SFltb.
      by destruct (ltb_zero_Prim2SF c Hc) as [-> | (m & e & ->)]. }
    destruct H1 as [-> ->]. done. }
  by rewrite (Hmax 0%float false), (Hmax neg_zero true).
Qed.

(** X4: proposing the junction's own parameters and no additional lane gives
    an impact of exactly 0.  In the result of the simulation each entry of the
    after series then has the trafficValue and the baselineValue of the entry
    of the before series at the same index; their times differ by the time
    between the two readings of the clock, so the two series are equal when
    the readings agree.  The delay and the throughput keep their before values
    (floored at 5 and 200), and the averageTraffic is still scaled to
    max(100, round(count × 0.9)). *)
Theorem null_change_has_no_impact Math_sin junctionsData
    (simulationResultsData : gmap string SimulationResult.t)
    (junction : Junction.t) (junctionId : string) (changes : Changes.t)
    (laneWidth speedLimit signalTiming : float) (w : World) :
  Junction.laneWidth junction = Some laneWidth ->
  Junction.speedLimit junction = Some speedLimit ->
  Junction.signalTiming junction = Some signalTiming ->
  is_finite laneWidth = true -> is_finite speedLimit = true ->
  is_finite signalTiming = true ->
  changes = Changes.mk laneWidth speedLimit signalTiming 0 ->
  validNow (w 0%nat) -> validNow (w 1%nat) ->
  simulationResultsData !! junctionId = None ->
  junctionId ∉ JS.Object_prototype_names ->
  List.find (fun j => String.eqb (Junction.id j) junctionId) junctionsData
  = Some junction ->
  totalImpact junction changes = 0%float
  /\ exists b a,
       simulateTrafficChanges Math_sin junctionsData simulationResultsData
         junctionId changes w
       = (inr (Result (SimulationResult.mk b a)), fun k => w (S (S k)))
       /\ length (Snapshot.trafficFlowData b) = 24%nat
       /\ length (Snapshot.trafficFlowData a) = 24%nat
       /\ (forall i pb, Snapshot.trafficFlowData b !! i = Some pb ->
             Snapshot.trafficFlowData a !! i
             = Some (FlowPoint.mk (FlowPoint.time pb + (w 1%nat - w 0%nat))
                       (FlowPoint.traffic pb) (FlowPoint.before pb)))
       /\ (w 1%nat = w 0%nat ->
           Snapshot.trafficFlowData a = Snapshot.trafficFlowData b)
       /\ Snapshot.averageTraffic a
          = JS.Math_max 100
              (JS.Math_round (Junction.currentTrafficCount junction * 0.9)%float)
       /\ Snapshot.averageDelay a = JS.Math_max 5 (Snapshot.averageDelay b)
       /\ Snapshot.throughput a = JS.Math_max 200 (Snapshot.throughput b).
Proof.
  intros Hlw Hsl Hst Flw Fsl Fst -> Hw0 Hw1 Hsim Hname Hfind.
  assert (Himpact : totalImpact junction
                      (Changes.mk laneWidth speedLimit signalTiming 0)
                    = 0%float).
  { unfold totalImpact, laneWidthImpact, speedLimitImpact, signalTimingImpact,
      lanesImpact. simpl. rewrite Hlw, Hsl, Hst. simpl.
    by rewrite !sub_self by done. }
  split; [done|].
  eexists. eexists. split.
  { unfold simulateTrafficChanges. rewrite lookupResult_none by done.
    unfold mbind, M_bind, fetchJunctionById. rewrite Hfind.
    unfold mret, M_ret, before, after, mbind, M_bind.
    rewrite generate_returns by done. unfold mret, M_ret. cbv beta iota.
    rewrite generate_returns by done. reflexivity. }
  cbn [Snapshot.trafficFlowData Snapshot.averageTraffic Snapshot.averageDelay
       Snapshot.throughput].
  rewrite Himpact.
  assert (Hsame : forall i,
            Computed.trafficValue Math_sin "after" (Junction.id junction) 0 i
            = Computed.trafficValue Math_sin "before" (Junction.id junction)
                0 i) by reflexivity.
  split; [reflexivity|]. split; [reflexivity|]. split; [|split].
  - intros i pb Hpb. apply series_lookup in Hpb as [Hi ->].
    apply series_lookup. split; [done|].
    cbn [FlowPoint.time FlowPoint.traffic FlowPoint.before]. rewrite Hsame.
    f_equal. lia.
  - intros Heq. rewrite Heq. apply map_ext. intros i. by rewrite Hsame.
  - change (0 * 0.5)%float with 0%float. change (0 * 0.1)%float with 0%float.
    rewrite !sub_zero_r. split; [done|]. split; [done|].
    by apply Math_max_add_zero.
Qed.

Lemma null_change_has_no_impact_witness :
  totalImpact scenarioJunction (Changes.mk 3 30 60 0) = 0%float
  /\ exists b a,
       simulateTrafficChanges sin_poly [scenarioJunction] ∅ "j1"
         (Changes.mk 3 30 60 0) (fun k => 1700000000000 + 7 * Z.of_nat k)
       = (inr (Result (SimulationResult.mk b a)),
          fun k => 1700000000000 + 7 * Z.of_nat (S (S k)))
       /\ length (Snapshot.trafficFlowData b) = 24%nat
       /\ length (Snapshot.trafficFlowData a) = 24%nat
       /\ (forall i pb, Snapshot.trafficFlowData b !! i = Some pb ->
             Snapshot.trafficFlowData a !! i
             = Some (FlowPoint.mk
                       (FlowPoint.time pb
                        + (1700000000000 + 7 * Z.of_nat 1
                           - (1700000000000 + 7 * Z.of_nat 0)))
                       (FlowPoint.traffic pb) (FlowPoint.before pb)))
       /\ (1700000000000 + 7 * Z.of_nat 1 = 1700000000000 + 7 * Z.of_nat 0 ->
           Snapshot.trafficFlowData a = Snapshot.trafficFlowData b)
       /\ Snapshot.averageTraffic a
          = JS.Math_max 100
              (JS.Math_round
                 (Junction.currentTrafficCount scenarioJunction * 0.9)%float)
       /\ Snapshot.averageDelay a = JS.Math_max 5 (Snapshot.averageDelay b)
       /\ Snapshot.throughput a = JS.Math_max 200 (Snapshot.throughput b).
Proof.
  apply (null_change_has_no_impact sin_poly [scenarioJunction] ∅
           scenarioJunction "j1" (Changes.mk 3 30 60 0) 3 30 60
           (fun k => 1700000000000 + 7 * Z.of_nat k));
    try reflexivity.
  - unfold validNow, maxTimeValue. lia.
  - unfold validNow, maxTimeValue. lia.
  - apply (bool_decide_unpack _). vm_compute. exact I.
Defined.


(** ** Identifiers of the form j<n> *)

Lemma digit_cases (d : Z) :
  0 <= d < 10 ->
  d = 0 \/ d = 1 \/ d = 2 \/ d = 3 \/ d = 4 \/ d = 5 \/ d = 6 \/ d = 7
  \/ d = 8 \/ d = 9.
Proof. lia. Qed.

Lemma digitValue_digitChar (d : Z) :
  0 <= d < 10 -> JS.digitValue 10 (JSMore.digitChar d) = Some d.
Proof.
  intros Hd.
  destruct (digit_cases d Hd) as [-> | [-> | [-> | [-> | [-> | [-> | [-> | [-> |
    [-> | ->]]]]]]]]]; reflexivity.
Qed.

(** Reading back the digits that were printed. *)
Lemma leadingDigits_digitsOf (fuel : nat) :
  forall (n : Z) (rest : string),
    0 <= n < 2 ^ Z.of_nat (S fuel) ->
    JS.leadingDigits 10 (JSMore.digitsOf (S fuel) n rest) None
    = JS.leadingDigits 10 rest (Some n).
Proof.
  induction fuel as [|fuel IH]; intros n rest Hn.
  - simpl JSMore.digitsOf. change (2 ^ Z.of_nat 1) with 2 in Hn.
    destruct (Z.ltb_spec n 10) as [_|Hge]; [|lia].
    simpl JS.leadingDigits. rewrite digitValue_digitChar by (apply Z.mod_pos_bound; lia).
    by rewrite Z.mod_small by lia.
  - change (JSMore.digitsOf (S (S fuel)) n rest)
      with (if n <? 10 then String (JSMore.digitChar (n mod 10)) rest
            else JSMore.digitsOf (S fuel) (n / 10)
                   (String (JSMore.digitChar (n mod 10)) rest)).
    destruct (Z.ltb_spec n 10) as [Hlt|Hge].
    + simpl JS.leadingDigits.
      rewrite digitValue_digitChar by (apply Z.mod_pos_bound; lia).
      by rewrite Z.mod_small by lia.
    + rewrite IH.
      2:{ split; [apply Z.div_pos; lia|].
          apply Z.div_lt_upper_bound; [lia|].
          replace (Z.of_nat (S (S fuel))) with (Z.succ (Z.of_nat (S fuel)))
            in Hn by lia.
          rewrite Z.pow_succ_r in Hn by lia. lia. }
      simpl JS.leadingDigits.
      rewrite digitValue_digitChar by (apply Z.mod_pos_bound; lia).
      do 2 f_equal. pose proof (Z.div_mod n 10). lia.
Qed.

(** The printed text starts with a digit, and so does what follows it, if
    anything does. *)
Lemma digitsOf_head (fuel : nat) :
  forall (n : Z) (rest : string),
    0 <= n ->
    exists d s,
      0 <= d < 10
      /\ JSMore.digitsOf (S fuel) n rest = String (JSMore.digitChar d) s
      /\ (s = rest
          \/ exists d' s', 0 <= d' < 10 /\ s = String (JSMore.digitChar d') s').
Proof.
  induction fuel as [|fuel IH]; intros n rest Hn.
  - exists (n mod 10), rest. split; [apply Z.mod_pos_bound; lia|].
    split; [|by left]. simpl. by destruct (n <? 10).
  - change (JSMore.digitsOf (S (S fuel)) n rest)
      with (if n <? 10 then String (JSMore.digitChar (n mod 10)) rest
            else JSMore.digitsOf (S fuel) (n / 10)
                   (String (JSMore.digitChar (n mod 10)) rest)).
    destruct (n <? 10).
    + exists (n mod 10), rest. split; [apply Z.mod_pos_bound; lia|].
      split; [done | by left].
    + destruct (IH (n / 10) (String (JSMore.digitChar (n mod 10)) rest))
        as (d & s & Hd & -> & Hs); [apply Z.div_pos; lia|].
      exists d, s. split; [done|]. split; [done|]. right.
      destruct Hs as [-> | Hs]; [|done].
      exists (n mod 10), rest. split; [apply Z.mod_pos_bound; lia | done].
Qed.

Lemma substring_all (s : string) : String.substring 0 (String.length s) s = s.
Proof. induction s as [|c s IH]; simpl; [done | by rewrite IH]. Qed.

(** [parseInt] of the decimal text of [n] reads [n]. *)
Lemma parseInt_Number_toString (n : Z) :
  0 <= n ->
  JS.parseInt (JSMore.Number_toString n)
  = if n =? 0 then 0%float else JS.Z_to_number n.
Proof.
  intros Hn. unfold JSMore.Number_toString.
  set (fuel := Z.to_nat (Z.log2 n)).
  assert (Hfuel : 0 <= n < 2 ^ Z.of_nat (S fuel)).
  { split; [done|]. destruct (Z.eq_dec n 0) as [-> | Hne].
    - apply Z.pow_pos_nonneg; lia.
    - pose proof (Z.log2_spec n ltac:(lia)) as [_ Hlt].
      pose proof (Z.log2_nonneg n).
      replace (Z.of_nat (S fuel)) with (Z.succ (Z.log2 n)) by (unfold fuel; lia).
      done. }
  pose proof (leadingDigits_digitsOf fuel n EmptyString Hfuel) as Hread.
  destruct (digitsOf_head fuel n EmptyString Hn) as (d & s & Hd & Hs & Htail).
  rewrite Hs in *. unfold JS.parseInt.
  assert (Hprefix :
            (let '(radix, s2) :=
               if String.prefix "0x" (String (JSMore.digitChar d) s)
                  || String.prefix "0X" (String (JSMore.digitChar d) s)
               then (16, String.substring 2
                           (String.length (String (JSMore.digitChar d) s) - 2)
                           (String (JSMore.digitChar d) s))
               else (10, String (JSMore.digitChar d) s) in
             match JS.leadingDigits radix s2 None with
             | None => nan
             | Some 0 => 0%float
             | Some n' => JS.Z_to_number n'
             end)
            = if n =? 0 then 0%float else JS.Z_to_number n).
  { assert (Hno : String.prefix "0x" (String (JSMore.digitChar d) s)
                  || String.prefix "0X" (String (JSMore.digitChar d) s) = false).
    { destruct Htail as [-> | (d' & s' & Hd' & ->)].
      - destruct (digit_cases d Hd) as [-> | [-> | [-> | [-> | [-> | [-> | [-> |
          [-> | [-> | ->]]]]]]]]]; reflexivity.
      - destruct (digit_cases d Hd) as [-> | [-> | [-> | [-> | [-> | [-> | [-> |
          [-> | [-> | ->]]]]]]]]];
          try reflexivity;
          destruct (digit_cases d' Hd') as [-> | [-> | [-> | [-> | [-> | [-> |
            [-> | [-> | [-> | ->]]]]]]]]]; reflexivity. }
    rewrite Hno, Hread. simpl JS.leadingDigits.
    destruct n as [|p|p]; [done | done | lia]. }
  destruct (digit_cases d Hd) as [-> | [-> | [-> | [-> | [-> | [-> | [-> | [-> |
    [-> | ->]]]]]]]]]; exact Hprefix.
Qed.

Lemma Z_to_number_int_to_float (n : Z) :
  0 < n < 2 ^ 63 -> JS.Z_to_number n = JS.int_to_float n.
Proof.
  intros Hn. destruct n as [|p|p]; [lia| |lia].
  unfold JS.Z_to_number, JS.int_to_float.
  rewrite <- (SF2Prim_Prim2SF (of_uint63 (of_Z (Zpos p)))). f_equal.
  rewrite of_uint63_spec, Uint63.of_Z_spec, Z.mod_small; [done|].
  split; [lia|]. apply Hn.
Qed.

(** A positive integer below 2^63 is a number at or above 1. *)
Lemma int_to_float_above_1 (n : Z) :
  0 < n < 2 ^ 63 -> above 4503599627370496 (-52) (Prim2SF (JS.int_to_float n)).
Proof.
  intros Hn. destruct n as [|p|p]; [lia| |lia].
  unfold JS.int_to_float.
  rewrite of_uint63_spec, Uint63.of_Z_spec, Z.mod_small
    by (split; [lia | apply Hn]).
  simpl binary_normalize. apply binary_round_above; [done|].
  assert (H1 : F2R 4503599627370496 (-52) = 1%R)
    by (apply (F2R_integer 1 52); lia).
  rewrite H1. unfold F2R, bpow. simpl.
  assert (1 <= IZR (Zpos p))%R by (apply IZR_le; lia). lra.
Qed.

Lemma above_truthy (mc : positive) (ec : Z) (x : float) :
  above mc ec (Prim2SF x) -> JS.truthy x = true.
Proof.
  intros Hx. unfold JS.truthy, is_zero.
  rewrite Prim2SF_not_nan
    by (intros E; rewrite E in Hx; exact Hx).
  rewrite FloatAxioms.eqb_spec.
  change (Prim2SF zero) with (S754_zero false). unfold SFeqb.
  by destruct (Prim2SF x) as [s|[]| |[] m e].
Qed.

Lemma replace_j_numbered (n : Z) :
  JS.String_replace "j" EmptyString
    (String.append "j" (JSMore.Number_toString n))
  = JSMore.Number_toString n.
Proof.
  change (String.append "j" (JSMore.Number_toString n))
    with (String "j" (JSMore.Number_toString n)).
  generalize (JSMore.Number_toString n). intros s. simpl.
  assert (Hp : String.prefix EmptyString s = true) by (by destruct s).
  rewrite Hp. simpl. by rewrite Nat.sub_0_r, substring_all.
Qed.

(** What the code parses from the identifier j<n>. *)
Lemma parsedIndex_numbered (n : Z) :
  0 <= n < 2 ^ 63 ->
  Computed.junctionIndex (String.append "j" (JSMore.Number_toString n))
  = if (n =? 0)%Z then 1%float else JS.int_to_float n.
Proof.
  intros Hn. unfold Computed.junctionIndex, Computed.parsedIndex.
  rewrite <- or_else_1, replace_j_numbered, parseInt_Number_toString by lia.
  destruct (Z.eqb_spec n 0) as [-> | Hne]; [done|].
  rewrite Z_to_number_int_to_float by lia.
  unfold JS.or_else.
  by rewrite (above_truthy _ _ _ (int_to_float_above_1 n ltac:(lia))).
Qed.

Lemma junctionIndex_computed (junction : Junction.t) :
  junctionIndex junction = Computed.junctionIndex (Junction.id junction).
Proof.
  unfold junctionIndex, Computed.junctionIndex, Computed.parsedIndex.
  apply or_else_1.
Qed.

(** X5: for an identifier j<n> with 1 ≤ n < 2^63 the index read by the flow
    generator is the number n, so the base factor is n × 100 + 300; for j0 the
    index falls back to 1. *)
Theorem junctionIndex_of_numbered_id (junction : Junction.t) (n : Z) :
  0 <= n < 2 ^ 63 ->
  Junction.id junction = String.append "j" (JSMore.Number_toString n) ->
  junctionIndex junction = (if (n =? 0)%Z then 1%float else JS.int_to_float n)
  /\ baseFactor junction
     = ((if (n =? 0)%Z then 1 else JS.int_to_float n) * 100 + 300)%float.
Proof.
  intros Hn Hid.
  assert (Hidx : junctionIndex junction
                 = if (n =? 0)%Z then 1%float else JS.int_to_float n).
  { by rewrite junctionIndex_computed, Hid, parsedIndex_numbered. }
  split; [done|]. unfold baseFactor. by rewrite Hidx.
Qed.

Lemma junctionIndex_of_numbered_id_witness :
  junctionIndex (Junction.mk "j42" 400 500 None None None None)
  = (if (42 =? 0)%Z then 1%float else JS.int_to_float 42)
  /\ baseFactor (Junction.mk "j42" 400 500 None None None None)
     = ((if (42 =? 0)%Z then 1 else JS.int_to_float 42) * 100 + 300)%float.
Proof.
  apply (junctionIndex_of_numbered_id
           (Junction.mk "j42" 400 500 None None None None) 42).
  - lia.
  - reflexivity.
Defined.

(** ** The numeric suffix of the specification *)

(** Reading the printed digits of [n] as a suffix. *)
Lemma suffixDigits_digitsOf (fuel : nat) :
  forall (n : Z) (rest : string),
    0 <= n < 2 ^ Z.of_nat (S fuel) ->
    Spec.suffixDigits (JSMore.digitsOf (S fuel) n rest) None
    = Spec.suffixDigits rest (Some n).
Proof.
  induction fuel as [|fuel IH]; intros n rest Hn.
  - simpl JSMore.digitsOf. change (2 ^ Z.of_nat 1) with 2 in Hn.
    destruct (Z.ltb_spec n 10) as [_|Hge]; [|lia].
    simpl Spec.suffixDigits.
    rewrite digitValue_digitChar by (apply Z.mod_pos_bound; lia).
    by rewrite Z.mod_small by lia.
  - change (JSMore.digitsOf (S (S fuel)) n rest)
      with (if n <? 10 then String (JSMore.digitChar (n mod 10)) rest
            else JSMore.digitsOf (S fuel) (n / 10)
                   (String (JSMore.digitChar (n mod 10)) rest)).
    destruct (Z.ltb_spec n 10) as [Hlt|Hge].
    + simpl Spec.suffixDigits.
      rewrite digitValue_digitChar by (apply Z.mod_pos_bound; lia).
      by rewrite Z.mod_small by lia.
    + rewrite IH.
      2:{ split; [apply Z.div_pos; lia|].
          apply Z.div_lt_upper_bound; [lia|].
          replace (Z.of_nat (S (S fuel))) with (Z.succ (Z.of_nat (S fuel)))
            in Hn by lia.
          rewrite Z.pow_succ_r in Hn by lia. lia. }
      simpl Spec.suffixDigits.
      rewrite digitValue_digitChar by (apply Z.mod_pos_bound; lia).
      do 2 f_equal. pose proof (Z.div_mod n 10). lia.
Qed.

(** The numeric suffix of the identifier j<n> is [n]. *)
Lemma numericSuffix_numbered (n : Z) :
  0 <= n ->
  Spec.numericSuffix (String.append "j" (JSMore.Number_toString n)) = Some n.
Proof.
  intros Hn. unfold Spec.numericSuffix, JSMore.Number_toString.
  change (String.append "j" ?s) with (String "j" s).
  change (Spec.suffixDigits (String "j" ?s) None)
    with (Spec.suffixDigits s None).
  rewrite suffixDigits_digitsOf; [done|].
  split; [done|]. destruct (Z.eq_dec n 0) as [-> | Hne].
  - apply Z.pow_pos_nonneg; lia.
  - pose proof (Z.log2_spec n ltac:(lia)) as [_ Hlt].
    pose proof (Z.log2_nonneg n).
    by replace (Z.of_nat (S (Z.to_nat (Z.log2 n)))) with (Z.succ (Z.log2 n))
      by lia.
Qed.

(** For an identifier j<n> with n ≥ 1 the index that the code parses is the
    numeric suffix of the specification, and with an impact that is not
    [NaN] the entries of the code are the formulas of the specification. *)
Lemma computed_formulas_agree Math_sin variant id impact i (n : Z) :
  1 <= n < 2 ^ 63 ->
  id = String.append "j" (JSMore.Number_toString n) ->
  is_nan impact = false ->
  Computed.trafficValue Math_sin variant id impact i
  = Spec.trafficValue Math_sin variant id impact i
  /\ Computed.baselineValue id = Spec.baselineValue id.
Proof.
  intros Hn -> Himpact.
  assert (Hb : Computed.baseFactor
                 (String.append "j" (JSMore.Number_toString n))
               = Spec.baseFactor
                   (String.append "j" (JSMore.Number_toString n))).
  { unfold Computed.baseFactor, Spec.baseFactor, Spec.junctionIndex.
    rewrite parsedIndex_numbered, numericSuffix_numbered by lia.
    destruct (Z.eqb_spec n 0) as [? | _]; [lia|].
    by rewrite Z_to_number_int_to_float by lia. }
  unfold Computed.trafficValue, Spec.trafficValue, Computed.baselineValue,
    Spec.baselineValue, Spec.hourFactor, hourFactor.
  by rewrite Hb, Himpact, andb_true_r.
Qed.

(** C6, as the code has it: at every hour index [i] the entry has
    trafficValue = max(100, round(baseFactor + hourFactor × 300)), adjusted to
    max(100, round(that − impact × 0.5 × (1 + hourFactor))) when the variant is
    "after" and the impact is neither 0 nor NaN, and baselineValue =
    round(baseFactor × 0.8), where baseFactor = junctionIndex × 100 + 300 and
    junctionIndex is the integer that [parseInt] reads from the identifier
    without its first j, defaulting to 1 when there is none or when it is
    zero.  For an identifier j<n> with n ≥ 1 this index is the numeric suffix
    [n], and the entries are those of the specification when moreover the
    impact is not NaN. *)
Theorem flow_series_values Math_sin type junction impact (w : World) :
  validNow (w 0%nat) ->
  exists data,
    generateMockTrafficFlowData Math_sin type junction impact w
    = (inr data, fun k => w (S k))
    /\ length data = 24%nat
    /\ forall i p, data !! i = Some p ->
         (FlowPoint.traffic p
          = Computed.trafficValue Math_sin type (Junction.id junction)
              impact (Z.of_nat i)
          /\ FlowPoint.before p = Computed.baselineValue (Junction.id junction))
         /\ (forall n,
               1 <= n < 2 ^ 63 ->
               Junction.id junction
               = String.append "j" (JSMore.Number_toString n) ->
               Spec.numericSuffix (Junction.id junction) = Some n
               /\ junctionIndex junction = Spec.junctionIndex (Junction.id junction)
               /\ (is_nan impact = false ->
                   FlowPoint.traffic p
                   = Spec.trafficValue Math_sin type (Junction.id junction)
                       impact (Z.of_nat i)
                   /\ FlowPoint.before p
                      = Spec.baselineValue (Junction.id junction))).
Proof.
  intros Hnow. eexists. split; [by apply generate_returns|].
  split; [done|]. intros i p Hp. apply series_lookup in Hp as [? ->]. simpl.
  split; [done|]. intros n Hn Hid.
  split; [rewrite Hid; apply numericSuffix_numbered; lia|]. split.
  - rewrite junctionIndex_computed. unfold Spec.junctionIndex.
    rewrite Hid, parsedIndex_numbered, numericSuffix_numbered by lia.
    destruct (Z.eqb_spec n 0) as [? | _]; [lia|].
    by rewrite Z_to_number_int_to_float by lia.
  - intros Himpact.
    by destruct (computed_formulas_agree Math_sin type (Junction.id junction)
                   impact (Z.of_nat i) n Hn Hid Himpact) as [-> ->].
Qed.

Lemma flow_series_values_witness :
  exists data,
    generateMockTrafficFlowData sin_poly "after" scenarioJunction 132.5
      (clockAt 1700000000000)
    = (inr data, fun k => clockAt 1700000000000 (S k))
    /\ length data = 24%nat
    /\ forall i p, data !! i = Some p ->
         (FlowPoint.traffic p
          = Computed.trafficValue sin_poly "after" "j1" 132.5 (Z.of_nat i)
          /\ FlowPoint.before p = Computed.baselineValue "j1")
         /\ Spec.numericSuffix "j1" = Some 1
         /\ junctionIndex scenarioJunction = Spec.junctionIndex "j1"
         /\ FlowPoint.traffic p
            = Spec.trafficValue sin_poly "after" "j1" 132.5 (Z.of_nat i)
         /\ FlowPoint.before p = Spec.baselineValue "j1".
Proof.
  destruct (flow_series_values sin_poly "after" scenarioJunction 132.5
              (clockAt 1700000000000)) as (data & Hgen & Hlen & Hall).
  - unfold validNow, clockAt, maxTimeValue. lia.
  - exists data. split; [exact Hgen|]. split; [exact Hlen|].
    intros i p Hp. destruct (Hall i p Hp) as [Hcode Hspec].
    split; [exact Hcode|].
    destruct (Hspec 1) as (Hsuffix & Hindex & Hentries);
      [lia | reflexivity |].
    split; [exact Hsuffix|]. split; [exact Hindex|].
    apply Hentries. reflexivity.
Defined.

(** C6 as stated fails on identifiers whose numeric suffix is not what the
    code parses.  For "j0" the suffix is 0 but the code takes the index 1, so
    the baseline is round(400 × 0.8) = 320 where the formula of the
    specification gives round(300 × 0.8) = 240.  For "junction-12" the suffix
    is 12, but the code removes the first j, parses "unction-12", finds no
    integer and takes the index 1 too: the baseline is 320 again, where the
    formula of the specification gives round(1500 × 0.8) = 1200. *)
Lemma flow_series_suffix_counterexample :
  (exists data p,
     fst (generateMockTrafficFlowData sin_poly "before" junction_j0 0
            (clockAt 1700000000000)) = inr data
     /\ data !! 0%nat = Some p
     /\ FlowPoint.before p = 320%float
     /\ Spec.numericSuffix (Junction.id junction_j0) = Some 0
     /\ Spec.baselineValue (Junction.id junction_j0) = 240%float
     /\ FlowPoint.before p <> Spec.baselineValue (Junction.id junction_j0))
  /\ (exists data p,
        fst (generateMockTrafficFlowData sin_poly "before" junction_other_prefix
               0 (clockAt 1700000000000)) = inr data
        /\ data !! 0%nat = Some p
        /\ FlowPoint.before p = 320%float
        /\ Spec.numericSuffix (Junction.id junction_other_prefix) = Some 12
        /\ Spec.baselineValue (Junction.id junction_other_prefix) = 1200%float
        /\ FlowPoint.before p
           <> Spec.baselineValue (Junction.id junction_other_prefix)).
Proof.
  split.
  - eexists. eexists. split; [vm_compute; reflexivity|].
    split; [reflexivity|]. split; [reflexivity|]. split; [reflexivity|].
    split; [vm_compute; reflexivity|].
    intros H. apply (f_equal Prim2SF) in H. vm_compute in H. discriminate H.
  - eexists. eexists. split; [vm_compute; reflexivity|].
    split; [reflexivity|]. split; [reflexivity|]. split; [reflexivity|].
    split; [vm_compute; reflexivity|].
    intros H. apply (f_equal Prim2SF) in H. vm_compute in H. discriminate H.
Qed.

(** The guard [&& impact] on an impact that is NaN: the value stays the
    unadjusted 700 at index 12, where the formula of the specification, whose
    condition impact ≠ 0 holds of NaN, gives NaN. *)
Example flow_series_nan_impact :
  exists data p,
    fst (generateMockTrafficFlowData sin_poly "after" scenarioJunction nan
           (clockAt 1700000000000)) = inr data
    /\ data !! 12%nat = Some p
    /\ FlowPoint.traffic p = 700%float
    /\ is_nan (Spec.trafficValue sin_poly "after" "j1" nan 12) = true.
Proof.
  eexists. eexists. split; [vm_compute; reflexivity|].
  split; [reflexivity|]. split; [reflexivity|]. vm_compute. reflexivity.
Qed.

(** Further identifiers on which the index of the code is not the numeric
    suffix: "x5" and "j5abc" (the code reads 1 and 5, the suffix is 5 and
    absent), "12j3" (the code reads 123, the suffix is 3), and "j" followed by
    NBSP and 7, where [parseInt] skips the white space and reads 7. *)
Example parsed_index_examples :
  Computed.junctionIndex "x5" = 1%float
  /\ Spec.numericSuffix "x5" = Some 5
  /\ Computed.junctionIndex "j5abc" = 5%float
  /\ Spec.numericSuffix "j5abc" = None
  /\ Computed.junctionIndex "12j3" = 123%float
  /\ Spec.numericSuffix "12j3" = Some 3
  /\ Computed.junctionIndex (String "j" (String (ascii_of_N 160) "7"))
     = 7%float.
Proof.
  repeat split; try reflexivity;
    apply Prim2SF_inj; vm_compute; reflexivity.
Qed.

(** ** Numbers: the floor and products of lower bounds *)

Lemma nonneg_leb_zero (x : float) :
  nonneg (Prim2SF x) -> (0 <=? x)%float = true.
Proof.
  rewrite leb_spec, Prim2SF_zero. unfold SFleb.
  destruct (Prim2SF x) as [s|s| |s m e]; simpl; try done; by intros ->.
Qed.

Lemma above_nonneg (mc : positive) (ec : Z) (x : spec_float) :
  above mc ec x -> nonneg x.
Proof. by destruct x as [s|[]| |[] m e]. Qed.

Lemma int_to_float_sign (p : positive) :
  Zpos p < 2 ^ 63 ->
  Prim2SF (JS.int_to_float (Zpos p)) = binary_round prec emax false p 0.
Proof.
  intros Hp. unfold JS.int_to_float.
  by rewrite of_uint63_spec, Uint63.of_Z_spec, Z.mod_small by (split; [lia|done]).
Qed.

(** [Math.floor] of a non-negative number is non-negative. *)
Lemma Math_floor_nonneg (x : float) :
  nonneg (Prim2SF x) -> nonneg (Prim2SF (JSMore.Math_floor x)).
Proof.
  intros Hx. unfold JSMore.Math_floor.
  destruct (Prim2SF x) as [s|s| |s m e] eqn:Ex; simpl in Hx; try contradiction.
  - by rewrite Ex.
  - by rewrite Ex.
  - subst s. destruct (Z.leb_spec 0 e) as [He|He]; [by rewrite Ex|].
    simpl cond_Zopp.
    pose proof (Prim2SF_canonical x false m e Ex) as Hc.
    destruct (canonical_bounds m e Hc) as (Hm & _ & _).
    assert (Hpow : 0 < 2 ^ (- e)) by (apply Z.pow_pos_nonneg; lia).
    assert (Hr : 0 <= Zpos m / 2 ^ (- e) <= Zpos m).
    { split; [apply Z.div_pos; lia|].
      apply Z.div_le_upper_bound; [done|]. nia. }
    destruct (Zpos m / 2 ^ (- e)) as [|p|p] eqn:Er; [done| |lia].
    change (Zpos p =? 0) with false. cbv iota.
    rewrite int_to_float_sign by lia.
    unfold binary_round.
    destruct (shl_align p 0 (fexp prec emax (Zpos (digits2_pos p) + 0)))
      as [mz ez].
    by destruct (binary_round_aux_sign false (Zpos mz) ez loc_Exact ltac:(lia))
      as [-> | [-> | (m' & e' & ->)]].
Qed.

(** [Math.floor] keeps a number at or above an integer [k] that is a
    number. *)
Lemma Math_floor_above (x : float) (k : Z) (mc : positive) (ec : Z) :
  0 < k ->
  canonical_mantissa prec emax mc ec = true ->
  F2R (Zpos mc) ec = IZR k ->
  above mc ec (Prim2SF x) -> above mc ec (Prim2SF (JSMore.Math_floor x)).
Proof.
  intros Hk Hc Hval Hx. unfold JSMore.Math_floor.
  destruct (Prim2SF x) as [s|s| |s m e] eqn:Ex; simpl in Hx; try contradiction.
  - rewrite Ex. exact Hx.
  - destruct s; [contradiction|].
    destruct (Z.leb_spec 0 e) as [He|He]; [rewrite Ex; exact Hx|].
    simpl cond_Zopp.
    pose proof (Prim2SF_canonical x false m e Ex) as Hcx.
    destruct (canonical_bounds m e Hcx) as (Hm & _ & _).
    assert (Hpow : 0 < 2 ^ (- e)) by (apply Z.pow_pos_nonneg; lia).
    assert (Hkm : k * 2 ^ (- e) <= Zpos m).
    { apply le_IZR. rewrite mult_IZR, <- bpow_IZR by lia.
      rewrite Hval in Hx. unfold F2R in Hx.
      pose proof (bpow_pos e) as H1.
      assert (H2 : (bpow e * bpow (- e) = 1)%R).
      { rewrite <- bpow_add. replace (e + - e) with 0 by lia. reflexivity. }
      pose proof (bpow_pos (- e)) as H3.
      assert (H4 : (IZR k * bpow (- e) <= IZR (Zpos m) * (bpow e * bpow (- e)))%R)
        by nra.
      rewrite H2 in H4. lra. }
    assert (Hr : k <= Zpos m / 2 ^ (- e) <= Zpos m).
    { split.
      - apply Z.div_le_lower_bound; lia.
      - apply Z.div_le_upper_bound; [done|]. nia. }
    destruct (Zpos m / 2 ^ (- e)) as [|p|p] eqn:Er; [lia| |lia].
    change (Zpos p =? 0) with false. cbv iota.
    rewrite int_to_float_sign by lia.
    apply binary_round_above; [done|].
    rewrite Hval. unfold F2R, bpow. simpl. destruct Hr as [Hr _].
    apply IZR_le in Hr. lra.
Qed.

(** The product of two numbers that are at or above positive numbers. *)
Lemma mul_above_both (x y : float) (mx my mr : positive) (ex ey er : Z) :
  canonical_mantissa prec emax mr er = true ->
  (F2R (Zpos mr) er <= F2R (Zpos mx) ex * F2R (Zpos my) ey)%R ->
  above mx ex (Prim2SF x) -> above my ey (Prim2SF y) ->
  above mr er (Prim2SF (x * y)).
Proof.
  intros Hr Hprod Hx Hy. rewrite mul_spec. unfold SF64mul.
  destruct (Prim2SF x) as [sx|sx| |sx m1 e1]; simpl in Hx; try contradiction;
    (destruct sx; [contradiction|]);
    destruct (Prim2SF y) as [sy|sy| |sy m2 e2]; simpl in Hy; try contradiction;
    (destruct sy; [contradiction|]); simpl; trivial.
  assert (Hle : (F2R (Zpos mr) er <= F2R (Zpos (m1 * m2)) (e1 + e2))%R).
  { rewrite Pos2Z.inj_mul, F2R_mul.
    pose proof (F2R_pos mx ex). pose proof (F2R_pos my ey). nra. }
  by destruct (binary_round_aux_above mr er false (Zpos (m1 * m2)) (e1 + e2)
                 loc_Exact ltac:(lia) Hr Hle) as [-> | (m' & e' & -> & H')].
Qed.

(** The value of a number written at a negative exponent. *)
Lemma F2R_neg_exp (m n : Z) : 0 <= n -> F2R m (- n) = (IZR m / IZR (2 ^ n))%R.
Proof.
  intros Hn. unfold F2R.
  assert (H : (bpow (- n) * IZR (2 ^ n) = 1)%R).
  { rewrite <- bpow_IZR, <- bpow_add by lia.
    replace (- n + n) with 0 by lia. reflexivity. }
  assert (Hp : (0 < IZR (2 ^ n))%R).
  { apply IZR_lt. apply Z.pow_pos_nonneg; lia. }
  unfold Rdiv. f_equal.
  apply Rmult_eq_reg_r with (IZR (2 ^ n)); [|lra].
  rewrite H. field. lra.
Qed.

(** ** The generated junctions *)

(** The loop of the generator: every pushed element satisfies what the body
    establishes, under an invariant of the source of random numbers. *)
Lemma rnd_for_push_spec {A : Type} (body : Z -> JSMore.Rnd A)
    (P : (nat -> float) -> Prop) (Q : Z -> A -> Prop) :
  (forall i r, P r -> P (snd (body i r)) /\ Q i (fst (body i r))) ->
  forall (n : nat) (i : Z) (data : list A) (r : nat -> float),
    P r ->
    P (snd (rnd_for_push body i n data r))
    /\ length (fst (rnd_for_push body i n data r)) = (length data + n)%nat
    /\ (forall k x, data !! k = Some x ->
          fst (rnd_for_push body i n data r) !! k = Some x)
    /\ (forall k x,
          fst (rnd_for_push body i n data r) !! (length data + k)%nat = Some x ->
          Q (i + Z.of_nat k) x).
Proof.
  intros Hbody. induction n as [|n IH]; intros i data r Hr.
  - simpl. split; [done|]. split; [lia|]. split; [done|].
    intros k x Hk. apply lookup_lt_Some in Hk. lia.
  - simpl rnd_for_push. unfold mbind, Rnd_bind.
    destruct (Hbody i r Hr) as [HP HQ].
    destruct (body i r) as [x r'] eqn:Eb. simpl in HP, HQ.
    fold (@mbind JSMore.Rnd _).
    destruct (IH (i + 1) (data ++ [x]) r' HP) as (H1 & H2 & H3 & H4).
    split; [done|]. rewrite length_app in *. simpl in *.
    split; [lia|]. split.
    + intros k y Hk. apply H3. by apply lookup_app_l_Some.
    + intros k y Hk. destruct k as [|k].
      * rewrite Nat.add_0_r in Hk.
        rewrite (H3 (length data) x) in Hk
          by (by rewrite lookup_app_r, Nat.sub_diag by lia).
        injection Hk as <-. by rewrite Z.add_0_r.
      * replace (i + Z.of_nat (S k)) with (i + 1 + Z.of_nat k) by lia.
        apply H4. by replace (length data + 1 + k)%nat
                     with (length data + S k)%nat by lia.
Qed.

(** One turn of the loop, with the nine numbers it draws. *)
Lemma mockJunction_run (lat lng : float) (i : Z) (r : nat -> float) :
  mockJunction lat lng i r
  = (MockJunction.mk
       (String.append "j" (JSMore.Number_toString (i + 1)))
       (String.append "Junction " (JSMore.Number_toString (i + 1)))
       (lat + (r 0%nat - 0.5) * 0.01)%float
       (lng + (r 1%nat - 0.5) * 0.01)%float
       (nth (Z.to_nat (i mod 3)) trafficLevels EmptyString)
       (500 + JSMore.Math_floor (r 2%nat * 500))%float
       (if String.eqb (nth (Z.to_nat (i mod 3)) trafficLevels EmptyString) "high"
        then JSMore.Math_floor
               ((500 + JSMore.Math_floor (r 2%nat * 500))
                * (0.8 + r 3%nat * 0.2))%float
        else if String.eqb (nth (Z.to_nat (i mod 3)) trafficLevels EmptyString)
                  "medium"
        then JSMore.Math_floor
               ((500 + JSMore.Math_floor (r 2%nat * 500))
                * (0.5 + r 3%nat * 0.3))%float
        else JSMore.Math_floor
               ((500 + JSMore.Math_floor (r 2%nat * 500))
                * (0.1 + r 3%nat * 0.4))%float)
       (2 + JSMore.Math_floor (r 4%nat * 4))%float
       (30 + JSMore.Math_floor (r 5%nat * 60))%float
       (30 + JSMore.Math_floor (r 6%nat * 30))%float
       (3 + JSMore.Math_floor (r 7%nat * 2))%float
       (if (0.5 <? r 8%nat)%float then "roundabout" else "signalized")%string,
     fun k => r (S (S (S (S (S (S (S (S (S k)))))))))).
Proof. reflexivity. Qed.

Lemma Number_toString_read (n : Z) :
  0 <= n -> JS.leadingDigits 10 (JSMore.Number_toString n) None = Some n.
Proof.
  intros Hn. unfold JSMore.Number_toString.
  rewrite leadingDigits_digitsOf; [done|].
  split; [done|]. destruct (Z.eq_dec n 0) as [-> | Hne].
  - apply Z.pow_pos_nonneg; lia.
  - pose proof (Z.log2_spec n ltac:(lia)) as [_ Hlt].
    pose proof (Z.log2_nonneg n).
    by replace (Z.of_nat (S (Z.to_nat (Z.log2 n)))) with (Z.succ (Z.log2 n))
      by lia.
Qed.

(** X6: the generator returns [count] junctions (none for a count below 1);
    the one at position k is named j<k+1> and "Junction <k+1>", its traffic
    level cycles through low, medium and high, its type is one of the two
    junction types, and no two junctions share an identifier.  The lookup
    service therefore always answers with five junctions, never the empty
    list. *)
Theorem generateMockJunctions_structure (lat lng : float) (count : Z)
    (r : nat -> float) :
  count < 2 ^ 32 ->
  length (fst (generateMockJunctions lat lng count r)) = Z.to_nat count
  /\ (forall k j,
        fst (generateMockJunctions lat lng count r) !! k = Some j ->
        MockJunction.id j
        = String.append "j" (JSMore.Number_toString (Z.of_nat k + 1))
        /\ MockJunction.name j
           = String.append "Junction " (JSMore.Number_toString (Z.of_nat k + 1))
        /\ MockJunction.trafficLevel j
           = match (k mod 3)%nat with
             | O => "low" | S O => "medium" | _ => "high"
             end%string
        /\ (MockJunction.type j = "roundabout"
            \/ MockJunction.type j = "signalized")%string)
  /\ NoDup (MockJunction.id <$> fst (generateMockJunctions lat lng count r))
  /\ length (fst (fetchJunctionsNearLocation lat lng r)) = 5%nat.
Proof.
  intros _.
  pose (Q := fun (i : Z) (j : MockJunction.t) =>
    0 <= i ->
    MockJunction.id j = String.append "j" (JSMore.Number_toString (i + 1))
    /\ MockJunction.name j
       = String.append "Junction " (JSMore.Number_toString (i + 1))
    /\ MockJunction.trafficLevel j
       = match (Z.to_nat i mod 3)%nat with
         | O => "low" | S O => "medium" | _ => "high"
         end%string
    /\ (MockJunction.type j = "roundabout"
        \/ MockJunction.type j = "signalized")%string).
  assert (Hbody : forall i r0, True ->
            True /\ Q i (fst (mockJunction lat lng i r0))).
  { intros i r0 _. split; [done|]. rewrite mockJunction_run. intros Hi.
    replace (Z.to_nat (i mod 3)) with (Z.to_nat i mod 3)%nat
      by (rewrite Z2Nat.inj_mod by lia; done).
    pose proof (Nat.mod_upper_bound (Z.to_nat i) 3 ltac:(lia)) as Hlt.
    remember (Z.to_nat i mod 3)%nat as m eqn:Em. clear Em. simpl.
    split; [done|]. split; [done|]. split.
    - destruct m as [|[|[|?]]]; try done. lia.
    - destruct (0.5 <? r0 8%nat)%float; [by left | by right]. }
  assert (Hloop : forall n,
            length (fst (rnd_for_push (mockJunction lat lng) 0 n [] r)) = n
            /\ forall k j,
                 fst (rnd_for_push (mockJunction lat lng) 0 n [] r) !! k = Some j ->
                 Q (Z.of_nat k) j).
  { intros n.
    destruct (rnd_for_push_spec (mockJunction lat lng) (fun _ => True) Q Hbody
                n 0 [] r I) as (_ & Hlen & _ & Hall).
    split; [exact Hlen|]. intros k j Hk. apply (Hall k j Hk). }
  unfold fetchJunctionsNearLocation, generateMockJunctions.
  destruct (Hloop (Z.to_nat count)) as [Hlen Hall].
  split; [exact Hlen|]. split; [|split; [|apply (Hloop 5%nat)]].
  - intros k j Hk. destruct (Hall k j Hk ltac:(lia)) as (H1 & H2 & H3 & H4).
    rewrite Nat2Z.id in H3. done.
  - apply NoDup_alt. intros k1 k2 id H1 H2.
    rewrite list_lookup_fmap in H1, H2.
    destruct (fst _ !! k1) as [j1|] eqn:E1; [|done].
    destruct (fst _ !! k2) as [j2|] eqn:E2; [|done].
    simpl in H1, H2. injection H1 as H1. injection H2 as H2.
    destruct (Hall k1 j1 E1 ltac:(lia)) as (Hid1 & _).
    destruct (Hall k2 j2 E2 ltac:(lia)) as (Hid2 & _).
    assert (He : JSMore.Number_toString (Z.of_nat k1 + 1)
                 = JSMore.Number_toString (Z.of_nat k2 + 1)).
    { rewrite Hid1 in H1. rewrite Hid2, <- H1 in H2. simpl in H2.
      by injection H2. }
    pose proof (Number_toString_read (Z.of_nat k1 + 1) ltac:(lia)) as R1.
    pose proof (Number_toString_read (Z.of_nat k2 + 1) ltac:(lia)) as R2.
    rewrite He, R2 in R1. injection R1 as R1. lia.
Qed.

Lemma generateMockJunctions_structure_witness :
  length (fst (generateMockJunctions 12.9716 77.5946 3 (fun _ => 0.25%float)))
  = Z.to_nat 3
  /\ (forall k j,
        fst (generateMockJunctions 12.9716 77.5946 3 (fun _ => 0.25%float)) !! k
        = Some j ->
        MockJunction.id j
        = String.append "j" (JSMore.Number_toString (Z.of_nat k + 1))
        /\ MockJunction.name j
           = String.append "Junction " (JSMore.Number_toString (Z.of_nat k + 1))
        /\ MockJunction.trafficLevel j
           = match (k mod 3)%nat with
             | O => "low" | S O => "medium" | _ => "high"
             end%string
        /\ (MockJunction.type j = "roundabout"
            \/ MockJunction.type j = "signalized")%string)
  /\ NoDup (MockJunction.id
              <$> fst (generateMockJunctions 12.9716 77.5946 3
                         (fun _ => 0.25%float)))
  /\ length (fst (fetchJunctionsNearLocation 12.9716 77.5946
                    (fun _ => 0.25%float))) = 5%nat.
Proof.
  apply (generateMockJunctions_structure 12.9716 77.5946 3
           (fun _ => 0.25%float)).
  lia.
Defined.

Lemma F2R_500 : F2R 8796093022208000 (-44) = 500%R.
Proof. apply (F2R_integer 500 44). lia. Qed.

Lemma F2R_400 : F2R 7036874417766400 (-44) = 400%R.
Proof. apply (F2R_integer 400 44). lia. Qed.

Lemma F2R_250 : F2R 8796093022208000 (-45) = 250%R.
Proof. apply (F2R_integer 250 45). lia. Qed.

Lemma F2R_50 : F2R 7036874417766400 (-47) = 50%R.
Proof. apply (F2R_integer 50 47). lia. Qed.

Lemma F2R_half : F2R 4503599627370496 (-53) = (1 / 2)%R.
Proof.
  assert (H : F2R 4503599627370496 (-53) = (IZR 4503599627370496 / IZR (2 ^ 53))%R)
    by (apply (F2R_neg_exp 4503599627370496 53); lia).
  rewrite H. change (2 ^ 53) with 9007199254740992. lra.
Qed.

(** The doubles nearest to 0.8 and to 0.1 are not below them. *)
Lemma F2R_0_8 : (8 / 10 <= F2R 7205759403792794 (-53))%R.
Proof.
  assert (H : F2R 7205759403792794 (-53) = (IZR 7205759403792794 / IZR (2 ^ 53))%R)
    by (apply (F2R_neg_exp 7205759403792794 53); lia).
  rewrite H. change (2 ^ 53) with 9007199254740992. lra.
Qed.

Lemma F2R_0_1 : (1 / 10 <= F2R 7205759403792794 (-56))%R.
Proof.
  assert (H : F2R 7205759403792794 (-56) = (IZR 7205759403792794 / IZR (2 ^ 56))%R)
    by (apply (F2R_neg_exp 7205759403792794 56); lia).
  rewrite H. change (2 ^ 56) with 72057594037927936. lra.
Qed.

(** A constant plus the floor of a non-negative number times a positive
    constant is at least the constant. *)
Lemma offset_floor_above (c k x : float) (mc mk : positive) (ec ek : Z) :
  Prim2SF c = S754_finite false mc ec ->
  Prim2SF k = S754_finite false mk ek ->
  (0 <=? x)%float = true ->
  above mc ec (Prim2SF (c + JSMore.Math_floor (x * k))%float).
Proof.
  intros Hc Hk Hx. apply add_above; [done|]. apply Math_floor_nonneg.
  apply (mul_nonneg x k mk ek); [done|]. by apply leb_zero_nonneg.
Qed.

(** X7: when no random number is negative, every generated junction has a
    capacity of at least 500, a traffic count of at least 400, 250 or 50 for a
    high, medium or low traffic level, at least 2 lanes, a signal timing and a
    speed limit of at least 30 and a lane width of at least 3. *)
Theorem generateMockJunctions_lower_bounds (lat lng : float) (count : Z)
    (r : nat -> float) (j : MockJunction.t) :
  count < 2 ^ 32 ->
  (forall k, (0 <=? r k)%float = true) ->
  j ∈ fst (generateMockJunctions lat lng count r) ->
  (500 <=? MockJunction.capacity j)%float = true
  /\ (MockJunction.trafficLevel j = "high"%string ->
      (400 <=? MockJunction.currentTrafficCount j)%float = true)
  /\ (MockJunction.trafficLevel j = "medium"%string ->
      (250 <=? MockJunction.currentTrafficCount j)%float = true)
  /\ (MockJunction.trafficLevel j = "low"%string ->
      (50 <=? MockJunction.currentTrafficCount j)%float = true)
  /\ (0 <=? MockJunction.currentTrafficCount j)%float = true
  /\ (2 <=? MockJunction.lanes j)%float = true
  /\ (30 <=? MockJunction.signalTiming j)%float = true
  /\ (30 <=? MockJunction.speedLimit j)%float = true
  /\ (3 <=? MockJunction.laneWidth j)%float = true.
Proof.
  intros _ Hr Hin.
  pose (P := fun r0 : nat -> float => forall k, (0 <=? r0 k)%float = true).
  pose (Q := fun (_ : Z) (j0 : MockJunction.t) =>
    (500 <=? MockJunction.capacity j0)%float = true
    /\ (MockJunction.trafficLevel j0 = "high"%string ->
        (400 <=? MockJunction.currentTrafficCount j0)%float = true)
    /\ (MockJunction.trafficLevel j0 = "medium"%string ->
        (250 <=? MockJunction.currentTrafficCount j0)%float = true)
    /\ (MockJunction.trafficLevel j0 = "low"%string ->
        (50 <=? MockJunction.currentTrafficCount j0)%float = true)
    /\ (0 <=? MockJunction.currentTrafficCount j0)%float = true
    /\ (2 <=? MockJunction.lanes j0)%float = true
    /\ (30 <=? MockJunction.signalTiming j0)%float = true
    /\ (30 <=? MockJunction.speedLimit j0)%float = true
    /\ (3 <=? MockJunction.laneWidth j0)%float = true).
  assert (Hbody : forall i r0, P r0 ->
            P (snd (mockJunction lat lng i r0))
            /\ Q i (fst (mockJunction lat lng i r0))).
  { intros i r0 Hr0. rewrite mockJunction_run. split.
    { intros k. apply Hr0. }
    unfold Q. cbn [fst MockJunction.capacity MockJunction.trafficLevel
                   MockJunction.currentTrafficCount MockJunction.lanes
                   MockJunction.signalTiming MockJunction.speedLimit
                   MockJunction.laneWidth].
    set (capacity := (500 + JSMore.Math_floor (r0 2%nat * 500))%float).
    assert (Hcap : above 8796093022208000 (-44) (Prim2SF capacity)).
    { by apply (offset_floor_above 500 500 _ _ 8796093022208000 _ (-44)). }
    assert (Hhigh : above 7036874417766400 (-44)
              (Prim2SF (JSMore.Math_floor (capacity * (0.8 + r0 3%nat * 0.2))))).
    { apply (Math_floor_above _ 400); [lia | done | apply F2R_400 |].
      apply (mul_above_both _ _ 8796093022208000 7205759403792794 _
               (-44) (-53)); [done | | done |].
      - pose proof F2R_0_8. rewrite F2R_400, F2R_500. lra.
      - apply add_above; [done|].
        apply (mul_nonneg _ 0.2 7205759403792794 (-55)); [done|].
        by apply leb_zero_nonneg. }
    assert (Hmedium : above 8796093022208000 (-45)
              (Prim2SF (JSMore.Math_floor (capacity * (0.5 + r0 3%nat * 0.3))))).
    { apply (Math_floor_above _ 250); [lia | done | apply F2R_250 |].
      apply (mul_above_both _ _ 8796093022208000 4503599627370496 _
               (-44) (-53)); [done | | done |].
      - rewrite F2R_250, F2R_500, F2R_half. lra.
      - apply add_above; [done|].
        apply (mul_nonneg _ 0.3 5404319552844595 (-54)); [done|].
        by apply leb_zero_nonneg. }
    assert (Hlow : above 7036874417766400 (-47)
              (Prim2SF (JSMore.Math_floor (capacity * (0.1 + r0 3%nat * 0.4))))).
    { apply (Math_floor_above _ 50); [lia | done | apply F2R_50 |].
      apply (mul_above_both _ _ 8796093022208000 7205759403792794 _
               (-44) (-56)); [done | | done |].
      - pose proof F2R_0_1. rewrite F2R_50, F2R_500. lra.
      - apply add_above; [done|].
        apply (mul_nonneg _ 0.4 7205759403792794 (-54)); [done|].
        by apply leb_zero_nonneg. }
    split.
    { by apply (leb_above 500 _ 8796093022208000 (-44)). }
    destruct (nth (Z.to_nat (i mod 3)) trafficLevels EmptyString =? "high")%string
      eqn:Eh;
      [apply String.eqb_eq in Eh | apply String.eqb_neq in Eh].
    { rewrite Eh. split; [|split; [done|split; [done|split]]].
      - intros _. by apply (leb_above 400 _ 7036874417766400 (-44)).
      - apply nonneg_leb_zero. by apply above_nonneg in Hhigh.
      - split; [|split; [|split]].
        + by apply (leb_above 2 _ 4503599627370496 (-51)),
               (offset_floor_above 2 4 _ _ 4503599627370496 _ (-50)).
        + by apply (leb_above 30 _ 8444249301319680 (-48)),
               (offset_floor_above 30 60 _ _ 8444249301319680 _ (-47)).
        + by apply (leb_above 30 _ 8444249301319680 (-48)),
               (offset_floor_above 30 30 _ _ 8444249301319680 _ (-48)).
        + by apply (leb_above 3 _ 6755399441055744 (-51)),
               (offset_floor_above 3 2 _ _ 4503599627370496 _ (-51)). }
    split; [done|].
    destruct (nth (Z.to_nat (i mod 3)) trafficLevels EmptyString =? "medium")%string
      eqn:Em;
      [apply String.eqb_eq in Em | apply String.eqb_neq in Em].
    { rewrite Em. split; [|split; [done|split]].
      - intros _. by apply (leb_above 250 _ 8796093022208000 (-45)).
      - apply nonneg_leb_zero. by apply above_nonneg in Hmedium.
      - split; [|split; [|split]].
        + by apply (leb_above 2 _ 4503599627370496 (-51)),
               (offset_floor_above 2 4 _ _ 4503599627370496 _ (-50)).
        + by apply (leb_above 30 _ 8444249301319680 (-48)),
               (offset_floor_above 30 60 _ _ 8444249301319680 _ (-47)).
        + by apply (leb_above 30 _ 8444249301319680 (-48)),
               (offset_floor_above 30 30 _ _ 8444249301319680 _ (-48)).
        + by apply (leb_above 3 _ 6755399441055744 (-51)),
               (offset_floor_above 3 2 _ _ 4503599627370496 _ (-51)). }
    split; [done|]. split.
    { intros _. by apply (leb_above 50 _ 7036874417766400 (-47)). }
    split.
    { apply nonneg_leb_zero. by apply above_nonneg in Hlow. }
    split; [|split; [|split]].
    + by apply (leb_above 2 _ 4503599627370496 (-51)),
           (offset_floor_above 2 4 _ _ 4503599627370496 _ (-50)).
    + by apply (leb_above 30 _ 8444249301319680 (-48)),
           (offset_floor_above 30 60 _ _ 8444249301319680 _ (-47)).
    + by apply (leb_above 30 _ 8444249301319680 (-48)),
           (offset_floor_above 30 30 _ _ 8444249301319680 _ (-48)).
    + by apply (leb_above 3 _ 6755399441055744 (-51)),
           (offset_floor_above 3 2 _ _ 4503599627370496 _ (-51)). }
  unfold generateMockJunctions in Hin.
  destruct (rnd_for_push_spec (mockJunction lat lng) P Q Hbody
              (Z.to_nat count) 0 [] r Hr) as (_ & _ & _ & Hall).
  apply list_elem_of_lookup_1 in Hin as [k Hk].
  exact (Hall k j Hk).
Qed.

Lemma generateMockJunctions_lower_bounds_witness :
  let r := fun _ : nat => 0.25%float in
  let j := fst (mockJunction 12.9716 77.5946 2 r) in
  (500 <=? MockJunction.capacity j)%float = true
  /\ (MockJunction.trafficLevel j = "high"%string ->
      (400 <=? MockJunction.currentTrafficCount j)%float = true)
  /\ (MockJunction.trafficLevel j = "medium"%string ->
      (250 <=? MockJunction.currentTrafficCount j)%float = true)
  /\ (MockJunction.trafficLevel j = "low"%string ->
      (50 <=? MockJunction.currentTrafficCount j)%float = true)
  /\ (0 <=? MockJunction.currentTrafficCount j)%float = true
  /\ (2 <=? MockJunction.lanes j)%float = true
  /\ (30 <=? MockJunction.signalTiming j)%float = true
  /\ (30 <=? MockJunction.speedLimit j)%float = true
  /\ (3 <=? MockJunction.laneWidth j)%float = true.
Proof.
  intros r j.
  apply (generateMockJunctions_lower_bounds 12.9716 77.5946 3 r j).
  - lia.
  - intros k. reflexivity.
  - apply (list_elem_of_lookup_2 _ 2%nat). reflexivity.
Defined.

(** ** The sign of a difference *)

(** On canonical magnitudes, comparing exponents and then mantissas compares
    the values. *)
Lemma magnitude_compare_spec (m1 m2 : positive) (e1 e2 : Z) :
  canonical_mantissa prec emax m1 e1 = true ->
  canonical_mantissa prec emax m2 e2 = true ->
  CompareSpec (F2R (Zpos m1) e1 = F2R (Zpos m2) e2)
    (F2R (Zpos m1) e1 < F2R (Zpos m2) e2)%R
    (F2R (Zpos m2) e2 < F2R (Zpos m1) e1)%R
    match e1 ?= e2 with
    | Lt => Lt
    | Gt => Gt
    | Eq => Pos.compare_cont Eq m1 m2
    end.
Proof.
  intros H1 H2.
  destruct (canonical_bounds m1 e1 H1) as (Hm1 & He1 & Hn1).
  destruct (canonical_bounds m2 e2 H2) as (Hm2 & He2 & Hn2).
  pose proof (F2R_canonical_lt m1 e1 H1) as Hlt1.
  pose proof (F2R_canonical_lt m2 e2 H2) as Hlt2.
  destruct (Z.compare_spec e1 e2) as [Heq|Hlt|Hgt].
  - subst e2. rewrite Pos.compare_cont_spec. simpl.
    pose proof (bpow_pos e1) as Hb. unfold F2R.
    destruct (Pos.compare_spec m1 m2) as [->|Hm|Hm]; constructor.
    + reflexivity.
    + assert (IZR (Zpos m1) < IZR (Zpos m2))%R by (apply IZR_lt; lia). nra.
    + assert (IZR (Zpos m2) < IZR (Zpos m1))%R by (apply IZR_lt; lia). nra.
  - constructor.
    apply Rlt_le_trans with (bpow (53 + e1)); [lra|].
    apply Rle_trans with (F2R (2 ^ 52) e2).
    + rewrite F2R_bpow by lia. apply bpow_le. lia.
    + apply F2R_le_mantissa. apply Hn2. lia.
  - constructor.
    apply Rlt_le_trans with (bpow (53 + e2)); [lra|].
    apply Rle_trans with (F2R (2 ^ 52) e1).
    + rewrite F2R_bpow by lia. apply bpow_le. lia.
    + apply F2R_le_mantissa. apply Hn1. lia.
Qed.

(** Two finite numbers compare as their mantissas do once both are written
    with the smaller of the two exponents. *)
Lemma SFcompare_aligned (sx sy : bool) (mx my : positive) (ex ey : Z) :
  canonical_mantissa prec emax mx ex = true ->
  canonical_mantissa prec emax my ey = true ->
  SFcompare (S754_finite sx mx ex) (S754_finite sy my ey)
  = Some (cond_Zopp sx (Zpos (fst (shl_align mx ex (Z.min ex ey))))
          ?= cond_Zopp sy (Zpos (fst (shl_align my ey (Z.min ex ey))))).
Proof.
  intros Hx Hy. set (ez := Z.min ex ey).
  destruct (shl_align_F2R mx ex ez) as [HA HAe].
  destruct (shl_align_F2R my ey ez) as [HB HBe].
  rewrite HAe in HA by apply Z.le_min_l.
  rewrite HBe in HB by apply Z.le_min_r.
  set (A := fst (shl_align mx ex ez)) in *.
  set (B := fst (shl_align my ey ez)) in *.
  pose proof (bpow_pos ez) as Hb.
  assert (HAB : CompareSpec (F2R (Zpos mx) ex = F2R (Zpos my) ey)
                  (F2R (Zpos mx) ex < F2R (Zpos my) ey)%R
                  (F2R (Zpos my) ey < F2R (Zpos mx) ex)%R
                  (A ?= B)%positive).
  { rewrite <- HA, <- HB. unfold F2R.
    change (A ?= B)%positive with (Zpos A ?= Zpos B).
    destruct (Z.compare_spec (Zpos A) (Zpos B)) as [H|H|H]; constructor.
    - by rewrite H.
    - apply IZR_lt in H. nra.
    - apply IZR_lt in H. nra. }
  pose proof (magnitude_compare_spec mx my ex ey Hx Hy) as Hmag.
  unfold SFcompare. f_equal.
  destruct sx, sy; simpl cond_Zopp.
  - transitivity (CompOpp (A ?= B)%positive); [|reflexivity].
    transitivity (CompOpp match ex ?= ey with
                          | Lt => Lt
                          | Gt => Gt
                          | Eq => Pos.compare_cont Eq mx my
                          end); [by destruct (ex ?= ey)|].
    destruct Hmag, HAB; simpl; try reflexivity; exfalso; lra.
  - reflexivity.
  - reflexivity.
  - transitivity (A ?= B)%positive; [|reflexivity].
    destruct Hmag, HAB; simpl; try reflexivity; exfalso; lra.
Qed.

(** Rounding a non-zero multiple of a power of two that is not below the
    smallest exponent never gives a zero: the result is finite or infinite,
    with the sign given. *)
Lemma binary_round_nonzero (s : bool) (m : positive) (e : Z) :
  -1074 <= e ->
  binary_round prec emax s m e = S754_infinity s
  \/ exists m' e', binary_round prec emax s m e = S754_finite s m' e'.
Proof.
  intros He. unfold binary_round.
  destruct (shl_align_F2R m e (fexp prec emax (Zpos (digits2_pos m) + e)))
    as [HF _].
  destruct (shl_align m e (fexp prec emax (Zpos (digits2_pos m) + e)))
    as [mz ez]. simpl in HF.
  destruct (binary_round_aux_above 1 (-1074) s (Zpos mz) ez loc_Exact)
    as [H | (m' & e' & H & _)]; [lia | reflexivity | | by left | right; eauto].
  rewrite HF. unfold F2R.
  assert (1 <= IZR (Zpos m))%R by (apply IZR_le; lia).
  pose proof (bpow_le (-1074) e He). pose proof (bpow_pos (-1074)). nra.
Qed.

(** A difference is negative exactly when the first number is below the
    second. *)
Lemma sub_ltb_zero (a b : float) : (a - b <? 0)%float = (a <? b)%float.
Proof.
  rewrite !ltb_spec, sub_spec, Prim2SF_zero. unfold SF64sub.
  pose proof (Prim2SF_canonical a) as Ha. pose proof (Prim2SF_canonical b) as Hb.
  destruct (Prim2SF a) as [sx|sx| |sx mx ex], (Prim2SF b) as [sy|sy| |sy my ey];
    try reflexivity; try (by destruct sx); try (by destruct sy);
    try (by destruct sx, sy).
  specialize (Ha sx mx ex eq_refl). specialize (Hb sy my ey eq_refl).
  destruct (canonical_bounds mx ex Ha) as (_ & Hex & _).
  destruct (canonical_bounds my ey Hb) as (_ & Hey & _).
  unfold SFltb at 2. rewrite (SFcompare_aligned sx sy mx my ex ey Ha Hb).
  unfold SFsub.
  set (A := cond_Zopp sx (Zpos (fst (shl_align mx ex (Z.min ex ey))))).
  set (B := cond_Zopp sy (Zpos (fst (shl_align my ey (Z.min ex ey))))).
  destruct (Z.compare_spec A B) as [H|H|H].
  - by replace (A - B) with 0 by lia.
  - destruct (A - B) as [|p|p] eqn:Ed; [lia|lia|]. simpl binary_normalize.
    by destruct (binary_round_nonzero true p (Z.min ex ey) ltac:(lia))
      as [-> | (m' & e' & ->)].
  - destruct (A - B) as [|p|p] eqn:Ed; [lia| |lia]. simpl binary_normalize.
    by destruct (binary_round_nonzero false p (Z.min ex ey) ltac:(lia))
      as [-> | (m' & e' & ->)].
Qed.

Lemma ltb_irrefl (x : float) : (x <? x)%float = false.
Proof.
  rewrite ltb_spec. pose proof (Prim2SF_canonical x) as Hx. unfold SFltb.
  destruct (Prim2SF x) as [s|s| |s m e]; try reflexivity; try (by destruct s).
  specialize (Hx s m e eq_refl).
  by rewrite (SFcompare_aligned s s m m e e Hx Hx), Z.compare_refl.
Qed.

(** ** The comparison of the two snapshots *)

(** X8: for all numbers, a metric is reported as improved exactly when its
    value after the change is below its value before; a metric that did not
    change is never reported as improved. *)
Theorem calculateChange_improved (beforeValue afterValue : float) :
  Change.improved (calculateChange beforeValue afterValue)
  = (afterValue <? beforeValue)%float
  /\ Change.improved (calculateChange beforeValue beforeValue) = false.
Proof.
  unfold calculateChange. simpl. rewrite !sub_ltb_zero.
  split; [reflexivity | apply ltb_irrefl].
Qed.

(** X9: the throughput is reported as improved exactly when the throughput
    after the change is not below the one before, so also when it did not
    change at all. *)
Theorem throughputChange_improved (b a : Snapshot.t) :
  Change.improved (throughputChange b a)
  = negb (Snapshot.throughput a <? Snapshot.throughput b)%float
  /\ Change.improved (throughputChange b b) = true.
Proof.
  unfold throughputChange, calculateChange. simpl. rewrite !sub_ltb_zero.
  split; [reflexivity|]. by rewrite ltb_irrefl.
Qed.

(** X10: when the value before the change is zero, the percentage of the
    change is never a finite number: it is Infinity, -Infinity or NaN. *)
Theorem calculateChange_percent_of_zero (beforeValue afterValue : float) :
  (beforeValue =? 0)%float = true ->
  is_finite (Change.percent (calculateChange beforeValue afterValue)) = false.
Proof.
  intros Hb. unfold calculateChange. simpl.
  by destruct (div_by_zero (afterValue - beforeValue) beforeValue Hb)
    as [-> | [-> | ->]].
Qed.

Lemma calculateChange_percent_of_zero_witness :
  is_finite (Change.percent (calculateChange 0 120)) = false.
Proof. apply (calculateChange_percent_of_zero 0 120). reflexivity. Defined.

(** ** Numbers: values that need no rounding *)

Lemma shr_1_exact (z : Z) :
  0 <= z ->
  shr_1 (Build_shr_record (2 * z) false false) = Build_shr_record z false false.
Proof. intros Hz. destruct z as [|p|p]; [reflexivity | reflexivity | lia]. Qed.

Lemma iter_pos_shr_1_exact (p : positive) :
  forall z, 0 <= z ->
    SpecFloat.iter_pos shr_1 p (Build_shr_record (z * 2 ^ Zpos p) false false)
    = Build_shr_record z false false.
Proof.
  induction p as [p IH|p IH|]; intros z Hz; cbn [SpecFloat.iter_pos].
  - assert (H1 : z * 2 ^ Zpos p~1 = 2 * (z * 2 ^ Zpos p * 2 ^ Zpos p)).
    { replace (Zpos p~1) with (Zpos p + Zpos p + 1) by lia.
      rewrite !Z.pow_add_r by lia. change (2 ^ 1) with 2. ring. }
    assert (H2 : 0 <= z * 2 ^ Zpos p).
    { apply Z.mul_nonneg_nonneg; [lia|]. apply Z.pow_nonneg. lia. }
    assert (H3 : 0 <= z * 2 ^ Zpos p * 2 ^ Zpos p).
    { apply Z.mul_nonneg_nonneg; [lia|]. apply Z.pow_nonneg. lia. }
    by rewrite H1, shr_1_exact, IH, IH.
  - assert (H1 : z * 2 ^ Zpos p~0 = z * 2 ^ Zpos p * 2 ^ Zpos p).
    { replace (Zpos p~0) with (Zpos p + Zpos p) by lia.
      rewrite !Z.pow_add_r by lia. ring. }
    assert (H2 : 0 <= z * 2 ^ Zpos p).
    { apply Z.mul_nonneg_nonneg; [lia|]. apply Z.pow_nonneg. lia. }
    by rewrite H1, IH, IH.
  - rewrite Z.mul_comm. apply shr_1_exact. lia.
Qed.

Lemma digits2_pos_unique (m : positive) (d : Z) :
  2 ^ (d - 1) <= Zpos m < 2 ^ d -> Zpos (digits2_pos m) = d.
Proof.
  intros [Hlo Hhi]. pose proof (digits2_pos_bounds m) as [Hlo' Hhi'].
  set (d' := Zpos (digits2_pos m)) in *.
  assert (0 < d).
  { destruct (Z.lt_ge_cases 0 d) as [|Hd]; [done|].
    assert (2 ^ d <= 1); [|lia].
    destruct (Z.eq_dec d 0) as [-> | ?]; [done|].
    rewrite Z.pow_neg_r by lia. lia. }
  destruct (Z.lt_trichotomy d' d) as [Hlt | [Heq | Hgt]]; [|done|].
  - assert (2 ^ d' <= 2 ^ (d - 1)) by (apply Z.pow_le_mono_r; lia). lia.
  - assert (2 ^ d <= 2 ^ (d' - 1)) by (apply Z.pow_le_mono_r; lia). lia.
Qed.

Lemma digits2_pos_shift (m mx : positive) (n : Z) :
  0 <= n -> Zpos mx = Zpos m * 2 ^ n ->
  Zpos (digits2_pos mx) = Zpos (digits2_pos m) + n.
Proof.
  intros Hn Hmx. apply digits2_pos_unique.
  pose proof (digits2_pos_bounds m) as [Hlo Hhi].
  rewrite Hmx.
  replace (Zpos (digits2_pos m) + n - 1) with (Zpos (digits2_pos m) - 1 + n) by lia.
  rewrite !Z.pow_add_r by lia.
  assert (0 < 2 ^ n) by (apply Z.pow_pos_nonneg; lia). nia.
Qed.

(** Rounding a number that the format represents gives that number. *)
Lemma binary_round_aux_exact (s : bool) (mx : positive) (ex : Z)
    (m' : positive) (e' : Z) :
  canonical_mantissa prec emax m' e' = true ->
  e' <= emax - prec ->
  ex <= e' ->
  Zpos mx = Zpos m' * 2 ^ (e' - ex) ->
  binary_round_aux prec emax s (Zpos mx) ex loc_Exact = S754_finite s m' e'.
Proof.
  intros Hc Hb He Hm. pose proof Hc as Hc'.
  unfold canonical_mantissa in Hc'. apply Z.eqb_eq in Hc'.
  pose proof (digits2_pos_shift m' mx (e' - ex) ltac:(lia) Hm) as Hd.
  unfold binary_round_aux, shr_fexp. simpl Zdigits2.
  replace (Zpos (digits2_pos mx) + ex) with (Zpos (digits2_pos m') + e') by lia.
  rewrite Hc'. unfold shr_record_of_loc.
  assert (Hshr : shr (Build_shr_record (Zpos mx) false false) ex (e' - ex)
                 = (Build_shr_record (Zpos m') false false, e')).
  { unfold shr. destruct (e' - ex) as [|p|p] eqn:Ep; [|  |lia].
    - f_equal; [|lia]. f_equal. rewrite Hm. simpl. lia.
    - f_equal; [|lia]. rewrite Hm. apply iter_pos_shr_1_exact. lia. }
  rewrite Hshr. simpl round_nearest_even. simpl Zdigits2.
  rewrite Hc', Z.sub_diag. simpl.
  apply Z.leb_le in Hb. by rewrite Hb.
Qed.

Lemma F2R_inj (m1 m2 e : Z) : F2R m1 e = F2R m2 e -> m1 = m2.
Proof.
  unfold F2R. intros H. pose proof (bpow_pos e). apply eq_IZR. nra.
Qed.

Lemma binary_round_exact (s : bool) (m : positive) (e : Z)
    (m' : positive) (e' : Z) :
  canonical_mantissa prec emax m' e' = true ->
  e' <= emax - prec ->
  F2R (Zpos m) e = F2R (Zpos m') e' ->
  binary_round prec emax s m e = S754_finite s m' e'.
Proof.
  intros Hc Hb Hv. pose proof Hc as Hc'.
  unfold canonical_mantissa in Hc'. apply Z.eqb_eq in Hc'.
  assert (Hd : Zpos (digits2_pos m) + e = Zpos (digits2_pos m') + e').
  { destruct (Z.le_ge_cases e e') as [Hle | Hge].
    - assert (Zpos m = Zpos m' * 2 ^ (e' - e)).
      { apply (F2R_inj _ _ e). rewrite Hv, F2R_shift by lia. f_equal. lia. }
      pose proof (digits2_pos_shift m' m (e' - e) ltac:(lia) H). lia.
    - assert (Zpos m' = Zpos m * 2 ^ (e - e')).
      { apply (F2R_inj _ _ e'). rewrite <- Hv, F2R_shift by lia. f_equal. lia. }
      pose proof (digits2_pos_shift m m' (e - e') ltac:(lia) H). lia. }
  unfold binary_round. rewrite Hd, Hc'.
  destruct (shl_align_F2R m e e') as [HF He].
  destruct (shl_align m e e') as [mz ez] eqn:Es. simpl in HF, He.
  assert (Hez : ez <= e').
  { destruct (Z.le_ge_cases e' e) as [Hle | Hge]; [rewrite He; lia|].
    unfold shl_align in Es. destruct (e' - e) as [|p|p] eqn:Ep; try lia;
      injection Es as <- <-; lia. }
  apply binary_round_aux_exact; [done | done | done |].
  apply (F2R_inj _ _ ez). rewrite HF, Hv, F2R_shift by lia. f_equal. lia.
Qed.

(** A positive integer below 2^53 is a number with exactly that value. *)
Lemma int_to_float_exact (k : Z) :
  0 < k < 2 ^ 53 ->
  exists m e,
    Prim2SF (JS.int_to_float k) = S754_finite false m e
    /\ F2R (Zpos m) e = IZR k
    /\ -1074 < e <= 0.
Proof.
  intros Hk. destruct k as [|p|p]; [lia| |lia].
  rewrite int_to_float_sign by lia.
  pose proof (digits2_pos_bounds p) as [Hlo Hhi].
  set (d := Zpos (digits2_pos p)) in *.
  assert (Hd : 1 <= d <= 53).
  { split; [unfold d; lia|].
    destruct (Z.le_gt_cases d 53) as [|Hgt]; [done|].
    assert (2 ^ 53 <= 2 ^ (d - 1)) by (apply Z.pow_le_mono_r; lia). lia. }
  assert (Hpow : 0 < 2 ^ (53 - d)) by (apply Z.pow_pos_nonneg; lia).
  set (m := Z.to_pos (Zpos p * 2 ^ (53 - d))).
  assert (Hm : Zpos m = Zpos p * 2 ^ (53 - d)) by (unfold m; lia).
  assert (Hdm : Zpos (digits2_pos m) = 53).
  { rewrite (digits2_pos_shift p m (53 - d)) by (lia || done). fold d. lia. }
  assert (Hv : F2R (Zpos p) 0 = F2R (Zpos m) (d - 53)).
  { rewrite Hm, F2R_shift by lia. f_equal. lia. }
  exists m, (d - 53). split; [|split; [|lia]].
  - apply binary_round_exact; [| unfold emax, prec; lia | done].
    unfold canonical_mantissa, fexp, SpecFloat.emin, emax, prec. rewrite Hdm.
    apply Z.eqb_eq. lia.
  - rewrite <- Hv. unfold F2R, bpow. simpl. lra.
Qed.

(** The product of two positive integers is exact while it is below 2^53. *)
Lemma mul_int_exact (a b : Z) :
  0 < a -> 0 < b -> a * b < 2 ^ 53 ->
  (JS.int_to_float a * JS.int_to_float b)%float = JS.int_to_float (a * b).
Proof.
  intros Ha Hb Hab.
  destruct (int_to_float_exact a ltac:(nia)) as (ma & ea & Ea & Va & Hea).
  destruct (int_to_float_exact b ltac:(nia)) as (mb & eb & Eb & Vb & Heb).
  destruct (int_to_float_exact (a * b) ltac:(nia)) as (mc & ec & Ec & Vc & Hec).
  pose proof (Prim2SF_canonical _ _ _ _ Ea) as Ca.
  pose proof (Prim2SF_canonical _ _ _ _ Eb) as Cb.
  pose proof (Prim2SF_canonical _ _ _ _ Ec) as Cc.
  destruct (canonical_bounds ma ea Ca) as (_ & _ & Hna).
  destruct (canonical_bounds mb eb Cb) as (_ & _ & Hnb).
  destruct (canonical_bounds mc ec Cc) as (Hmc & _ & _).
  specialize (Hna ltac:(lia)). specialize (Hnb ltac:(lia)).
  apply Prim2SF_inj. rewrite mul_spec, Ea, Eb, Ec.
  unfold SF64mul, SFmul. simpl xorb.
  assert (Hv : F2R (Zpos (ma * mb)) (ea + eb) = F2R (Zpos mc) ec).
  { rewrite Vc, mult_IZR, <- Va, <- Vb, Pos2Z.inj_mul. unfold F2R.
    rewrite mult_IZR, bpow_add. ring. }
  assert (Hle : ea + eb <= ec).
  { destruct (Z.le_gt_cases (ea + eb) ec) as [|Hgt]; [done|]. exfalso.
    assert (Zpos mc = Zpos (ma * mb) * 2 ^ (ea + eb - ec)).
    { apply (F2R_inj _ _ ec). rewrite <- Hv, F2R_shift by lia. f_equal. lia. }
    assert (0 < 2 ^ (ea + eb - ec)) by (apply Z.pow_pos_nonneg; lia).
    change (2 ^ 52) with 4503599627370496 in *.
    change (2 ^ 53) with 9007199254740992 in *.
    rewrite Pos2Z.inj_mul in *. nia. }
  apply binary_round_aux_exact; [done | unfold emax, prec; lia | done |].
  apply (F2R_inj _ _ (ea + eb)). rewrite Hv, F2R_shift by lia. f_equal. lia.
Qed.

(** The remainder of two positive integers below 2^53 is the remainder of
    the integers. *)
Lemma rem_int_exact (a b : Z) :
  0 < a < 2 ^ 53 -> 0 < b < 2 ^ 53 ->
  JSMore.Number_rem (JS.int_to_float a) (JS.int_to_float b)
  = JS.int_to_float (a mod b).
Proof.
  intros Ha Hb.
  destruct (int_to_float_exact a Ha) as (ma & ea & Ea & Va & Hea).
  destruct (int_to_float_exact b Hb) as (mb & eb & Eb & Vb & Heb).
  unfold JSMore.Number_rem. rewrite Ea, Eb. simpl cond_Zopp.
  set (e := Z.min ea eb).
  assert (He : e <= ea /\ e <= eb /\ e <= 0) by (unfold e; lia).
  destruct (shl_align_F2R ma ea e) as [HA HAe].
  destruct (shl_align_F2R mb eb e) as [HB HBe].
  rewrite HAe in HA by lia. rewrite HBe in HB by lia.
  set (A := fst (shl_align ma ea e)) in *.
  set (B := fst (shl_align mb eb e)) in *.
  assert (Hpow : 0 < 2 ^ (- e)) by (apply Z.pow_pos_nonneg; lia).
  assert (EA : Zpos A = a * 2 ^ (- e)).
  { apply (F2R_inj _ _ e). rewrite HA, Va, F2R_shift by lia.
    replace (e + - e) with 0 by lia. unfold F2R, bpow. simpl. lra. }
  assert (EB : Zpos B = b * 2 ^ (- e)).
  { apply (F2R_inj _ _ e). rewrite HB, Vb, F2R_shift by lia.
    replace (e + - e) with 0 by lia. unfold F2R, bpow. simpl. lra. }
  rewrite EA, EB, Z.mul_rem_distr_r, Z.rem_mod_nonneg by lia.
  pose proof (Z.mod_pos_bound a b ltac:(lia)) as Hr.
  destruct (Z.eq_dec (a mod b) 0) as [-> | Hne]; [reflexivity|].
  destruct (int_to_float_exact (a mod b) ltac:(lia)) as (mr & er & Er & Vr & Her).
  rewrite <- (SF2Prim_Prim2SF (JS.int_to_float (a mod b))), Er. f_equal.
  destruct (a mod b * 2 ^ (- e)) as [|p|p] eqn:Ep; [nia| |nia].
  simpl binary_normalize.
  apply binary_round_exact;
    [by apply (Prim2SF_canonical _ _ _ _ Er) | unfold emax, prec; lia |].
  rewrite Vr, <- Ep, F2R_shift by lia.
  replace (e + - e) with 0 by lia. unfold F2R, bpow. simpl. lra.
Qed.

(** ** The mock of the safety predictions *)

Lemma int_to_float_13 : 13%float = JS.int_to_float 13.
Proof. reflexivity. Qed.

Lemma int_to_float_100 : 100%float = JS.int_to_float 100.
Proof. reflexivity. Qed.

Lemma isDigit_digitChar (c : ascii) :
  JSMore.isDigit c = true -> exists d, 0 <= d < 10 /\ c = JSMore.digitChar d.
Proof.
  intros Hc. exists (Z.of_N (N_of_ascii c) - 48).
  unfold JSMore.isDigit in Hc. apply andb_true_iff in Hc as [H1 H2].
  apply N.leb_le in H1, H2. split; [lia|].
  unfold JSMore.digitChar.
  replace (Z.to_N (48 + (Z.of_N (N_of_ascii c) - 48))) with (N_of_ascii c)
    by lia.
  by rewrite ascii_N_embedding.
Qed.

Lemma stripNonDigits_head (s : string) :
  JSMore.stripNonDigits s = EmptyString
  \/ exists d t,
       0 <= d < 10
       /\ JSMore.stripNonDigits s = String (JSMore.digitChar d) t
       /\ (t = EmptyString
           \/ exists d' t', 0 <= d' < 10 /\ t = String (JSMore.digitChar d') t').
Proof.
  induction s as [|c s IH]; [by left|]. simpl.
  destruct (JSMore.isDigit c) eqn:Hc; [|exact IH].
  right. destruct (isDigit_digitChar c Hc) as (d & Hd & ->).
  exists d, (JSMore.stripNonDigits s). split; [done|]. split; [done|].
  destruct IH as [-> | (d' & t' & Hd' & -> & _)]; [by left|].
  right. by exists d', t'.
Qed.

Lemma parseInt_digits (d : Z) (s : string) :
  0 <= d < 10 ->
  (s = EmptyString
   \/ exists d' s', 0 <= d' < 10 /\ s = String (JSMore.digitChar d') s') ->
  JS.parseInt (String (JSMore.digitChar d) s)
  = match JS.leadingDigits 10 (String (JSMore.digitChar d) s) None with
    | None => nan
    | Some 0 => 0%float
    | Some n => JS.Z_to_number n
    end.
Proof.
  intros Hd Htail. unfold JS.parseInt.
  assert (Hno : String.prefix "0x" (String (JSMore.digitChar d) s)
                || String.prefix "0X" (String (JSMore.digitChar d) s) = false).
  { destruct Htail as [-> | (d' & s' & Hd' & ->)].
    - destruct (digit_cases d Hd) as [-> | [-> | [-> | [-> | [-> | [-> | [-> |
        [-> | [-> | ->]]]]]]]]]; reflexivity.
    - destruct (digit_cases d Hd) as [-> | [-> | [-> | [-> | [-> | [-> | [-> |
        [-> | [-> | ->]]]]]]]]];
        try reflexivity;
        destruct (digit_cases d' Hd') as [-> | [-> | [-> | [-> | [-> | [-> |
          [-> | [-> | [-> | ->]]]]]]]]]; reflexivity. }
  assert (Hprefix :
            (let '(radix, s2) :=
               if String.prefix "0x" (String (JSMore.digitChar d) s)
                  || String.prefix "0X" (String (JSMore.digitChar d) s)
               then (16, String.substring 2
                           (String.length (String (JSMore.digitChar d) s) - 2)
                           (String (JSMore.digitChar d) s))
               else (10, String (JSMore.digitChar d) s) in
             match JS.leadingDigits radix s2 None with
             | None => nan
             | Some 0 => 0%float
             | Some n' => JS.Z_to_number n'
             end)
            = match JS.leadingDigits 10 (String (JSMore.digitChar d) s) None with
              | None => nan
              | Some 0 => 0%float
              | Some n => JS.Z_to_number n
              end).
  { by rewrite Hno. }
  destruct (digit_cases d Hd) as [-> | [-> | [-> | [-> | [-> | [-> | [-> | [-> |
    [-> | ->]]]]]]]]]; exact Hprefix.
Qed.

Lemma digitValue_range (c : ascii) (d : Z) :
  JS.digitValue 10 c = Some d -> 0 <= d < 10.
Proof.
  unfold JS.digitValue. set (n := Z.of_N (N_of_ascii c)).
  destruct ((48 <=? n) && (n <=? 57)) eqn:E1.
  { apply andb_true_iff in E1 as [H1 H2]. apply Z.leb_le in H1, H2.
    destruct (Z.ltb_spec (n - 48) 10); [|discriminate].
    intros [= <-]. lia. }
  destruct ((97 <=? n) && (n <=? 122)) eqn:E2.
  { apply andb_true_iff in E2 as [H1 H2]. apply Z.leb_le in H1, H2.
    destruct (Z.ltb_spec (n - 87) 10); [lia | discriminate]. }
  destruct ((65 <=? n) && (n <=? 90)) eqn:E3; [|discriminate].
  apply andb_true_iff in E3 as [H1 H2]. apply Z.leb_le in H1, H2.
  destruct (Z.ltb_spec (n - 55) 10); [lia | discriminate].
Qed.

Lemma leadingDigits_nonneg (s : string) :
  forall acc n,
    match acc with Some a => 0 <= a | None => True end ->
    JS.leadingDigits 10 s acc = Some n -> 0 <= n.
Proof.
  induction s as [|c s IH]; intros acc n Hacc; simpl.
  - intros ->. exact Hacc.
  - destruct (JS.digitValue 10 c) as [d|] eqn:Hd.
    + apply IH. apply digitValue_range in Hd. destruct acc as [a|]; simpl in *; lia.
    + intros ->. exact Hacc.
Qed.

Lemma idNumber_pos (id : string) : 0 < idNumber id.
Proof.
  unfold idNumber.
  destruct (JS.leadingDigits 10 _ None) as [n|] eqn:E; [|lia].
  apply leadingDigits_nonneg in E; [|done].
  destruct (Z.eqb_spec n 0); lia.
Qed.

Lemma junctionNumber_idNumber (id : string) :
  idNumber id < 2 ^ 63 ->
  JS.or_else (JS.parseInt (JSMore.stripNonDigits id)) 1
  = JS.int_to_float (idNumber id).
Proof.
  intros Hlt. pose proof (idNumber_pos id) as Hpos. unfold idNumber in *.
  destruct (stripNonDigits_head id) as [He | (d & t & Hd & He & Htail)];
    rewrite He in *; [reflexivity|].
  rewrite parseInt_digits by done.
  destruct (JS.leadingDigits 10 (String (JSMore.digitChar d) t) None)
    as [n|] eqn:E; [|reflexivity].
  apply leadingDigits_nonneg in E; [|done].
  destruct n as [|p|p]; [reflexivity| |lia].
  change (Zpos p =? 0) with false in *. cbv iota in *.
  rewrite Z_to_number_int_to_float by lia.
  unfold JS.or_else.
  by rewrite (above_truthy _ _ _ (int_to_float_above_1 (Zpos p) ltac:(lia))).
Qed.

(** The seed of a junction, from the digits of its identifier. *)
Lemma mockPrediction_seed (junction : MLJunction.t) :
  idNumber (MLJunction.id junction) * 13 < 2 ^ 53 ->
  mockPrediction junction
  = predictionOfSeed junction
      (JS.int_to_float ((idNumber (MLJunction.id junction) * 13) mod 100)).
Proof.
  intros Hlt. pose proof (idNumber_pos (MLJunction.id junction)) as Hpos.
  unfold mockPrediction. f_equal.
  rewrite junctionNumber_idNumber by lia.
  rewrite int_to_float_13, int_to_float_100.
  rewrite mul_int_exact by lia.
  apply rem_int_exact; lia.
Qed.

(** Whatever the seed, the risk level is 0, 1 or 2, there are three
    probabilities, and the seven factors are written in the same order. *)
Lemma prediction_shape (junction : MLJunction.t) (seed : float) :
  let p := predictionOfSeed junction seed in
  SafetyPrediction.junction_id p = MLJunction.id junction
  /\ (SafetyPrediction.risk_level p = 0%float
      \/ SafetyPrediction.risk_level p = 1%float
      \/ SafetyPrediction.risk_level p = 2%float)
  /\ length (SafetyPrediction.risk_probability p) = 3%nat
  /\ (SafetyPrediction.contributing_factors p).*1
     = ["traffic_volume"; "weather_conditions"; "road_design"; "visibility";
        "signal_timing"; "pedestrian_activity"; "time_of_day"]%string.
Proof.
  simpl. split; [done|]. split; [|done].
  destruct (70 <? seed)%float; [by right; right|].
  destruct (40 <? seed)%float; [by right; left | by left].
Qed.

(** What the prediction built from each of the hundred seeds looks like. *)
Lemma prediction_table (junction : MLJunction.t) (k : Z) :
  0 <= k < 100 ->
  SafetyPrediction.risk_level (predictionOfSeed junction (JS.int_to_float k))
  = (if 70 <? k then 2%float else if 40 <? k then 1%float else 0%float)
  /\ (exists low med high,
        SafetyPrediction.risk_probability
          (predictionOfSeed junction (JS.int_to_float k))
        = [low; med; high]
        /\ (0 <? low)%float = true /\ (low <? 1)%float = true
        /\ (0 <? med)%float = true /\ (med <? 1)%float = true
        /\ (0 <? high)%float = true /\ (high <? 1)%float = true
        /\ (if 70 <? k then (low <? high)%float && (med <? high)%float
            else if 40 <? k then (low <? med)%float && (high <? med)%float
            else (med <? low)%float && (high <? low)%float) = true
        /\ (abs (low + med + high - 1) <=? 0x1p-52)%float = true)
  /\ Forall (fun kv : string * float =>
               (0 <? snd kv)%float && (snd kv <? 1)%float = true)
       (SafetyPrediction.contributing_factors
          (predictionOfSeed junction (JS.int_to_float k))).
Proof.
  intros Hk.
  assert (Hin : In k (seqZ 0 100)).
  { apply list_elem_of_In, elem_of_seqZ. lia. }
  vm_compute in Hin.
  repeat (destruct Hin as [<- | Hin];
          [split; [vm_compute; reflexivity|];
           split; [eexists _, _, _; split; [reflexivity|];
                   vm_compute; repeat split; reflexivity|];
           repeat constructor|]).
  destruct Hin.
Qed.

Example idNumber_examples :
  idNumber "j5" = 5 /\ idNumber "j007" = 7 /\ idNumber "a1b2" = 12
  /\ idNumber "north gate" = 1 /\ idNumber "j0" = 1.
Proof. repeat split. Qed.

(** X11: with a valid clock, the mock answers, for any list of junctions,
    with the model version "v1.0.3 (mock)", the clock reading as timestamp and
    one prediction per junction, in order: the prediction of a junction
    carries its identifier, a risk level that is 0, 1 or 2, three
    probabilities and the seven contributing factors.  Let n be the integer
    that the decimal digits of the identifier write, taken in order (1 when
    there is no digit or when they write 0).  When n × 13 < 2^53 the seed is
    (n × 13) mod 100: the risk level is 2 above 70, 1 above 40 and 0 otherwise;
    the three probabilities lie strictly between 0 and 1, the one of the risk
    level is the largest, and their sum is within 2^-52 of 1; every
    contributing factor lies strictly between 0 and 1. *)
Theorem getMockPredictions_consistent (junctions : list MLJunction.t)
    (w : World) :
  Z.abs (w 0%nat) <= maxTimeValue ->
  exists response,
    getMockPredictions junctions w = (inr response, fun k => w (S k))
    /\ PredictionResponse.model_version response = "v1.0.3 (mock)"%string
    /\ PredictionResponse.timestamp response = w 0%nat
    /\ length (PredictionResponse.predictions response) = length junctions
    /\ forall i junction, junctions !! i = Some junction ->
         exists p,
           PredictionResponse.predictions response !! i = Some p
           /\ SafetyPrediction.junction_id p = MLJunction.id junction
           /\ (SafetyPrediction.risk_level p = 0%float
               \/ SafetyPrediction.risk_level p = 1%float
               \/ SafetyPrediction.risk_level p = 2%float)
           /\ length (SafetyPrediction.risk_probability p) = 3%nat
           /\ (SafetyPrediction.contributing_factors p).*1
              = ["traffic_volume"; "weather_conditions"; "road_design";
                 "visibility"; "signal_timing"; "pedestrian_activity";
                 "time_of_day"]%string
           /\ (idNumber (MLJunction.id junction) * 13 < 2 ^ 53 ->
               let seed := (idNumber (MLJunction.id junction) * 13) mod 100 in
               SafetyPrediction.risk_level p
               = (if 70 <? seed then 2%float
                  else if 40 <? seed then 1%float else 0%float)
               /\ (exists low med high,
                     SafetyPrediction.risk_probability p = [low; med; high]
                     /\ (0 <? low)%float = true /\ (low <? 1)%float = true
                     /\ (0 <? med)%float = true /\ (med <? 1)%float = true
                     /\ (0 <? high)%float = true /\ (high <? 1)%float = true
                     /\ (if 70 <? seed
                         then (low <? high)%float && (med <? high)%float
                         else if 40 <? seed
                         then (low <? med)%float && (high <? med)%float
                         else (med <? low)%float && (high <? low)%float) = true
                     /\ (abs (low + med + high - 1) <=? 0x1p-52)%float = true)
               /\ Forall (fun kv : string * float =>
                            (0 <? snd kv)%float && (snd kv <? 1)%float = true)
                    (SafetyPrediction.contributing_factors p)).
Proof.
  intros Hw.
  exists (PredictionResponse.mk (mockPrediction <$> junctions) "v1.0.3 (mock)"
            (w 0%nat)).
  split.
  { unfold getMockPredictions, mbind, M_bind, newDate, Date_toISOString.
    apply Z.leb_le in Hw. by rewrite Hw. }
  split; [done|]. split; [done|]. split; [apply length_fmap|].
  intros i junction Hi. exists (mockPrediction junction).
  split.
  { cbn [PredictionResponse.predictions]. by rewrite list_lookup_fmap, Hi. }
  destruct (prediction_shape junction
              (JSMore.Number_rem
                 (JS.or_else
                    (JS.parseInt (JSMore.stripNonDigits (MLJunction.id junction)))
                    1 * 13) 100)) as (H1 & H2 & H3 & H4).
  split; [exact H1|]. split; [exact H2|]. split; [exact H3|].
  split; [exact H4|].
  intros Hlt seed. rewrite (mockPrediction_seed junction Hlt). fold seed.
  assert (Hseed : 0 <= seed < 100) by (apply Z.mod_pos_bound; lia).
  exact (prediction_table junction seed Hseed).
Qed.

Lemma getMockPredictions_consistent_witness :
  exists response,
    getMockPredictions
      [MLJunction.mk "j5" "Junction 5" 51.5 (-0.12) None;
       MLJunction.mk "north gate" "North Gate" 51.6 (-0.13) None]
      (clockAt 1700000000000)
    = (inr response, fun k => clockAt 1700000000000 (S k))
    /\ PredictionResponse.model_version response = "v1.0.3 (mock)"%string
    /\ PredictionResponse.timestamp response = 1700000000000
    /\ length (PredictionResponse.predictions response) = 2%nat
    /\ exists p,
         PredictionResponse.predictions response !! 0%nat = Some p
         /\ SafetyPrediction.junction_id p = "j5"%string
         /\ SafetyPrediction.risk_level p = 1%float.
Proof.
  destruct (getMockPredictions_consistent
              [MLJunction.mk "j5" "Junction 5" 51.5 (-0.12) None;
               MLJunction.mk "north gate" "North Gate" 51.6 (-0.13) None]
              (clockAt 1700000000000))
    as (response & Hrun & Hversion & Htime & Hlen & Hall).
  - unfold clockAt, maxTimeValue. lia.
  - exists response. split; [exact Hrun|]. split; [exact Hversion|].
    split; [exact Htime|]. split; [exact Hlen|].
    destruct (Hall 0%nat (MLJunction.mk "j5" "Junction 5" 51.5 (-0.12) None))
      as (p & Hp & Hid & _ & _ & _ & Hseed); [reflexivity|].
    exists p. split; [exact Hp|]. split; [exact Hid|].
    destruct Hseed as [Hlevel _]; [vm_compute; reflexivity|].
    exact Hlevel.
Defined.

(** ** Numbers: rounding below a midpoint *)

Lemma shr_1_r (mrs : shr_record) :
  0 <= shr_m mrs -> shr_r (shr_1 mrs) = Z.odd (shr_m mrs).
Proof.
  destruct mrs as [m r s]. simpl. intros Hm.
  destruct m as [|p|p]; [reflexivity| |lia]. by destruct p.
Qed.

(** The round bit after a shift is the last bit shifted out. *)
Lemma iter_pos_shr_1_r (p : positive) :
  forall mrs, 0 <= shr_m mrs ->
    shr_r (SpecFloat.iter_pos shr_1 p mrs)
    = Z.odd (shr_m mrs / 2 ^ (Zpos p - 1)).
Proof.
  induction p as [p IH|p IH|]; intros mrs Hm; cbn [SpecFloat.iter_pos].
  - assert (H1 : 0 <= shr_m (shr_1 mrs)).
    { rewrite shr_1_m by done. apply Z.div_pos; lia. }
    assert (H2 : 0 <= shr_m (SpecFloat.iter_pos shr_1 p (shr_1 mrs))).
    { rewrite iter_pos_shr_1 by done.
      apply Z.div_pos; [done|]. apply Z.pow_pos_nonneg; lia. }
    rewrite IH, iter_pos_shr_1, shr_1_m by done.
    rewrite !Z.div_div by (try apply Z.pow_pos_nonneg; lia).
    f_equal. f_equal.
    replace (Zpos p~1 - 1) with (1 + Zpos p + (Zpos p - 1)) by lia.
    rewrite !Z.pow_add_r by lia. change (2 ^ 1) with 2. ring.
  - assert (H2 : 0 <= shr_m (SpecFloat.iter_pos shr_1 p mrs)).
    { rewrite iter_pos_shr_1 by done.
      apply Z.div_pos; [done|]. apply Z.pow_pos_nonneg; lia. }
    rewrite IH, iter_pos_shr_1 by done.
    rewrite !Z.div_div by (try apply Z.pow_pos_nonneg; lia).
    f_equal. f_equal.
    replace (Zpos p~0 - 1) with (Zpos p + (Zpos p - 1)) by lia.
    by rewrite !Z.pow_add_r by lia.
  - rewrite shr_1_r by done. by rewrite Z.div_1_r.
Qed.

(** The round bit that [shr_fexp] leaves for an exact mantissa. *)
Lemma shr_fexp_r (m e : Z) :
  0 <= m ->
  shr_r (fst (shr_fexp prec emax m e loc_Exact))
  = if 0 <? fexp prec emax (Zdigits2 m + e) - e
    then Z.odd (m / 2 ^ (fexp prec emax (Zdigits2 m + e) - e - 1))
    else false.
Proof.
  intros Hm. unfold shr_fexp, shr, shr_record_of_loc.
  destruct (fexp prec emax (Zdigits2 m + e) - e) as [|p|p]; [done| |done].
  simpl fst. by rewrite iter_pos_shr_1_r.
Qed.

Lemma round_nearest_even_r (mrs : shr_record) :
  shr_r mrs = false ->
  round_nearest_even (shr_m mrs) (loc_of_shr_record mrs) = shr_m mrs.
Proof. destruct mrs as [m [] []]; simpl; done. Qed.

Lemma pow2_lt_inv (a b : Z) : 0 <= b -> 2 ^ a < 2 ^ b -> a < b.
Proof.
  intros Hb H. destruct (Z.lt_ge_cases a b) as [|Hge]; [done|].
  assert (2 ^ b <= 2 ^ a) by (apply Z.pow_le_mono_r; lia). lia.
Qed.

(** Rounding a number that is below the midpoint between a number [c] of the
    format and the next one gives a zero or a number that is at most [c]. *)
Lemma binary_round_aux_below (s : bool) (mx : positive) (ex : Z)
    (mc : positive) (ec : Z) :
  canonical_mantissa prec emax mc ec = true ->
  ec <= emax - prec ->
  ex <= ec ->
  2 * Zpos mx < (2 * Zpos mc + 1) * 2 ^ (ec - ex) ->
  binary_round_aux prec emax s (Zpos mx) ex loc_Exact = S754_zero s
  \/ exists m e,
       binary_round_aux prec emax s (Zpos mx) ex loc_Exact = S754_finite s m e
       /\ (F2R (Zpos m) e <= F2R (Zpos mc) ec)%R.
Proof.
  intros Hc Hb Hex Hmid.
  pose proof Hc as Hfc. unfold canonical_mantissa in Hfc.
  apply Z.eqb_eq in Hfc.
  destruct (canonical_bounds mc ec Hc) as (Hmc & Hemin & Hnorm).
  pose proof (digits2_pos_bounds mx) as [Hdlo Hdhi].
  pose proof (digits2_pos_bounds mc) as [Hclo Hchi].
  set (d := Zpos (digits2_pos mx)) in *.
  set (dc := Zpos (digits2_pos mc)) in *.
  set (N := ec - ex) in *.
  assert (HN : 0 < 2 ^ N) by (apply Z.pow_pos_nonneg; lia).
  assert (Hlt : Zpos mx < (Zpos mc + 1) * 2 ^ N) by nia.
  assert (Hd : d <= dc + N).
  { assert (2 ^ (d - 1) < 2 ^ (dc + N)).
    { rewrite Z.pow_add_r by lia. nia. }
    apply pow2_lt_inv in H; lia. }
  set (t := fexp prec emax (d + ex)).
  assert (Ht : t <= ec).
  { unfold t. rewrite <- Hfc. unfold fexp. lia. }
  unfold binary_round_aux.
  destruct (shr_fexp_spec (Zpos mx) ex loc_Exact ltac:(lia)) as [Hm1 He1].
  pose proof (shr_fexp_r (Zpos mx) ex ltac:(lia)) as Hr1.
  simpl Zdigits2 in Hm1, He1, Hr1. fold d in Hm1, He1, Hr1.
  fold t in Hm1, He1, Hr1.
  destruct (shr_fexp prec emax (Zpos mx) ex loc_Exact) as [mrs1 e1].
  simpl fst in Hm1, Hr1. simpl snd in He1.
  set (m' := round_nearest_even (shr_m mrs1) (loc_of_shr_record mrs1)).
  pose proof (round_nearest_even_bounds (shr_m mrs1) (loc_of_shr_record mrs1))
    as Hrb. fold m' in Hrb.
  assert (He1' : e1 <= ec) by lia.
  assert (Hm1pos : 0 <= shr_m mrs1).
  { rewrite Hm1. apply Z.div_pos; [lia|]. apply Z.pow_pos_nonneg; lia. }
  assert (HM : m' <= Zpos mc * 2 ^ (ec - e1)).
  { destruct (Z.ltb_spec 0 (t - ex)) as [Hpos | Hnp].
    - (* the mantissa is shifted *)
      rewrite Z.max_r in Hm1, He1 by lia.
      assert (Hsplit : Zpos mc * 2 ^ N
                       = Zpos mc * 2 ^ (ec - e1) * 2 ^ (t - ex)).
      { rewrite <- Z.mul_assoc, <- Z.pow_add_r by lia. do 2 f_equal.
        unfold N. lia. }
      assert (Hp2 : 0 < 2 ^ (t - ex)) by (apply Z.pow_pos_nonneg; lia).
      destruct (Z.lt_ge_cases (Zpos mx) (Zpos mc * 2 ^ N)) as [Hbelow | Hab].
      + assert (shr_m mrs1 < Zpos mc * 2 ^ (ec - e1)); [|lia].
        rewrite Hm1. apply Z.div_lt_upper_bound; [done|]. lia.
      + assert (Hd' : dc + N <= d).
        { assert (2 ^ (dc - 1 + N) < 2 ^ d).
          { rewrite Z.pow_add_r by lia. nia. }
          apply pow2_lt_inv in H; lia. }
        assert (Hteq : t = ec).
        { unfold t. rewrite <- Hfc. f_equal. unfold N in *. lia. }
        assert (HeN : t - ex = N) by (unfold N; lia).
        rewrite HeN in *. replace (ec - e1) with 0 in * by lia.
        rewrite Z.pow_0_r, Z.mul_1_r in *.
        assert (Hq : Zpos mx / 2 ^ N = Zpos mc).
        { symmetry. apply Z.div_unique with (Zpos mx - Zpos mc * 2 ^ N); lia. }
        assert (HN1 : 2 ^ N = 2 * 2 ^ (N - 1)).
        { replace N with (1 + (N - 1)) at 1 by lia.
          rewrite Z.pow_add_r by lia. reflexivity. }
        assert (Hodd : Z.odd (Zpos mx / 2 ^ (N - 1)) = false).
        { assert (Hp3 : 0 < 2 ^ (N - 1)) by (apply Z.pow_pos_nonneg; lia).
          replace (Zpos mx / 2 ^ (N - 1)) with (2 * Zpos mc).
          - by rewrite Z.odd_mul.
          - apply Z.div_unique with (Zpos mx - Zpos mc * 2 ^ N); nia. }
        rewrite Hodd in Hr1.
        unfold m'. rewrite round_nearest_even_r by done. lia.
    - (* the mantissa is kept *)
      rewrite Z.max_l in Hm1, He1 by lia.
      rewrite Z.pow_0_r, Z.div_1_r in Hm1.
      replace e1 with ex in * by lia. fold N.
      unfold m'. rewrite round_nearest_even_r by done. rewrite Hm1.
      destruct (Z.le_gt_cases (Zpos mx) (Zpos mc * 2 ^ N)) as [|Hgt]; [done|].
      exfalso. destruct (Z.eq_dec N 0) as [HN0 | HN0].
      + rewrite HN0 in *. simpl in *. lia.
      + assert (Hd53 : d <= 53).
        { unfold t, fexp, prec in Hnp. lia. }
        assert (Hexmin : -1074 <= ex).
        { unfold t, fexp, SpecFloat.emin, emax, prec in Hnp. lia. }
        specialize (Hnorm ltac:(unfold N in *; lia)).
        assert (2 ^ 53 <= 2 ^ 52 * 2 ^ N).
        { replace 53 with (52 + 1) by lia. rewrite Z.pow_add_r by lia.
          assert (2 ^ 1 <= 2 ^ N) by (apply Z.pow_le_mono_r; lia). nia. }
        assert (2 ^ d <= 2 ^ 53) by (apply Z.pow_le_mono_r; lia).
        nia. }
  assert (Hm'pos : 0 <= m') by lia.
  destruct (shr_fexp_spec m' e1 loc_Exact Hm'pos) as [Hm2 He2].
  destruct (shr_fexp prec emax m' e1 loc_Exact) as [mrs2 e2].
  simpl fst in Hm2. simpl snd in He2.
  set (n2 := Z.max 0 (fexp prec emax (Zdigits2 m' + e1) - e1)) in *.
  assert (Hp2 : 0 < 2 ^ n2) by (apply Z.pow_pos_nonneg; lia).
  assert (Hm2pos : 0 <= shr_m mrs2).
  { rewrite Hm2. apply Z.div_pos; lia. }
  destruct (shr_m mrs2) as [|q|q] eqn:Eq; [by left | right | lia].
  assert (Hm'1 : 0 < m').
  { destruct (Z.eq_dec m' 0) as [H0 | H0]; [|lia].
    rewrite H0, Z.div_0_l in Hm2 by lia. lia. }
  assert (He2' : e2 <= ec).
  { destruct m' as [|p'|p'] eqn:Em'; [lia| |lia].
    simpl Zdigits2 in n2. pose proof (digits2_pos_bounds p') as [Hplo Hphi].
    set (d' := Zpos (digits2_pos p')) in *.
    assert (Hpc : 0 < 2 ^ (ec - e1)) by (apply Z.pow_pos_nonneg; lia).
    assert (2 ^ (d' - 1) < 2 ^ (dc + (ec - e1))).
    { rewrite Z.pow_add_r by lia. nia. }
    apply pow2_lt_inv in H; [|lia].
    assert (fexp prec emax (d' + e1) <= ec).
    { rewrite <- Hfc. unfold fexp. fold dc. lia. }
    lia. }
  exists q, e2. assert (Hle : (e2 <=? emax - prec) = true) by (apply Z.leb_le; lia).
  rewrite Hle. split; [reflexivity|].
  apply Rle_trans with (F2R m' e1).
  - rewrite He2, <- F2R_shift by lia. apply F2R_le_mantissa.
    rewrite Hm2. rewrite Z.mul_comm. apply Z.mul_div_le. lia.
  - replace (F2R (Zpos mc) ec) with (F2R (Zpos mc * 2 ^ (ec - e1)) e1).
    + by apply F2R_le_mantissa.
    + rewrite F2R_shift by lia. f_equal. lia.
Qed.

Lemma bpow_pred (e : Z) : bpow (e - 1) = (bpow e / 2)%R.
Proof.
  replace (e - 1) with (e + -1) by lia.
  rewrite bpow_add. unfold bpow at 2. simpl. lra.
Qed.

(** The midpoint condition, from values to mantissas. *)
Lemma midpoint_Z (m : Z) (e : Z) (mc : Z) (ec : Z) :
  e <= ec ->
  (F2R m e < F2R mc ec + bpow (ec - 1))%R ->
  2 * m < (2 * mc + 1) * 2 ^ (ec - e).
Proof.
  intros He H. apply lt_IZR.
  rewrite bpow_pred in H. unfold F2R in H.
  replace ec with (e + (ec - e)) in H by lia.
  rewrite bpow_add, (bpow_IZR (ec - e)) in H by lia.
  pose proof (bpow_pos e) as Hb.
  rewrite !mult_IZR, plus_IZR, mult_IZR.
  assert (0 < IZR (2 ^ (ec - e)))%R
    by (apply IZR_lt; apply Z.pow_pos_nonneg; lia).
  simpl (IZR 2). simpl (IZR 1). nra.
Qed.

(** A product below the midpoint above [c] is at most [c]. *)
Lemma mul_below (x y : float) (mx my mc : positive) (ex ey ec : Z) :
  Prim2SF x = S754_finite false mx ex ->
  Prim2SF y = S754_finite false my ey ->
  canonical_mantissa prec emax mc ec = true ->
  ec <= emax - prec ->
  ex + ey <= ec ->
  (F2R (Zpos mx) ex * F2R (Zpos my) ey < F2R (Zpos mc) ec + bpow (ec - 1))%R ->
  below mc ec (Prim2SF (x * y)).
Proof.
  intros Hx Hy Hc Hb He Hv. rewrite mul_spec, Hx, Hy.
  unfold SF64mul, SFmul. simpl xorb.
  destruct (binary_round_aux_below false (mx * my) (ex + ey) mc ec Hc Hb He)
    as [-> | (m & e & -> & Hle)]; [|done|done].
  apply midpoint_Z; [done|].
  rewrite Pos2Z.inj_mul. unfold F2R in *. rewrite mult_IZR, bpow_add. lra.
Qed.

Lemma shl_align_snd (m : positive) (e e' : Z) : snd (shl_align m e e') <= e.
Proof. unfold shl_align. destruct (e' - e) eqn:E; simpl; lia. Qed.

(** A sum below the midpoint above [c] is at most [c]. *)
Lemma add_below (x y : float) (mx my mc : positive) (ex ey ec : Z) :
  Prim2SF x = S754_finite false mx ex ->
  Prim2SF y = S754_finite false my ey ->
  canonical_mantissa prec emax mc ec = true ->
  ec <= emax - prec ->
  Z.min ex ey <= ec ->
  (F2R (Zpos mx) ex + F2R (Zpos my) ey < F2R (Zpos mc) ec + bpow (ec - 1))%R ->
  below mc ec (Prim2SF (x + y)).
Proof.
  intros Hx Hy Hc Hb He Hv. rewrite add_spec, Hx, Hy.
  unfold SF64add, SFadd. simpl cond_Zopp.
  set (ez := Z.min ex ey) in *.
  destruct (shl_align_F2R mx ex ez) as [HA HAe].
  destruct (shl_align_F2R my ey ez) as [HB HBe].
  rewrite HAe in HA by apply Z.le_min_l.
  rewrite HBe in HB by apply Z.le_min_r.
  set (A := fst (shl_align mx ex ez)) in *.
  set (B := fst (shl_align my ey ez)) in *.
  change (Zpos A + Zpos B) with (Zpos (A + B)). simpl binary_normalize.
  unfold binary_round.
  destruct (shl_align_F2R (A + B) ez
              (fexp prec emax (Zpos (digits2_pos (A + B)) + ez))) as [HF _].
  pose proof (shl_align_snd (A + B) ez
                (fexp prec emax (Zpos (digits2_pos (A + B)) + ez))) as Hs.
  destruct (shl_align (A + B) ez
              (fexp prec emax (Zpos (digits2_pos (A + B)) + ez))) as [mz ez'].
  simpl in HF, Hs.
  destruct (binary_round_aux_below false mz ez' mc ec Hc Hb ltac:(lia))
    as [-> | (m & e & -> & Hle)]; [|done|done].
  apply midpoint_Z; [lia|]. rewrite HF, <- HA, <- HB in *.
  rewrite Pos2Z.inj_add. unfold F2R in *. rewrite plus_IZR. lra.
Qed.

(** ** The ranges of the generated junctions *)

(** A number in [0, 1) is a zero or at most 1 - 2^-53. *)
Lemma unit_interval (x : float) :
  (0 <=? x)%float = true -> (x <? 1)%float = true ->
  (exists s, Prim2SF x = S754_zero s)
  \/ exists m e,
       Prim2SF x = S754_finite false m e
       /\ e <= -53
       /\ (F2R (Zpos m) e <= 1 - bpow (-53))%R.
Proof.
  intros H0 H1. apply leb_zero_nonneg in H0.
  rewrite ltb_spec in H1. change (Prim2SF 1) with
    (S754_finite false 4503599627370496 (-52)) in H1.
  pose proof (Prim2SF_canonical x) as Hc.
  destruct (Prim2SF x) as [s|s| |s m e]; simpl in H0; try done.
  - left. by exists s.
  - subst s. discriminate H1.
  - subst s. right. exists m, e. specialize (Hc false m e eq_refl).
    destruct (canonical_bounds m e Hc) as (Hm & Hemin & Hnorm).
    assert (Hlt : (F2R (Zpos m) e < 1)%R).
    { unfold SFltb, SFcompare in H1.
      assert (H1' : F2R 4503599627370496 (-52) = 1%R)
        by (apply (F2R_integer 1 52); lia).
      rewrite <- H1'.
      destruct (magnitude_compare_spec m 4503599627370496 e (-52) Hc eq_refl);
        done. }
    assert (He : e <= -53).
    { destruct (Z.le_gt_cases e (-53)) as [|Hgt]; [done|]. exfalso.
      specialize (Hnorm ltac:(lia)).
      assert (1 <= F2R (Zpos m) e)%R; [|lra].
      apply Rle_trans with (F2R (2 ^ 52) (-52)).
      - rewrite F2R_bpow by lia. unfold bpow. simpl. lra.
      - apply Rle_trans with (F2R (2 ^ 52) e).
        + unfold F2R. pose proof (bpow_le (-52) e ltac:(lia)).
          assert (0 < IZR (2 ^ 52))%R by (apply IZR_lt; lia). nra.
        + by apply F2R_le_mantissa. }
    split; [done|]. split; [done|].
    apply Rle_trans with (F2R (2 ^ 53 - 1) (-53)).
    + apply Rle_trans with (F2R (2 ^ 53 - 1) e).
      * apply F2R_le_mantissa. lia.
      * unfold F2R. pose proof (bpow_le e (-53) He). pose proof (bpow_pos e).
        assert (0 < IZR (2 ^ 53 - 1))%R by (apply IZR_lt; lia). nra.
    + unfold F2R. rewrite minus_IZR.
      assert (Hb : (IZR (2 ^ 53) * bpow (-53) = 1)%R).
      { rewrite <- bpow_IZR, <- bpow_add by lia. reflexivity. }
      simpl (IZR 1). lra.
Qed.

(** The floor of a positive number below 2^53 is the integer below it. *)
Lemma Math_floor_finite (x : float) (m : positive) (e : Z) :
  Prim2SF x = S754_finite false m e ->
  (F2R (Zpos m) e < IZR (2 ^ 53))%R ->
  exists q,
    0 <= q
    /\ (IZR q <= F2R (Zpos m) e < IZR q + 1)%R
    /\ JSMore.Math_floor x = JS.int_to_float q.
Proof.
  intros Hx Hlt. unfold JSMore.Math_floor. rewrite Hx. simpl cond_Zopp.
  pose proof (Prim2SF_canonical x false m e Hx) as Hc.
  destruct (Z.leb_spec 0 e) as [He | He].
  - assert (Hp : 0 < 2 ^ e) by (apply Z.pow_pos_nonneg; lia).
    assert (Hv : F2R (Zpos m) e = IZR (Zpos m * 2 ^ e)).
    { pose proof (F2R_shift (Zpos m) 0 e He) as Hs. rewrite Z.add_0_l in Hs.
      rewrite <- Hs. unfold F2R, bpow. simpl. lra. }
    exists (Zpos m * 2 ^ e). split; [lia|]. split; [rewrite Hv; lra|].
    assert (Hq : 0 < Zpos m * 2 ^ e < 2 ^ 53).
    { split; [lia|]. apply lt_IZR. by rewrite <- Hv. }
    apply Prim2SF_inj. rewrite Hx.
    destruct (Zpos m * 2 ^ e) as [|q|q] eqn:Eq; [lia| |lia].
    rewrite int_to_float_sign by lia. symmetry.
    apply binary_round_exact; [done| |].
    + pose proof (Prim2SF_valid x) as Hval. rewrite Hx in Hval.
      simpl in Hval. unfold bounded in Hval.
      apply andb_prop in Hval as [_ Hval]. by apply Z.leb_le in Hval.
    + rewrite Hv. unfold F2R, bpow. simpl. lra.
  - set (k := - e). assert (Hk : 0 < 2 ^ k) by (apply Z.pow_pos_nonneg; lia).
    exists (Zpos m / 2 ^ k).
    assert (Hq0 : 0 <= Zpos m / 2 ^ k) by (apply Z.div_pos; lia).
    split; [done|]. split.
    + replace e with (- k) by (unfold k; lia).
      rewrite F2R_neg_exp by (unfold k; lia).
      pose proof (Z.mul_div_le (Zpos m) (2 ^ k) Hk) as Hlo.
      pose proof (Z.mul_succ_div_gt (Zpos m) (2 ^ k) Hk) as Hhi.
      apply IZR_le in Hlo. apply IZR_lt in Hhi.
      rewrite mult_IZR in Hlo. rewrite mult_IZR, succ_IZR in Hhi.
      assert (0 < IZR (2 ^ k))%R by (apply IZR_lt; lia).
      split.
      * apply Rmult_le_reg_r with (IZR (2 ^ k)); [done|].
        unfold Rdiv. rewrite Rmult_assoc, Rinv_l by lra. lra.
      * apply Rmult_lt_reg_r with (IZR (2 ^ k)); [done|].
        unfold Rdiv. rewrite Rmult_assoc, Rinv_l by lra. lra.
    + by destruct (Z.eqb_spec (Zpos m / 2 ^ k) 0) as [-> | _].
Qed.

Lemma add_zero_r (c y : float) (s : bool) (mc : positive) (ec : Z) :
  Prim2SF c = S754_finite false mc ec ->
  Prim2SF y = S754_zero s ->
  (c + y)%float = c.
Proof.
  intros Hc Hy. apply Prim2SF_inj. by rewrite add_spec, Hc, Hy.
Qed.

(** The sum of two positive integers is exact while it is below 2^53. *)
Lemma add_int_exact (a b : Z) :
  0 < a -> 0 < b -> a + b < 2 ^ 53 ->
  (JS.int_to_float a + JS.int_to_float b)%float = JS.int_to_float (a + b).
Proof.
  intros Ha Hb Hab.
  destruct (int_to_float_exact a ltac:(lia)) as (ma & ea & Ea & Va & Hea).
  destruct (int_to_float_exact b ltac:(lia)) as (mb & eb & Eb & Vb & Heb).
  destruct (int_to_float_exact (a + b) ltac:(lia)) as (mc & ec & Ec & Vc & Hec).
  apply Prim2SF_inj. rewrite add_spec, Ea, Eb, Ec.
  unfold SF64add, SFadd. simpl cond_Zopp.
  set (e := Z.min ea eb).
  destruct (shl_align_F2R ma ea e) as [HA HAe].
  destruct (shl_align_F2R mb eb e) as [HB HBe].
  rewrite HAe in HA by apply Z.le_min_l.
  rewrite HBe in HB by apply Z.le_min_r.
  set (A := fst (shl_align ma ea e)) in *.
  set (B := fst (shl_align mb eb e)) in *.
  change (Zpos A + Zpos B) with (Zpos (A + B)). simpl binary_normalize.
  apply binary_round_exact;
    [by apply (Prim2SF_canonical _ _ _ _ Ec) | unfold emax, prec; lia |].
  rewrite Vc, plus_IZR, <- Va, <- Vb, <- HA, <- HB, Pos2Z.inj_add.
  unfold F2R. rewrite plus_IZR. ring.
Qed.

Lemma F2R_Zneg (m : Z) (p : positive) :
  F2R m (Zneg p) = (IZR m / IZR (2 ^ Zpos p))%R.
Proof. apply (F2R_neg_exp m (Zpos p)). lia. Qed.

Lemma bpow_Zneg (p : positive) : bpow (Zneg p) = (1 / IZR (2 ^ Zpos p))%R.
Proof. rewrite <- F2R_Zneg. unfold F2R. lra. Qed.

Lemma Prim2SF_bounded (x : float) (s : bool) (m : positive) (e : Z) :
  Prim2SF x = S754_finite s m e -> e <= emax - prec.
Proof.
  intros Hx. pose proof (Prim2SF_valid x) as Hv. rewrite Hx in Hv.
  simpl in Hv. unfold bounded in Hv. apply andb_prop in Hv as [_ Hv].
  by apply Z.leb_le in Hv.
Qed.

Lemma mul_zero_l (x k : float) (s : bool) (mk : positive) (ek : Z) :
  Prim2SF x = S754_zero s ->
  Prim2SF k = S754_finite false mk ek ->
  exists s', Prim2SF (x * k) = S754_zero s'.
Proof. intros Hx Hk. rewrite mul_spec, Hx, Hk. simpl. eauto. Qed.

Lemma Math_floor_zero (x : float) (s : bool) :
  Prim2SF x = S754_zero s -> JSMore.Math_floor x = x.
Proof. intros Hx. unfold JSMore.Math_floor. by rewrite Hx. Qed.

(** [c + Math.floor(r * k)] for a number [r] in [0, 1) and integers [c] and
    [k]: an integer from [c] to [c + k - 1]. *)
Lemma offset_floor_range (r c k : float) (C K : Z) (mk mc : positive)
    (ek ec : Z) :
  (0 <=? r)%float = true -> (r <? 1)%float = true ->
  c = JS.int_to_float C -> 0 < C -> 0 < K -> C + K <= 2 ^ 53 ->
  Prim2SF k = S754_finite false mk ek -> F2R (Zpos mk) ek = IZR K ->
  canonical_mantissa prec emax mc ec = true -> ec <= emax - prec ->
  ek - 53 <= ec ->
  ((1 - bpow (-53)) * IZR K < F2R (Zpos mc) ec + bpow (ec - 1))%R ->
  (F2R (Zpos mc) ec < IZR K)%R ->
  exists q,
    0 <= q < K
    /\ (c + JSMore.Math_floor (r * k))%float = JS.int_to_float (C + q).
Proof.
  intros H0 H1 -> HC HK HCK Hk Vk Hc Hb He Hmid Hlt.
  destruct (int_to_float_exact C ltac:(lia)) as (mC & eC & EC & VC & HeC).
  assert (Hzero : forall s, Prim2SF (r * k) = S754_zero s ->
            exists q, 0 <= q < K
              /\ (JS.int_to_float C + JSMore.Math_floor (r * k))%float
                 = JS.int_to_float (C + q)).
  { intros s Hs. exists 0. split; [lia|].
    rewrite (Math_floor_zero _ s Hs), Z.add_0_r.
    by apply (add_zero_r _ _ s mC eC). }
  destruct (unit_interval r H0 H1) as [[s Hr] | (m & e & Hr & Hle & Hv)].
  { destruct (mul_zero_l r k s mk ek Hr Hk) as [s' Hs]. by apply (Hzero s'). }
  assert (Hbelow : below mc ec (Prim2SF (r * k))).
  { apply (mul_below r k m mk mc e ek ec); [done | done | done | done | lia |].
    rewrite Vk. pose proof (F2R_pos m e).
    assert (0 < IZR K)%R by (apply IZR_lt; lia). nra. }
  destruct (Prim2SF (r * k)) as [s|s| |s m' e'] eqn:Ep; simpl in Hbelow;
    try done.
  { by apply (Hzero s). }
  destruct s; [done|].
  destruct (Math_floor_finite (r * k) m' e' Ep) as (q & Hq0 & [Hq1 Hq2] & Hf).
  { apply Rle_lt_trans with (F2R (Zpos mc) ec); [done|].
    apply Rlt_le_trans with (IZR K); [done|]. apply IZR_le. lia. }
  assert (HqK : q < K).
  { apply lt_IZR. lra. }
  exists q. split; [lia|]. rewrite Hf.
  destruct (Z.eq_dec q 0) as [-> | Hq].
  - rewrite Z.add_0_r. by apply (add_zero_r _ _ false mC eC).
  - apply add_int_exact; lia.
Qed.

(** The factor [c0 + r * c1] for a number [r] in [0, 1), when [c0 + c1]
    rounds to at most 1: a number from [c0] to 1. *)
Lemma factor_range (r c0 c1 : float) (m0 m1 : positive) (e0 e1 : Z) :
  (0 <=? r)%float = true -> (r <? 1)%float = true ->
  Prim2SF c0 = S754_finite false m0 e0 ->
  Prim2SF c1 = S754_finite false m1 e1 ->
  e0 <= -52 ->
  (F2R (Zpos m0) e0 <= 1)%R ->
  (F2R (Zpos m0) e0 + F2R (Zpos m1) e1 < 1 + bpow (-53))%R ->
  exists m e,
    Prim2SF (c0 + r * c1) = S754_finite false m e
    /\ e <= 0
    /\ (F2R (Zpos m0) e0 <= F2R (Zpos m) e <= 1)%R.
Proof.
  intros H0 H1 Hc0 Hc1 He0 Hle0 Hsum.
  assert (Hone : F2R 4503599627370496 (-52) = 1%R)
    by (apply (F2R_integer 1 52); lia).
  assert (Hz : forall s, Prim2SF (r * c1) = S754_zero s ->
            exists m e, Prim2SF (c0 + r * c1) = S754_finite false m e
              /\ e <= 0 /\ (F2R (Zpos m0) e0 <= F2R (Zpos m) e <= 1)%R).
  { intros s Hs. rewrite (add_zero_r c0 _ s m0 e0 Hc0 Hs).
    exists m0, e0. split; [done|]. split; [lia | lra]. }
  destruct (unit_interval r H0 H1) as [[s Hr] | (m & e & Hr & Hle & Hv)].
  { destruct (mul_zero_l r c1 s m1 e1 Hr Hc1) as [s' Hs]. by apply (Hz s'). }
  assert (Hb1 : below m1 e1 (Prim2SF (r * c1))).
  { apply (mul_below r c1 m m1 m1 e e1 e1); [done | done | | | lia |].
    - by apply (Prim2SF_canonical c1 false).
    - by apply (Prim2SF_bounded c1 false m1).
    - pose proof (F2R_pos m e). pose proof (F2R_pos m1 e1).
      pose proof (bpow_pos (-53)). pose proof (bpow_pos (e1 - 1)). nra. }
  destruct (Prim2SF (r * c1)) as [s|s| |s my ey] eqn:Ey; simpl in Hb1;
    try done.
  { by apply (Hz s). }
  destruct s; [done|].
  assert (Hb : below 4503599627370496 (-52) (Prim2SF (c0 + r * c1))).
  { apply (add_below c0 (r * c1) m0 my _ e0 ey); [done | done | done | | |].
    - unfold emax, prec. lia.
    - lia.
    - rewrite Hone. change (-52 - 1) with (-53). lra. }
  assert (Ha : above m0 e0 (Prim2SF (c0 + r * c1))).
  { apply add_above; [done|]. by rewrite Ey. }
  pose proof (Prim2SF_canonical (c0 + r * c1)) as Hcan.
  destruct (Prim2SF (c0 + r * c1)) as [s|s| |s mf ef]; simpl in Hb, Ha;
    try done.
  destruct s; [done|]. exists mf, ef. split; [done|].
  rewrite Hone in Hb. split; [|lra].
  specialize (Hcan false mf ef eq_refl).
  destruct (canonical_bounds mf ef Hcan) as (_ & _ & Hnorm).
  destruct (Z.le_gt_cases ef 0) as [|Hgt]; [done|]. exfalso.
  specialize (Hnorm ltac:(lia)).
  assert (2 <= F2R (Zpos mf) ef)%R; [|lra].
  apply Rle_trans with (F2R (2 ^ 52) ef); [|by apply F2R_le_mantissa].
  rewrite F2R_bpow by lia.
  apply Rle_trans with (bpow 1); [unfold bpow; simpl; lra|].
  apply bpow_le. lia.
Qed.

(** [Math.floor(capacity * factor)] for an integer capacity and a factor of
    at most 1: an integer of at most the capacity. *)
Lemma scaled_floor_range (cap f : float) (C : Z) (mf : positive) (ef : Z) :
  cap = JS.int_to_float C -> 0 < C < 2 ^ 53 ->
  Prim2SF f = S754_finite false mf ef -> ef <= 0 ->
  (F2R (Zpos mf) ef <= 1)%R ->
  exists t,
    0 <= t <= C /\ JSMore.Math_floor (cap * f) = JS.int_to_float t.
Proof.
  intros -> HC Hf Hef Hle.
  destruct (int_to_float_exact C HC) as (mC & eC & EC & VC & HeC).
  assert (Hb : below mC eC (Prim2SF (JS.int_to_float C * f))).
  { apply (mul_below _ f mC mf mC eC ef eC); [done | done | | | lia |].
    - by apply (Prim2SF_canonical _ false _ _ EC).
    - unfold emax, prec. lia.
    - pose proof (F2R_pos mC eC). pose proof (F2R_pos mf ef).
      pose proof (bpow_pos (eC - 1)). nra. }
  destruct (Prim2SF (JS.int_to_float C * f)) as [s|s| |s m e] eqn:Ep;
    simpl in Hb; try done.
  - subst s. exists 0. split; [lia|].
    rewrite (Math_floor_zero _ false Ep).
    apply Prim2SF_inj. by rewrite Ep.
  - destruct s; [done|].
    destruct (Math_floor_finite _ m e Ep) as (q & Hq0 & [Hq1 Hq2] & Hfl).
    { apply Rle_lt_trans with (F2R (Zpos mC) eC); [done|].
      rewrite VC. apply IZR_lt. lia. }
    exists q. split; [|done]. split; [done|]. apply le_IZR. lra.
Qed.

(** An integer at or above a positive integer constant. *)
Lemma int_to_float_above_inv (t L : Z) (mc : positive) (ec : Z) :
  0 <= t < 2 ^ 53 ->
  F2R (Zpos mc) ec = IZR L ->
  above mc ec (Prim2SF (JS.int_to_float t)) -> L <= t.
Proof.
  intros Ht HL Ha. destruct (Z.eq_dec t 0) as [-> | Hne]; [done|].
  destruct (int_to_float_exact t ltac:(lia)) as (m & e & E & V & _).
  rewrite E in Ha. simpl in Ha. apply le_IZR. lra.
Qed.

(** The traffic count [Math.floor(capacity * (c0 + r * c1))]: an integer
    from [L] to the capacity, where [L <= 500 * c0]. *)
Lemma traffic_count_range (r2 r3 c0 c1 : float) (C L : Z)
    (m0 m1 ml : positive) (e0 e1 el : Z) :
  (0 <=? r2)%float = true ->
  (0 <=? r3)%float = true -> (r3 <? 1)%float = true ->
  (500 + JSMore.Math_floor (r2 * 500))%float = JS.int_to_float C ->
  0 < C < 2 ^ 53 ->
  Prim2SF c0 = S754_finite false m0 e0 ->
  Prim2SF c1 = S754_finite false m1 e1 ->
  e0 <= -52 ->
  (F2R (Zpos m0) e0 <= 1)%R ->
  (F2R (Zpos m0) e0 + F2R (Zpos m1) e1 < 1 + bpow (-53))%R ->
  canonical_mantissa prec emax ml el = true ->
  0 < L ->
  F2R (Zpos ml) el = IZR L ->
  (F2R (Zpos ml) el <= 500 * F2R (Zpos m0) e0)%R ->
  exists t,
    L <= t <= C
    /\ JSMore.Math_floor
         ((500 + JSMore.Math_floor (r2 * 500)) * (c0 + r3 * c1))%float
       = JS.int_to_float t.
Proof.
  intros H2 H30 H31 Hcap HC Hc0 Hc1 He0 Hle0 Hsum Hl HL VL Hlow.
  destruct (factor_range r3 c0 c1 m0 m1 e0 e1 H30 H31 Hc0 Hc1 He0 Hle0 Hsum)
    as (mf & ef & Ef & Hef & Hf0 & Hf1).
  destruct (scaled_floor_range _ (c0 + r3 * c1) C mf ef Hcap HC Ef Hef Hf1)
    as (t & Ht & Hfl).
  exists t. split; [|done]. split; [|lia].
  apply (int_to_float_above_inv t L ml el); [lia | done |].
  rewrite <- Hfl.
  apply (Math_floor_above _ L); [done | done | done |].
  apply (mul_above_both _ _ 8796093022208000 m0 _ (-44) e0); [done | | |].
  - rewrite F2R_500. lra.
  - by apply (offset_floor_above 500 500 _ _ 8796093022208000 _ (-44)).
  - rewrite Ef. simpl. lra.
Qed.

(** One generated junction, when the random numbers are in [0, 1). *)
Lemma mockJunction_ranges (lat lng : float) (i : Z) (r : nat -> float) :
  (forall k, (0 <=? r k)%float = true /\ (r k <? 1)%float = true) ->
  exists capacity currentTrafficCount lanes signalTiming speedLimit
         laneWidth : Z,
    MockJunction.capacity (fst (mockJunction lat lng i r))
    = JS.int_to_float capacity
    /\ 500 <= capacity <= 999
    /\ MockJunction.currentTrafficCount (fst (mockJunction lat lng i r))
       = JS.int_to_float currentTrafficCount
    /\ 0 <= currentTrafficCount <= capacity
    /\ (MockJunction.trafficLevel (fst (mockJunction lat lng i r))
        = "high"%string -> 400 <= currentTrafficCount)
    /\ (MockJunction.trafficLevel (fst (mockJunction lat lng i r))
        = "medium"%string -> 250 <= currentTrafficCount)
    /\ (MockJunction.trafficLevel (fst (mockJunction lat lng i r))
        = "low"%string -> 50 <= currentTrafficCount)
    /\ MockJunction.lanes (fst (mockJunction lat lng i r))
       = JS.int_to_float lanes
    /\ 2 <= lanes <= 5
    /\ MockJunction.signalTiming (fst (mockJunction lat lng i r))
       = JS.int_to_float signalTiming
    /\ 30 <= signalTiming <= 89
    /\ MockJunction.speedLimit (fst (mockJunction lat lng i r))
       = JS.int_to_float speedLimit
    /\ 30 <= speedLimit <= 59
    /\ MockJunction.laneWidth (fst (mockJunction lat lng i r))
       = JS.int_to_float laneWidth
    /\ 3 <= laneWidth <= 4.
Proof.
  intros Hr. rewrite mockJunction_run.
  cbn [fst MockJunction.capacity MockJunction.trafficLevel
       MockJunction.currentTrafficCount MockJunction.lanes
       MockJunction.signalTiming MockJunction.speedLimit
       MockJunction.laneWidth].
  destruct (offset_floor_range (r 2%nat) 500 500 500 500
              8796093022208000 8796093022207999 (-44) (-44))
    as (qc & Hqc & Ecap);
    [apply Hr | apply Hr | done | lia | lia | lia | done | apply F2R_500
    | done | unfold emax, prec; lia | lia | | |].
  { change (-44 - 1) with (-45). float_consts F2R_Zneg bpow_Zneg. lra. }
  { float_consts F2R_Zneg bpow_Zneg. lra. }
  destruct (offset_floor_range (r 4%nat) 2 4 2 4
              4503599627370496 9007199254740991 (-50) (-51))
    as (ql & Hql & Elanes);
    [apply Hr | apply Hr | done | lia | lia | lia | done
    | apply (F2R_integer 4 50); lia
    | done | unfold emax, prec; lia | lia | | |].
  { change (-51 - 1) with (-52). float_consts F2R_Zneg bpow_Zneg. lra. }
  { float_consts F2R_Zneg bpow_Zneg. lra. }
  destruct (offset_floor_range (r 5%nat) 30 60 30 60
              8444249301319680 8444249301319679 (-47) (-47))
    as (qs & Hqs & Esignal);
    [apply Hr | apply Hr | done | lia | lia | lia | done
    | apply (F2R_integer 60 47); lia
    | done | unfold emax, prec; lia | lia | | |].
  { change (-47 - 1) with (-48). float_consts F2R_Zneg bpow_Zneg. lra. }
  { float_consts F2R_Zneg bpow_Zneg. lra. }
  destruct (offset_floor_range (r 6%nat) 30 30 30 30
              8444249301319680 8444249301319679 (-48) (-48))
    as (qv & Hqv & Espeed);
    [apply Hr | apply Hr | done | lia | lia | lia | done
    | apply (F2R_integer 30 48); lia
    | done | unfold emax, prec; lia | lia | | |].
  { change (-48 - 1) with (-49). float_consts F2R_Zneg bpow_Zneg. lra. }
  { float_consts F2R_Zneg bpow_Zneg. lra. }
  destruct (offset_floor_range (r 7%nat) 3 2 3 2
              4503599627370496 9007199254740991 (-51) (-52))
    as (qw & Hqw & Ewidth);
    [apply Hr | apply Hr | done | lia | lia | lia | done
    | apply (F2R_integer 2 51); lia
    | done | unfold emax, prec; lia | lia | | |].
  { change (-52 - 1) with (-53). float_consts F2R_Zneg bpow_Zneg. lra. }
  { float_consts F2R_Zneg bpow_Zneg. lra. }
  assert (Hhigh : exists t, 400 <= t <= 500 + qc
            /\ JSMore.Math_floor
                 ((500 + JSMore.Math_floor (r 2%nat * 500))
                  * (0.8 + r 3%nat * 0.2))%float = JS.int_to_float t).
  { apply (traffic_count_range _ _ _ _ _ _
             7205759403792794 7205759403792794 7036874417766400
             (-53) (-55) (-44));
      [apply Hr | apply Hr | apply Hr | done | lia | done | done | lia
      | | | done | lia | apply F2R_400 |].
    - float_consts F2R_Zneg bpow_Zneg. lra.
    - float_consts F2R_Zneg bpow_Zneg. lra.
    - pose proof F2R_0_8. rewrite F2R_400. lra. }
  assert (Hmedium : exists t, 250 <= t <= 500 + qc
            /\ JSMore.Math_floor
                 ((500 + JSMore.Math_floor (r 2%nat * 500))
                  * (0.5 + r 3%nat * 0.3))%float = JS.int_to_float t).
  { apply (traffic_count_range _ _ _ _ _ _
             4503599627370496 5404319552844595 8796093022208000
             (-53) (-54) (-45));
      [apply Hr | apply Hr | apply Hr | done | lia | done | done | lia
      | | | done | lia | apply F2R_250 |].
    - float_consts F2R_Zneg bpow_Zneg. lra.
    - float_consts F2R_Zneg bpow_Zneg. lra.
    - rewrite F2R_250, F2R_half. lra. }
  assert (Hlow : exists t, 50 <= t <= 500 + qc
            /\ JSMore.Math_floor
                 ((500 + JSMore.Math_floor (r 2%nat * 500))
                  * (0.1 + r 3%nat * 0.4))%float = JS.int_to_float t).
  { apply (traffic_count_range _ _ _ _ _ _
             7205759403792794 7205759403792794 7036874417766400
             (-56) (-54) (-47));
      [apply Hr | apply Hr | apply Hr | done | lia | done | done | lia
      | | | done | lia | apply F2R_50 |].
    - float_consts F2R_Zneg bpow_Zneg. lra.
    - float_consts F2R_Zneg bpow_Zneg. lra.
    - pose proof F2R_0_1. rewrite F2R_50. lra. }
  destruct (nth (Z.to_nat (i mod 3)) trafficLevels EmptyString =? "high")%string
    eqn:Eh;
    [apply String.eqb_eq in Eh | apply String.eqb_neq in Eh].
  { destruct Hhigh as (t & Ht & Et). rewrite Eh.
    exists (500 + qc), t, (2 + ql), (30 + qs), (30 + qv), (3 + qw).
    repeat (split; [done || lia|]). lia. }
  destruct (nth (Z.to_nat (i mod 3)) trafficLevels EmptyString =? "medium")%string
    eqn:Em;
    [apply String.eqb_eq in Em | apply String.eqb_neq in Em].
  { destruct Hmedium as (t & Ht & Et). rewrite Em.
    exists (500 + qc), t, (2 + ql), (30 + qs), (30 + qv), (3 + qw).
    repeat (split; [done || lia|]). lia. }
  destruct Hlow as (t & Ht & Et).
  exists (500 + qc), t, (2 + ql), (30 + qs), (30 + qv), (3 + qw).
  repeat (split; [done || lia|]). lia.
Qed.

(** X12: when every random number is in [0, 1), each generated junction has
    integral figures in their ranges: a capacity from 500 to 999, a traffic
    count that is at most the capacity and at least 400, 250 or 50 for a
    high, medium or low traffic level, 2 to 5 lanes, a signal timing from 30
    to 89, a speed limit from 30 to 59 and a lane width of 3 or 4. *)
Theorem generateMockJunctions_ranges (lat lng : float) (count : Z)
    (r : nat -> float) (j : MockJunction.t) :
  count < 2 ^ 32 ->
  (forall k, (0 <=? r k)%float = true /\ (r k <? 1)%float = true) ->
  j ∈ fst (generateMockJunctions lat lng count r) ->
  exists capacity currentTrafficCount lanes signalTiming speedLimit
         laneWidth : Z,
    MockJunction.capacity j = JS.int_to_float capacity
    /\ 500 <= capacity <= 999
    /\ MockJunction.currentTrafficCount j
       = JS.int_to_float currentTrafficCount
    /\ 0 <= currentTrafficCount <= capacity
    /\ (MockJunction.trafficLevel j = "high"%string ->
        400 <= currentTrafficCount)
    /\ (MockJunction.trafficLevel j = "medium"%string ->
        250 <= currentTrafficCount)
    /\ (MockJunction.trafficLevel j = "low"%string ->
        50 <= currentTrafficCount)
    /\ MockJunction.lanes j = JS.int_to_float lanes
    /\ 2 <= lanes <= 5
    /\ MockJunction.signalTiming j = JS.int_to_float signalTiming
    /\ 30 <= signalTiming <= 89
    /\ MockJunction.speedLimit j = JS.int_to_float speedLimit
    /\ 30 <= speedLimit <= 59
    /\ MockJunction.laneWidth j = JS.int_to_float laneWidth
    /\ 3 <= laneWidth <= 4.
Proof.
  intros _ Hr Hin.
  pose (P := fun r0 : nat -> float =>
    forall k, (0 <=? r0 k)%float = true /\ (r0 k <? 1)%float = true).
  pose (Q := fun (_ : Z) (j0 : MockJunction.t) =>
    exists capacity currentTrafficCount lanes signalTiming speedLimit
           laneWidth : Z,
      MockJunction.capacity j0 = JS.int_to_float capacity
      /\ 500 <= capacity <= 999
      /\ MockJunction.currentTrafficCount j0
         = JS.int_to_float currentTrafficCount
      /\ 0 <= currentTrafficCount <= capacity
      /\ (MockJunction.trafficLevel j0 = "high"%string ->
          400 <= currentTrafficCount)
      /\ (MockJunction.trafficLevel j0 = "medium"%string ->
          250 <= currentTrafficCount)
      /\ (MockJunction.trafficLevel j0 = "low"%string ->
          50 <= currentTrafficCount)
      /\ MockJunction.lanes j0 = JS.int_to_float lanes
      /\ 2 <= lanes <= 5
      /\ MockJunction.signalTiming j0 = JS.int_to_float signalTiming
      /\ 30 <= signalTiming <= 89
      /\ MockJunction.speedLimit j0 = JS.int_to_float speedLimit
      /\ 30 <= speedLimit <= 59
      /\ MockJunction.laneWidth j0 = JS.int_to_float laneWidth
      /\ 3 <= laneWidth <= 4).
  assert (Hbody : forall i r0, P r0 ->
            P (snd (mockJunction lat lng i r0))
            /\ Q i (fst (mockJunction lat lng i r0))).
  { intros i r0 Hr0. split.
    - rewrite mockJunction_run. intros k. apply Hr0.
    - by apply mockJunction_ranges. }
  unfold generateMockJunctions in Hin.
  destruct (rnd_for_push_spec (mockJunction lat lng) P Q Hbody
              (Z.to_nat count) 0 [] r Hr) as (_ & _ & _ & Hall).
  apply list_elem_of_lookup_1 in Hin as [k Hk].
  exact (Hall k j Hk).
Qed.

Lemma generateMockJunctions_ranges_witness :
  let r := fun _ : nat => 0.75%float in
  let j := fst (mockJunction 12.9716 77.5946 2 r) in
  exists capacity currentTrafficCount lanes signalTiming speedLimit
         laneWidth : Z,
    MockJunction.capacity j = JS.int_to_float capacity
    /\ 500 <= capacity <= 999
    /\ MockJunction.currentTrafficCount j
       = JS.int_to_float currentTrafficCount
    /\ 0 <= currentTrafficCount <= capacity
    /\ (MockJunction.trafficLevel j = "high"%string ->
        400 <= currentTrafficCount)
    /\ (MockJunction.trafficLevel j = "medium"%string ->
        250 <= currentTrafficCount)
    /\ (MockJunction.trafficLevel j = "low"%string ->
        50 <= currentTrafficCount)
    /\ MockJunction.lanes j = JS.int_to_float lanes
    /\ 2 <= lanes <= 5
    /\ MockJunction.signalTiming j = JS.int_to_float signalTiming
    /\ 30 <= signalTiming <= 89
    /\ MockJunction.speedLimit j = JS.int_to_float speedLimit
    /\ 30 <= speedLimit <= 59
    /\ MockJunction.laneWidth j = JS.int_to_float laneWidth
    /\ 3 <= laneWidth <= 4.
Proof.
  intros r j.
  apply (generateMockJunctions_ranges 12.9716 77.5946 3 r j).
  - lia.
  - intros k. split; reflexivity.
  - apply (list_elem_of_lookup_2 _ 2%nat). reflexivity.
Defined.

(** ** The daily factor of the program

    The sine function is enclosed at the multiples of π/12, the arguments
    that the loop computes are shown to be within 1/1000 of these multiples,
    and the order of numbers is related to the order of their values. *)

Section Sine.
Local Open Scope R_scope.

(** π, from the series of 2·atan(1/3) + atan(1/7). *)
Lemma PI_enclosure : 3.14159 < PI < 3.14160.
Proof.
  pose proof (PI_2_3_7_ineq 3) as [Hlo Hhi].
  unfold sum_f_R0, tg_alt, PI_2_3_7_tg, Ratan_seq in Hlo, Hhi.
  simpl in Hlo, Hhi.
  split; lra.
Qed.

Lemma sin_abs_le (x : R) : Rabs (sin x) <= Rabs x.
Proof.
  destruct (Rle_or_lt 0 x) as [Hx|Hx].
  - destruct (Rle_or_lt x 1) as [H1|H1].
    + assert (0 <= sin x).
      { apply sin_ge_0; [lra|]. pose proof PI_enclosure. lra. }
      assert (sin x <= x).
      { destruct (Req_dec x 0) as [->|Hne]; [rewrite sin_0; lra|].
        apply Rlt_le, sin_lt_x. lra. }
      rewrite !Rabs_pos_eq by lra. lra.
    + pose proof (SIN_bound x) as [Hlo Hhi].
      rewrite (Rabs_pos_eq x) by lra.
      apply Rabs_le. lra.
  - destruct (Rle_or_lt (-1) x) as [H1|H1].
    + assert (0 <= sin (- x)).
      { apply sin_ge_0; [lra|]. pose proof PI_enclosure. lra. }
      assert (sin (- x) < - x) by (apply sin_lt_x; lra).
      rewrite sin_neg in *.
      rewrite (Rabs_left x) by lra. apply Rabs_le. lra.
    + pose proof (SIN_bound x) as [Hlo Hhi].
      rewrite (Rabs_left x) by lra. apply Rabs_le. lra.
Qed.

(** The sine moves no more than its argument. *)
Lemma sin_lipschitz (a b : R) : Rabs (sin a - sin b) <= Rabs (a - b).
Proof.
  rewrite form4.
  pose proof (sin_abs_le ((a - b) / 2)) as Hs.
  pose proof (COS_bound ((a + b) / 2)) as [Hlo Hhi].
  assert (Hc : Rabs (cos ((a + b) / 2)) <= 1) by (apply Rabs_le; lra).
  rewrite !Rabs_mult, (Rabs_pos_eq 2) by lra.
  assert (Hh : Rabs ((a - b) / 2) = Rabs (a - b) / 2).
  { unfold Rdiv. rewrite Rabs_mult, (Rabs_pos_eq (/ 2)) by lra. done. }
  rewrite Hh in Hs.
  pose proof (Rabs_pos (sin ((a - b) / 2))).
  pose proof (Rabs_pos (cos ((a + b) / 2))).
  nra.
Qed.

Lemma sqrt3_enclosure : 1.73205 < sqrt 3 < 1.73206.
Proof.
  assert (H : sqrt 3 * sqrt 3 = 3) by (apply sqrt_def; lra).
  pose proof (sqrt_pos 3). split; nra.
Qed.

Lemma sqrt2_enclosure : 1.41421 < sqrt 2 < 1.41422.
Proof.
  assert (H : sqrt 2 * sqrt 2 = 2) by (apply sqrt_def; lra).
  pose proof (sqrt_pos 2). split; nra.
Qed.

(** The cosines of the multiples of π/12 up to π/2. *)
Lemma cos_PI12 : 0.9659 < cos (PI / 12) < 0.9660.
Proof.
  pose proof (cos_2a_cos (PI / 12)) as H.
  replace (2 * (PI / 12)) with (PI / 6) in H by lra.
  rewrite cos_PI6 in H. pose proof sqrt3_enclosure.
  assert (0 < cos (PI / 12)).
  { apply cos_gt_0; pose proof PI_enclosure; lra. }
  split; nra.
Qed.

Lemma sin_PI12 : 0.2588 < sin (PI / 12) < 0.2589.
Proof.
  pose proof (cos_2a_sin (PI / 12)) as H.
  replace (2 * (PI / 12)) with (PI / 6) in H by lra.
  rewrite cos_PI6 in H. pose proof sqrt3_enclosure.
  assert (0 < sin (PI / 12)).
  { apply sin_gt_0; pose proof PI_enclosure; lra. }
  split; nra.
Qed.

Lemma cos_5PI12 : 0.2588 < cos (5 * PI / 12) < 0.2589.
Proof.
  replace (5 * PI / 12) with (PI / 2 - PI / 12) by lra.
  rewrite cos_shift. apply sin_PI12.
Qed.

Lemma cos_PI4_enclosure : 0.7071 < cos (PI / 4) < 0.7072.
Proof.
  rewrite cos_PI4. pose proof sqrt2_enclosure as [H1 H2].
  assert (Hs : 1 / sqrt 2 = sqrt 2 / 2).
  { assert (H : sqrt 2 * sqrt 2 = 2) by (apply sqrt_def; lra).
    field_simplify_eq; lra. }
  rewrite Hs. lra.
Qed.

Lemma cos_PI6_enclosure : 0.8660 < cos (PI / 6) < 0.8661.
Proof. rewrite cos_PI6. pose proof sqrt3_enclosure. lra. Qed.

Lemma cos_PI_minus (x : R) : cos (PI - x) = - cos x.
Proof. rewrite cos_minus, cos_PI, sin_PI. lra. Qed.

Lemma cos_2PI_minus (x : R) : cos (2 * PI - x) = cos x.
Proof. rewrite cos_minus, cos_2PI, sin_2PI. lra. Qed.

Lemma sin_minus_PI2 (x : R) : sin (x - PI / 2) = - cos x.
Proof. rewrite sin_minus, sin_PI2, cos_PI2. lra. Qed.

Lemma cos_grid_low (k : Z) :
  (0 <= k <= 6)%Z ->
  Rabs (cos (IZR k * PI / 12) - IZR (cosTable k) / 10000) <= 1 / 10000.
Proof.
  intros Hk.
  assert (Hc : k = 0%Z \/ k = 1%Z \/ k = 2%Z \/ k = 3%Z \/ k = 4%Z \/ k = 5%Z
               \/ k = 6%Z) by lia.
  destruct Hc as [-> | [-> | [-> | [-> | [-> | [-> | ->]]]]]];
    cbn [cosTable]; apply Rabs_le.
  - replace (0 * PI / 12) with 0 by lra. rewrite cos_0. lra.
  - replace (1 * PI / 12) with (PI / 12) by lra.
    pose proof cos_PI12. lra.
  - replace (2 * PI / 12) with (PI / 6) by lra.
    pose proof cos_PI6_enclosure. lra.
  - replace (3 * PI / 12) with (PI / 4) by lra.
    pose proof cos_PI4_enclosure. lra.
  - replace (4 * PI / 12) with (PI / 3) by lra. rewrite cos_PI3. lra.
  - pose proof cos_5PI12. lra.
  - replace (6 * PI / 12) with (PI / 2) by lra. rewrite cos_PI2. lra.
Qed.

Lemma cosTable_opp (k : Z) :
  (0 <= k <= 12)%Z -> cosTable (12 - k) = (- cosTable k)%Z.
Proof.
  intros Hk.
  assert (Hc : k = 0%Z \/ k = 1%Z \/ k = 2%Z \/ k = 3%Z \/ k = 4%Z \/ k = 5%Z
               \/ k = 6%Z \/ k = 7%Z \/ k = 8%Z \/ k = 9%Z \/ k = 10%Z
               \/ k = 11%Z \/ k = 12%Z) by lia.
  destruct Hc as [-> | [-> | [-> | [-> | [-> | [-> | [-> | [-> | [-> | [-> |
    [-> | [-> | ->]]]]]]]]]]]]; reflexivity.
Qed.

Lemma cos_grid (k : Z) :
  (0 <= k <= 12)%Z ->
  Rabs (cos (IZR k * PI / 12) - IZR (cosTable k) / 10000) <= 1 / 10000.
Proof.
  intros Hk. destruct (Z_le_dec k 6) as [Hlow|Hhigh]; [apply cos_grid_low; lia|].
  pose proof (cos_grid_low (12 - k) ltac:(lia)) as H.
  rewrite cosTable_opp, opp_IZR, minus_IZR in H by lia.
  replace ((12 - IZR k) * PI / 12) with (PI - IZR k * PI / 12) in H by lra.
  rewrite cos_PI_minus in H.
  replace (- cos (IZR k * PI / 12) - - IZR (cosTable k) / 10000)
    with (- (cos (IZR k * PI / 12) - IZR (cosTable k) / 10000)) in H by lra.
  by rewrite Rabs_Ropp in H.
Qed.

(** The daily factor over the real numbers is within 1/10000 of its table. *)
Lemma hourFactor_real_table (i : Z) :
  (0 <= i < 24)%Z ->
  Rabs (hourFactor_real i - IZR (hourFactorTable i) / 10000) <= 1 / 10000.
Proof.
  intros Hi. unfold hourFactor_real, hourFactorTable.
  replace ((IZR i - 6) * PI / 12) with (IZR i * PI / 12 - PI / 2) by lra.
  rewrite sin_minus_PI2, opp_IZR.
  assert (Hcos : cos (IZR i * PI / 12)
                 = cos (IZR (if (i <=? 12)%Z then i else 24 - i)%Z * PI / 12)).
  { destruct (Z.leb_spec i 12) as [_|Hgt]; [done|].
    rewrite minus_IZR.
    replace ((24 - IZR i) * PI / 12) with (2 * PI - IZR i * PI / 12) by lra.
    by rewrite cos_2PI_minus. }
  rewrite Hcos.
  pose proof (cos_grid (if (i <=? 12)%Z then i else 24 - i)%Z) as H.
  replace (- cos (IZR (if (i <=? 12)%Z then i else (24 - i)%Z) * PI / 12)
           - - IZR (cosTable (if (i <=? 12)%Z then i else (24 - i)%Z)) / 10000)
    with (- (cos (IZR (if (i <=? 12)%Z then i else (24 - i)%Z) * PI / 12)
             - IZR (cosTable (if (i <=? 12)%Z then i else (24 - i)%Z)) / 10000))
    by lra.
  rewrite Rabs_Ropp. apply H. destruct (Z.leb_spec i 12); lia.
Qed.

(** The table is largest at index 12 and smallest at index 0, by a margin. *)
Lemma hourFactorTable_peak (i : Z) :
  (0 <= i < 24)%Z ->
  hourFactorTable 12 = 10000%Z /\ hourFactorTable 0 = (-10000)%Z
  /\ (i <> 12%Z -> (hourFactorTable i <= 9659)%Z)
  /\ (i <> 0%Z -> (-9659 <= hourFactorTable i)%Z).
Proof.
  intros Hi. split; [done|]. split; [done|].
  assert (Hin : In i (seqZ 0 24)).
  { apply list_elem_of_In, elem_of_seqZ. lia. }
  vm_compute in Hin.
  repeat (destruct Hin as [<- | Hin]; [split; intros ?; vm_compute; congruence|]).
  destruct Hin.
Qed.

End Sine.

Lemma F2R_Zpos_exp (m : Z) (p : positive) :
  F2R m (Zpos p) = (IZR m * IZR (2 ^ Zpos p))%R.
Proof. unfold F2R. by rewrite bpow_IZR by lia. Qed.

Lemma F2R_zero_exp (m : Z) : F2R m 0 = IZR m.
Proof. unfold F2R, bpow. simpl. lra. Qed.

(** The argument computed in binary64 at index [i] is within 1/1000 of
    (i − 6) × π / 12. *)
Lemma hourAngle_close (i : Z) :
  0 <= i < 24 ->
  (Rabs (realValue (hourAngle i) - (IZR i - 6) * PI / 12) <= 1 / 1000)%R.
Proof.
  intros Hi.
  assert (Hin : In i (seqZ 0 24)).
  { apply list_elem_of_In, elem_of_seqZ. lia. }
  vm_compute in Hin.
  pose proof PI_enclosure as [Hlo Hhi].
  repeat (destruct Hin as [<- | Hin];
          [unfold realValue;
           match goal with
           | |- context [F2R (mantissa ?x) (exponent ?x)] =>
               let m := eval vm_compute in (mantissa x) in
               let e := eval vm_compute in (exponent x) in
               change (F2R (mantissa x) (exponent x)) with (F2R m e)
           end;
           rewrite ?F2R_Zneg, ?F2R_zero_exp;
           repeat match goal with
                  | |- context [2 ^ Zpos ?p] =>
                      let v := eval vm_compute in (2 ^ Zpos p) in
                      change (2 ^ Zpos p) with v
                  end;
           apply Rabs_le; lra|]).
  destruct Hin.
Qed.

Lemma value_finite (x : float) (s : bool) (m : positive) (e : Z) :
  Prim2SF x = S754_finite s m e -> realValue x = F2R (cond_Zopp s (Zpos m)) e.
Proof. intros H. unfold realValue, mantissa, exponent. by rewrite H. Qed.

Lemma value_zero (x : float) (s : bool) :
  Prim2SF x = S754_zero s -> realValue x = 0%R.
Proof.
  intros H. unfold realValue, mantissa, exponent. rewrite H. unfold F2R. lra.
Qed.

Lemma F2R_cond_Zopp (s : bool) (m : positive) (e : Z) :
  F2R (cond_Zopp s (Zpos m)) e
  = (if s then - F2R (Zpos m) e else F2R (Zpos m) e)%R.
Proof. destruct s; simpl; unfold F2R; [|done]. rewrite opp_IZR. lra. Qed.

(** The order of finite numbers is the order of their values. *)
Lemma value_ltb (x y : float) :
  is_finite x = true -> is_finite y = true ->
  (realValue x < realValue y)%R -> (x <? y)%float = true.
Proof.
  intros Hx Hy Hlt. rewrite ltb_spec. unfold SFltb.
  destruct (is_finite_Prim2SF x Hx) as [[sx Ex] | (sx & mx & ex & Ex)];
    destruct (is_finite_Prim2SF y Hy) as [[sy Ey] | (sy & my & ey & Ey)].
  - rewrite (value_zero x sx Ex), (value_zero y sy Ey) in Hlt. lra.
  - rewrite (value_zero x sx Ex), (value_finite y sy my ey Ey), F2R_cond_Zopp
      in Hlt.
    rewrite Ex, Ey. pose proof (F2R_pos my ey). destruct sy; [lra | done].
  - rewrite (value_zero y sy Ey), (value_finite x sx mx ex Ex), F2R_cond_Zopp
      in Hlt.
    rewrite Ex, Ey. pose proof (F2R_pos mx ex). destruct sx; [done | lra].
  - rewrite (value_finite x sx mx ex Ex), (value_finite y sy my ey Ey) in Hlt.
    rewrite Ex, Ey.
    rewrite SFcompare_aligned
      by (by apply (Prim2SF_canonical _ _ _ _ Ex)
          || by apply (Prim2SF_canonical _ _ _ _ Ey)).
    set (ez := Z.min ex ey) in *.
    destruct (shl_align_F2R mx ex ez) as [Hvx Hsx].
    destruct (shl_align_F2R my ey ez) as [Hvy Hsy].
    rewrite Hsx in Hvx by apply Z.le_min_l.
    rewrite Hsy in Hvy by apply Z.le_min_r.
    assert (Hx' : F2R (cond_Zopp sx (Zpos mx)) ex
                  = F2R (cond_Zopp sx (Zpos (fst (shl_align mx ex ez)))) ez).
    { rewrite !F2R_cond_Zopp. by rewrite Hvx. }
    assert (Hy' : F2R (cond_Zopp sy (Zpos my)) ey
                  = F2R (cond_Zopp sy (Zpos (fst (shl_align my ey ez)))) ez).
    { rewrite !F2R_cond_Zopp. by rewrite Hvy. }
    rewrite Hx', Hy' in Hlt.
    destruct (Z.compare_spec (cond_Zopp sx (Zpos (fst (shl_align mx ex ez))))
                (cond_Zopp sy (Zpos (fst (shl_align my ey ez)))))
      as [Heq | Hl | Hg]; [|done|].
    + rewrite Heq in Hlt. lra.
    + pose proof (F2R_le_mantissa _ _ ez (Z.lt_le_incl _ _ Hg)). lra.
Qed.

(** The loop computes [Math.sin] of the argument. *)
Lemma hourFactor_hourAngle Math_sin (i : Z) :
  hourFactor Math_sin i = Math_sin (hourAngle i).
Proof. reflexivity. Qed.

Section Shape.
Local Open Scope R_scope.

Lemma Rabs_le_bounds (x a : R) : Rabs x <= a -> - a <= x <= a.
Proof. unfold Rabs. destruct (Rcase_abs x); lra. Qed.

(** With an accurate [Math.sin] the daily factor of the program is within
    1/64 + 1/1000 of the one over the real numbers. *)
Lemma hourFactor_close Math_sin (i : Z) :
  accurate_sine Math_sin -> (0 <= i < 24)%Z ->
  is_finite (hourFactor Math_sin i) = true
  /\ Rabs (realValue (hourFactor Math_sin i) - hourFactor_real i)
     <= 1 / 64 + 1 / 1000.
Proof.
  intros Hsin Hi. destruct (Hsin i Hi) as [Hfin Hacc].
  split; [exact Hfin|]. rewrite hourFactor_hourAngle.
  pose proof (hourAngle_close i Hi) as Hangle.
  pose proof (sin_lipschitz (realValue (hourAngle i)) ((IZR i - 6) * PI / 12))
    as Hlip.
  fold (hourFactor_real i) in Hlip.
  apply Rabs_le_bounds in Hacc. apply Rabs_le_bounds in Hlip.
  apply Rabs_le. lra.
Qed.

(** The shape of the daily factor of the program. *)
Lemma hourFactor_shape Math_sin (i : Z) :
  accurate_sine Math_sin -> (0 <= i < 24)%Z ->
  (i <> 12%Z -> (hourFactor Math_sin i <? hourFactor Math_sin 12)%float = true)
  /\ (i <> 0%Z -> (hourFactor Math_sin 0 <? hourFactor Math_sin i)%float = true).
Proof.
  intros Hsin Hi.
  destruct (hourFactor_close Math_sin i Hsin Hi) as [Fi Ci].
  destruct (hourFactor_close Math_sin 12 Hsin ltac:(lia)) as [F12 C12].
  destruct (hourFactor_close Math_sin 0 Hsin ltac:(lia)) as [F0 C0].
  pose proof (hourFactor_real_table i Hi) as Ti.
  pose proof (hourFactor_real_table 12 ltac:(lia)) as T12.
  pose proof (hourFactor_real_table 0 ltac:(lia)) as T0.
  destruct (hourFactorTable_peak i Hi) as (P12 & P0 & Phi & Plo).
  rewrite P12 in T12. rewrite P0 in T0.
  apply Rabs_le_bounds in Ci, C12, C0, Ti, T12, T0.
  split; intros Hne; apply value_ltb; try done.
  - apply Phi, IZR_le in Hne. lra.
  - apply Plo, IZR_le in Hne. lra.
Qed.

End Shape.

Section Witness.
Local Open Scope R_scope.

(** A [Math.sin] that is within 1/100 of the table is accurate. *)
Lemma accurate_from_table Math_sin :
  (forall i, (0 <= i < 24)%Z ->
     is_finite (Math_sin (hourAngle i)) = true
     /\ Rabs (realValue (Math_sin (hourAngle i)) - IZR (hourFactorTable i) / 10000)
        <= 1 / 100) ->
  accurate_sine Math_sin.
Proof.
  intros Htable i Hi. destruct (Htable i Hi) as [Hfin Hclose].
  split; [exact Hfin|].
  pose proof (hourAngle_close i Hi) as Hangle.
  pose proof (sin_lipschitz (realValue (hourAngle i)) ((IZR i - 6) * PI / 12))
    as Hlip.
  fold (hourFactor_real i) in Hlip.
  pose proof (hourFactor_real_table i Hi) as Ht.
  apply Rabs_le_bounds in Hclose. apply Rabs_le_bounds in Hlip.
  apply Rabs_le_bounds in Ht. apply Rabs_le. lra.
Qed.

(** The polynomial sine is accurate at the 24 arguments of the loop. *)
Lemma sin_poly_accurate : accurate_sine sin_poly.
Proof.
  apply accurate_from_table. intros i Hi.
  assert (Hin : In i (seqZ 0 24)).
  { apply list_elem_of_In, elem_of_seqZ. lia. }
  vm_compute in Hin.
  repeat (destruct Hin as [<- | Hin];
          [split; [vm_compute; reflexivity|];
           unfold realValue;
           match goal with
           | |- context [F2R (mantissa ?x) (exponent ?x)] =>
               let m := eval vm_compute in (mantissa x) in
               let e := eval vm_compute in (exponent x) in
               change (F2R (mantissa x) (exponent x)) with (F2R m e)
           end;
           match goal with
           | |- context [hourFactorTable ?k] =>
               let t := eval vm_compute in (hourFactorTable k) in
               change (hourFactorTable k) with t
           end;
           rewrite ?F2R_Zneg, ?F2R_zero_exp;
           repeat match goal with
                  | |- context [2 ^ Zpos ?p] =>
                      let v := eval vm_compute in (2 ^ Zpos p) in
                      change (2 ^ Zpos p) with v
                  end;
           apply Rabs_le; lra|]).
  destruct Hin.
Qed.

End Witness.

(** C5, as the code has it: over the indices 0..23 the daily factor has its
    maximum at index 12 and nowhere else, and its minimum at index 0 and
    nowhere else.  This holds of sin((i − 6) × π / 12) over the real numbers,
    where the maximum is 1 and the minimum -1, and of the number that the
    program computes, which is within 1/64 + 1/1000 of it, for every
    [Math.sin] that is within 1/64 of the sine at the 24 arguments. *)
Theorem hourFactor_peak_and_trough Math_sin (i : Z) :
  accurate_sine Math_sin ->
  0 <= i < 24 ->
  is_finite (hourFactor Math_sin i) = true
  /\ (Rabs (realValue (hourFactor Math_sin i) - hourFactor_real i)
      <= 1 / 64 + 1 / 1000)%R
  /\ (i <> 12 ->
      (hourFactor Math_sin i <? hourFactor Math_sin 12)%float = true)
  /\ (i <> 0 ->
      (hourFactor Math_sin 0 <? hourFactor Math_sin i)%float = true)
  /\ (hourFactor_real i <= hourFactor_real 12)%R
  /\ (hourFactor_real 0 <= hourFactor_real i)%R
  /\ (hourFactor_real i = hourFactor_real 12 -> i = 12)
  /\ (hourFactor_real i = hourFactor_real 0 -> i = 0)
  /\ hourFactor_real 12 = 1%R /\ hourFactor_real 0 = (-1)%R.
Proof.
  intros Hsin Hi.
  destruct (hourFactor_close Math_sin i Hsin Hi) as [Hfin Hclose].
  destruct (hourFactor_shape Math_sin i Hsin Hi) as [Hpeak Htrough].
  split; [exact Hfin|]. split; [exact Hclose|].
  split; [exact Hpeak|]. split; [exact Htrough|].
  rewrite hourFactor_real_12, hourFactor_real_0.
  pose proof (SIN_bound (((IZR i - 6) * PI) / 12)) as [Hlo Hhi].
  fold (hourFactor_real i) in Hlo, Hhi.
  split; [exact Hhi|]. split; [exact Hlo|].
  split; [|split; [|done]].
  - intros H1. destruct (hourFactor_real_extreme i Hi (or_introl H1)) as [-> | ->];
      [|done].
    rewrite hourFactor_real_0 in H1. lra.
  - intros H1. destruct (hourFactor_real_extreme i Hi (or_intror H1)) as [-> | ->];
      [done|].
    rewrite hourFactor_real_12 in H1. lra.
Qed.

Lemma hourFactor_peak_and_trough_witness :
  is_finite (hourFactor sin_poly 18) = true
  /\ (Rabs (realValue (hourFactor sin_poly 18) - hourFactor_real 18)
      <= 1 / 64 + 1 / 1000)%R
  /\ (hourFactor sin_poly 18 <? hourFactor sin_poly 12)%float = true
  /\ (hourFactor sin_poly 0 <? hourFactor sin_poly 18)%float = true
  /\ (hourFactor_real 18 <= hourFactor_real 12)%R
  /\ (hourFactor_real 0 <= hourFactor_real 18)%R.
Proof.
  destruct (hourFactor_peak_and_trough sin_poly 18 sin_poly_accurate)
    as (H1 & H2 & H3 & H4 & H5 & H6 & _); [lia|].
  split; [exact H1|]. split; [exact H2|].
  split; [apply H3; lia|]. split; [apply H4; lia|].
  split; [exact H5 | exact H6].
Defined.

(** C5 as stated fails: the factor at index 18 is below the factor at index
    12, and the factor at index 6 is above the factor at index 0, over the
    real numbers (0 < 1 and -1 < 0) and in the program run with the
    polynomial sine, which is within 1/64 of the sine. *)
Lemma hourFactor_peak_counterexample :
  accurate_sine sin_poly
  /\ (hourFactor sin_poly 18 <? hourFactor sin_poly 12)%float = true
  /\ (hourFactor sin_poly 0 <? hourFactor sin_poly 6)%float = true
  /\ (hourFactor_real 18 < hourFactor_real 12)%R
  /\ (hourFactor_real 0 < hourFactor_real 6)%R.
Proof.
  split; [exact sin_poly_accurate|].
  split; [vm_compute; reflexivity|]. split; [vm_compute; reflexivity|].
  rewrite hourFactor_real_18, hourFactor_real_12, hourFactor_real_0,
    hourFactor_real_6.
  split; lra.
Qed.
